(** * Voice streaming service: registry, message handling, teardown

    A shallow embedding of [server/services/voiceStreaming.ts]
    (class [VoiceStreamingService]) and of the part of
    [server/config/webhooks.ts] it calls.

    Conventions of the embedding.
    - JavaScript values of type [any] (parsed client messages, webhook
      replies, JSON frames handed to [JSON.stringify]) are terms of
      [JValue]; object literals are association lists in source order.
    - Strings of the service are sequences of bytes, the UTF-8 encoding
      of the JavaScript string; the service concatenates and compares
      them, tests them for emptiness and trims them, and [trim] is
      written on the encoding.  A string with an unpaired surrogate has
      no encoding and is outside the model.
    - The service object ([this]) and everything it reaches is the record
      [World]: the two maps of the class, the heap of session objects
      (the registry and the handler closures alias the same object), the
      ElevenLabs sockets, the registered client listeners, and the trace
      of calls made to collaborators, in the order they are made.
    - What a collaborator answers (the clock, the transcription provider,
      the session lookup, the webhook endpoint, the quota module, the
      token generator) is an argument of the operation that asks.
      An answer is a value returned or an error thrown.  Two calls
      always return: [clientWs.send] (the client socket is a server-side
      socket, past CONNECTING) and the dynamic [import]s of modules of
      the code base.
    - Parsed objects have distinct keys.
    - In the event loop a listener runs to completion, its [await]s
      included, before the next event is delivered: two listeners
      interleaved at their [await]s are outside [step] and [run].
      [cleanupSession], whose callers drop its promise, is given in the
      parts between its [await]s, with [schedule] for invocations that
      overlap; [step] runs the parts of one invocation in a row.  [console] output is
      not recorded. *)

From Stdlib Require Import ZArith QArith Lia Ascii.
From stdpp Require Import base option list strings pretty gmap.

Local Open Scope Z_scope.
Local Open Scope string_scope.
Local Open Scope list_scope.
#[local] Set Warnings "-register-all".

(** ** JavaScript values *)

Inductive JValue : Type :=
| JUndefined
| JNull
| JBool (b : bool)
| JNum (q : Q)
| JStr (s : string)
| JArr (items : list JValue)
| JObj (fields : list (string * JValue)).

Definition JInt (z : Z) : JValue := JNum (inject_Z z).

(** ToBoolean. *)
Definition truthy (v : JValue) : bool :=
  match v with
  | JUndefined | JNull => false
  | JBool b => b
  | JNum q => negb (Z.eqb (Qnum q) 0)
  | JStr s => negb (String.eqb s EmptyString)
  | JArr _ | JObj _ => true
  end.

(** [a || b]. *)
Definition jor (a b : JValue) : JValue := if truthy a then a else b.

Fixpoint assoc (name : string) (fields : list (string * JValue)) : JValue :=
  match fields with
  | [] => JUndefined
  | (k, v) :: rest => if String.eqb k name then v else assoc name rest
  end.

(** [v?.name]: [undefined] on [null] and [undefined], and on primitives
    and arrays, which have none of the property names read by this
    service. *)
Definition opt_get (v : JValue) (name : string) : JValue :=
  match v with
  | JObj fields => assoc name fields
  | _ => JUndefined
  end.

(** ** Strings *)

(** White space of [String.prototype.trim] (the WhiteSpace and
    LineTerminator code points of ECMAScript), by the bytes of its UTF-8
    encoding.  One byte: U+0009 to U+000D and U+0020. *)
Definition is_ws1 (c : ascii) : bool :=
  let n := N_of_ascii c in
  ((9 <=? n) && (n <=? 13) || (n =? 32))%N.

(** Two bytes: U+00A0, that is C2 A0. *)
Definition is_ws2 (c1 c2 : ascii) : bool :=
  ((N_of_ascii c1 =? 194) && (N_of_ascii c2 =? 160))%N.

(** Three bytes: U+1680 (E1 9A 80), U+2000 to U+200A (E2 80 80 to 8A),
    U+2028 and U+2029 (E2 80 A8, A9), U+202F (E2 80 AF), U+205F
    (E2 81 9F), U+3000 (E3 80 80) and U+FEFF (EF BB BF). *)
Definition is_ws3 (c1 c2 c3 : ascii) : bool :=
  let n1 := N_of_ascii c1 in
  let n2 := N_of_ascii c2 in
  let n3 := N_of_ascii c3 in
  ((n1 =? 225) && (n2 =? 154) && (n3 =? 128)
   || (n1 =? 226) && (n2 =? 128)
      && ((128 <=? n3) && (n3 <=? 138) || (n3 =? 168) || (n3 =? 169) || (n3 =? 175))
   || (n1 =? 226) && (n2 =? 129) && (n3 =? 159)
   || (n1 =? 227) && (n2 =? 128) && (n3 =? 128)
   || (n1 =? 239) && (n2 =? 187) && (n3 =? 191))%N.

Arguments is_ws1 : simpl never.
Arguments is_ws2 : simpl never.
Arguments is_ws3 : simpl never.

(** What follows one white-space character at the front of [s]. *)
Definition ws_prefix (s : string) : option string :=
  match s with
  | EmptyString => None
  | String c1 s1 =>
      if is_ws1 c1 then Some s1
      else match s1 with
           | EmptyString => None
           | String c2 s2 =>
               if is_ws2 c1 c2 then Some s2
               else match s2 with
                    | EmptyString => None
                    | String c3 s3 => if is_ws3 c1 c2 c3 then Some s3 else None
                    end
           end
  end.

Fixpoint trimStart (s : string) : string :=
  match s with
  | EmptyString => EmptyString
  | String c1 s1 =>
      if is_ws1 c1 then trimStart s1
      else match s1 with
           | EmptyString => s
           | String c2 s2 =>
               if is_ws2 c1 c2 then trimStart s2
               else match s2 with
                    | EmptyString => s
                    | String c3 s3 => if is_ws3 c1 c2 c3 then trimStart s3 else s
                    end
           end
  end.

(** The string is cut where what is left is white space only.  No
    white-space character begins inside the encoding of another
    character, so the cut falls between two characters. *)
Fixpoint trimEnd (s : string) : string :=
  match s with
  | EmptyString => EmptyString
  | String c s' =>
      match trimStart s with
      | EmptyString => EmptyString
      | _ => String c (trimEnd s')
      end
  end.

Definition trim (s : string) : string := trimEnd (trimStart s).

(** ** Errors *)

Record Exn : Type := mkExn { exnName : string; exnMessage : string }.

Definition Error (msg : string) : Exn := mkExn "Error" msg.
Definition TypeError (msg : string) : Exn := mkExn "TypeError" msg.
Definition SyntaxError (msg : string) : Exn := mkExn "SyntaxError" msg.

(** [String(error)], that is [Error.prototype.toString]. *)
Definition exnToString (e : Exn) : string :=
  if String.eqb (exnName e) EmptyString then exnMessage e
  else if String.eqb (exnMessage e) EmptyString then exnName e
  else exnName e +:+ ": " +:+ exnMessage e.

(** What an awaited call to a collaborator does. *)
Inductive Outcome (A : Type) : Type :=
| Returns (a : A)
| Throws (e : Exn).
Arguments Returns {A} a.
Arguments Throws {A} e.

(** ** Data model *)

Inductive ReadyState : Type := CONNECTING | OPEN | CLOSING | CLOSED.

Definition isOpen (r : ReadyState) : bool :=
  match r with OPEN => true | _ => false end.

(** [interface VoiceStreamingSession].  [elevenLabsWs] is a handle into
    [sockets]; [geminiSession] is never assigned nor read. *)
Record VoiceStreamingSession : Type := mkSession {
  sessionId : string;
  conversationId : string;
  personality : string;
  elevenLabsWs : option nat;
  isActive : bool;
  startTime : Z
}.

Definition withIsActive (b : bool) (s : VoiceStreamingSession) : VoiceStreamingSession :=
  mkSession (sessionId s) (conversationId s) (personality s) (elevenLabsWs s) b (startTime s).

Definition withElevenLabsWs (ws : nat) (s : VoiceStreamingSession) : VoiceStreamingSession :=
  mkSession (sessionId s) (conversationId s) (personality s) (Some ws) (isActive s)
            (startTime s).

(** An ElevenLabs socket with what its listeners close over. *)
Record Socket : Type := mkSocket {
  readyState : ReadyState;
  wsClient : nat;
  wsSession : nat
}.

(** What [setupClientHandlers] closes over. *)
Record ClientListener : Type := mkListener {
  lClient : nat;
  lSession : nat;
  lStream : string
}.

(** Calls that leave the service. *)
Inductive Event : Type :=
| ClientSend (client : nat) (msg : JValue)
| TtsSend (ws : nat) (frame : JValue)
| TtsClose (ws : nat)
| GenerateContent (audio : string)
| GetSession (sid : string)
| AxiosPost (url : string) (payload : JValue)
| CreateWebhookLog (record : JValue)
| CreateAudioCache (record : JValue)
| IncrementVoiceMinutes (sid : string) (minutes : Z).

Record World : Type := mkWorld {
  activeSessions : gmap string nat;
  sessionKeyMap : gmap string string;
  heap : gmap nat VoiceStreamingSession;
  nextRef : nat;
  sockets : gmap nat Socket;
  nextSocket : nat;
  listeners : list ClientListener;
  trace : list Event
}.

Definition emptyWorld : World :=
  mkWorld ∅ ∅ ∅ 0%nat ∅ 0%nat [] [].

(** ** The monad of handlers: state and exceptions *)

Inductive Result (A : Type) : Type :=
| Ok (a : A)
| Throw (e : Exn).
Arguments Ok {A} a.
Arguments Throw {A} e.

Definition M (A : Type) : Type := World → Result A * World.

Definition ret {A} (a : A) : M A := λ w, (Ok a, w).

Definition bind {A B} (m : M A) (f : A → M B) : M B :=
  λ w, match m w with
       | (Ok a, w') => f a w'
       | (Throw e, w') => (Throw e, w')
       end.

Definition throw {A} (e : Exn) : M A := λ w, (Throw e, w).

(** [try { m } catch (error) { h error }]. *)
Definition try_catch {A} (m : M A) (h : Exn → M A) : M A :=
  λ w, match m w with
       | (Ok a, w') => (Ok a, w')
       | (Throw e, w') => h e w'
       end.

(** [await call] for a call whose outcome is [o]. *)
Definition await {A} (o : Outcome A) : M A :=
  match o with
  | Returns a => ret a
  | Throws e => throw e
  end.

Definition gets {A} (f : World → A) : M A := λ w, (Ok (f w), w).
Definition modify (f : World → World) : M unit := λ w, (Ok tt, f w).

Declare Scope js_scope.
Delimit Scope js_scope with js.
Notation "'let*' x ':=' m 'in' k" := (bind m (λ x, k))
  (at level 10, x name, m at level 100, k at level 200) : js_scope.
Notation "m ';;;' k" := (bind m (λ _, k))
  (at level 100, k at level 200, right associativity) : js_scope.
Local Open Scope js_scope.

Definition exec {A} (m : M A) (w : World) : World := snd (m w).
Definition result {A} (m : M A) (w : World) : Result A := fst (m w).

(** *** Field updates of the world *)

Definition setActiveSessions (f : gmap string nat → gmap string nat) (w : World) : World :=
  mkWorld (f (activeSessions w)) (sessionKeyMap w) (heap w) (nextRef w)
          (sockets w) (nextSocket w) (listeners w) (trace w).

Definition setSessionKeyMap (f : gmap string string → gmap string string) (w : World) : World :=
  mkWorld (activeSessions w) (f (sessionKeyMap w)) (heap w) (nextRef w)
          (sockets w) (nextSocket w) (listeners w) (trace w).

Definition setHeap (f : gmap nat VoiceStreamingSession → gmap nat VoiceStreamingSession)
    (w : World) : World :=
  mkWorld (activeSessions w) (sessionKeyMap w) (f (heap w)) (nextRef w)
          (sockets w) (nextSocket w) (listeners w) (trace w).

Definition setSockets (f : gmap nat Socket → gmap nat Socket) (w : World) : World :=
  mkWorld (activeSessions w) (sessionKeyMap w) (heap w) (nextRef w)
          (f (sockets w)) (nextSocket w) (listeners w) (trace w).

Definition addEvent (e : Event) (w : World) : World :=
  mkWorld (activeSessions w) (sessionKeyMap w) (heap w) (nextRef w)
          (sockets w) (nextSocket w) (listeners w) (trace w ++ [e]).

Definition emit (e : Event) : M unit := modify (addEvent e).

(** [{ ... }] object literal for a new session: a fresh heap cell. *)
Definition newSession (s : VoiceStreamingSession) : M nat :=
  λ w, (Ok (nextRef w),
        mkWorld (activeSessions w) (sessionKeyMap w) (<[nextRef w := s]> (heap w))
                (S (nextRef w)) (sockets w) (nextSocket w) (listeners w) (trace w)).

(** [new WebSocket(url)]: a socket in state CONNECTING. *)
Definition newWebSocket (client vs : nat) : M nat :=
  λ w, (Ok (nextSocket w),
        mkWorld (activeSessions w) (sessionKeyMap w) (heap w) (nextRef w)
                (<[nextSocket w := mkSocket CONNECTING client vs]> (sockets w))
                (S (nextSocket w)) (listeners w) (trace w)).

Definition addListener (l : ClientListener) : M unit :=
  modify (λ w, mkWorld (activeSessions w) (sessionKeyMap w) (heap w) (nextRef w)
                       (sockets w) (nextSocket w) (listeners w ++ [l]) (trace w)).

(** [ws.readyState]. *)
Definition readyStateOf (w : World) (ws : nat) : ReadyState :=
  match sockets w !! ws with
  | Some s => readyState s
  | None => CLOSED
  end.

Definition withReadyState (ws : nat) (r : ReadyState) (w : World) : World :=
  setSockets (λ m, match m !! ws with
                   | Some s => <[ws := mkSocket r (wsClient s) (wsSession s)]> m
                   | None => m
                   end) w.

Definition setReadyState (ws : nat) (r : ReadyState) : M unit :=
  modify (withReadyState ws r).

(** [ws.close()]: a call on the socket of the [ws] library, which leaves
    CONNECTING and OPEN for CLOSING. *)
Definition closing (ws : nat) (w : World) : World :=
  match readyStateOf w ws with
  | CONNECTING | OPEN => withReadyState ws CLOSING w
  | CLOSING | CLOSED => w
  end.

Definition wsClose (ws : nat) : M unit :=
  emit (TtsClose ws);;; modify (closing ws).

(** [clientWs.send(JSON.stringify(msg))]. *)
Definition clientSend (client : nat) (msg : JValue) : M unit :=
  emit (ClientSend client msg).

(** [obj.field] on a session object.  A reference made by [newSession]
    stays in the heap; the other case is there to make the read total. *)
Definition field {A} (f : VoiceStreamingSession → A) (vs : nat) : M A :=
  λ w, match heap w !! vs with
       | Some s => (Ok (f s), w)
       | None => (Throw (TypeError "dangling session reference"), w)
       end.

(** [obj.field = value] on a session object. *)
Definition updated (f : VoiceStreamingSession → VoiceStreamingSession) (vs : nat)
    (w : World) : World :=
  setHeap (λ h, match h !! vs with
                | Some s => <[vs := f s]> h
                | None => h
                end) w.

Definition update (f : VoiceStreamingSession → VoiceStreamingSession) (vs : nat) : M unit :=
  modify (updated f vs).

(** [value.name] on a parsed value: a TypeError on [null] and [undefined]. *)
Definition get (v : JValue) (name : string) : M JValue :=
  match v with
  | JNull | JUndefined => throw (TypeError "Cannot read properties of null")
  | _ => ret (opt_get v name)
  end.

(** [JSON.parse(data.toString())]; [None] is a text that does not parse. *)
Definition JSON_parse (data : option JValue) : M JValue :=
  match data with
  | Some v => ret v
  | None => throw (SyntaxError "Unexpected token in JSON")
  end.

(** [process.env.NAME || fallback]. *)
Definition env_or (v : option string) (fallback : string) : string :=
  match v with
  | Some s => if String.eqb s EmptyString then fallback else s
  | None => fallback
  end.

(** [Math.ceil(a / b)] for integers [a] and [b > 0] whose quotient is
    far below 2^53, where the floating-point quotient of two integers
    lies strictly between the same two integers as the exact one. *)
Definition Math_ceil_div (a b : Z) : Z := - ((- a) / b).

(** ** What the collaborators answer *)

(** [cleanupSession]: the clock and the quota module. *)
Record CleanupEnv : Type := mkCleanupEnv {
  ceNow : Z;
  ceIncrementVoiceMinutes : Outcome unit
}.

(** What an invocation of [cleanupSession] holds while it waits at an
    [await]: its argument, the session object it found and the minutes
    it computed. *)
Record Teardown : Type := mkTeardown {
  tdStream : string;
  tdSession : nat;
  tdMinutes : Z
}.

(** Where an invocation of [cleanupSession] is. *)
Inductive Invocation : Type :=
| AtImport (td : Teardown)
| AtQuota (td : Teardown)
| Settled.

Inductive Turn : Type :=
| Call (streamSessionId : string) (now : Z)
| Resume (i : nat) (settled : Outcome unit).

(** [routeToN8NWebhook]: the session lookup, the clock, the endpoint,
    and the audit store at its two inserts, the one of the success
    record in the [try] block and the one of the error record in the
    [catch] block. *)
Record RouterEnv : Type := mkRouterEnv {
  reGetSession : Outcome JValue;
  reNow : Z;
  rePost : Outcome JValue;
  reCreateWebhookLog : Outcome unit;
  reCreateErrorLog : Outcome unit
}.

(** A client message: the transcription provider ([response.text]) and
    the router's collaborators. *)
Record MessageEnv : Type := mkMessageEnv {
  meGenerateContent : Outcome (option string);
  meRouter : RouterEnv
}.

(** [cacheAudioOutput]: the token generator and the cache store. *)
Record CacheEnv : Type := mkCacheEnv {
  aeToken : Outcome string;
  aeCreateAudioCache : Outcome unit
}.

(** [initializeVoiceSession]: the two clock readings, the socket
    constructor, and what teardown needs if set-up fails. *)
Record InitEnv : Type := mkInitEnv {
  ieNowId : Z;
  ieNowStart : Z;
  ieNewWebSocket : Outcome unit;
  ieCleanup : CleanupEnv
}.

(** ** The service *)

Section Service.

(** [process.env.N8N_WEBHOOK_URL] and [process.env.ELEVENLABS_API_KEY]. *)
Variable N8N_WEBHOOK_URL : option string.
Variable ELEVENLABS_API_KEY : option string.

(** [audioBuffer.toString('base64')] for
    [audioBuffer = Buffer.from(audioData, 'base64')], a function of the
    Node library. *)
Variable Buffer_from_base64 : JValue → Outcome string.

(** *** config/webhooks.ts *)

Definition UNIFIED_WEBHOOK_URL : string :=
  env_or N8N_WEBHOOK_URL "https://autism.app.n8n.cloud/webhook/autism-gold".

Definition getWebhookUrl (personality modality : string) : string :=
  UNIFIED_WEBHOOK_URL.

(** *** services/voiceStreaming.ts *)

(** Template literal [`${sessionId}-voice-${Date.now()}`]. *)
Definition streamSessionIdOf (sessionId : string) (now : Z) : string :=
  sessionId +:+ "-voice-" +:+ pretty now.

(** [cleanupSession] is [async] and has two [await]s, the dynamic
    [import] and the call of [incrementVoiceMinutes]; both of its callers
    drop the promise.  It is given in the three parts that run without
    interruption.  Between two parts the invocation waits, with what it
    closes over in a [Teardown]. *)

(** From the call to the first [await]: the registry is read, the
    session is marked inactive, the minutes are computed. *)
Definition cleanupSession_enter (streamSessionId : string) (now : Z) : M (option Teardown) :=
  let* session := gets (λ w, activeSessions w !! streamSessionId) in
  match session with
  | None => ret None
  | Some session =>
      update (withIsActive false) session;;;
      let endTime := now in
      let* start := field startTime session in
      let durationMs := endTime - start in
      let durationMinutes := Math_ceil_div durationMs (60 * 1000) in
      ret (Some (mkTeardown streamSessionId session durationMinutes))
  end.

(** From the first [await] to the second: [incrementVoiceMinutes] is
    called. *)
Definition cleanupSession_report (td : Teardown) : M unit :=
  try_catch
    (let* sid := field sessionId (tdSession td) in
     emit (IncrementVoiceMinutes sid (tdMinutes td)))
    (λ _, ret tt).

(** After the second [await], whose promise has settled as [settled]:
    the link is closed and the two entries are deleted. *)
Definition cleanupSession_leave (td : Teardown) (settled : Outcome unit) : M unit :=
  try_catch (await settled) (λ _, ret tt);;;
  let* ws := field elevenLabsWs (tdSession td) in
  match ws with
  | Some ws => wsClose ws
  | None => ret tt
  end;;;
  modify (setActiveSessions (delete (tdStream td)));;;
  let* sid := field sessionId (tdSession td) in
  modify (setSessionKeyMap (delete sid)).

(** One invocation with nothing run between its parts. *)
Definition cleanupSession (streamSessionId : string) (ce : CleanupEnv) : M unit :=
  let* td := cleanupSession_enter streamSessionId (ceNow ce) in
  match td with
  | None => ret tt
  | Some td =>
      cleanupSession_report td;;;
      cleanupSession_leave td (ceIncrementVoiceMinutes ce)
  end.

(** Invocations that overlap.  [Call] starts one and runs it to its
    first [await], as a caller that drops the promise sees it return;
    [Resume i settled] lets invocation [i] run from the [await] it waits
    at to the next one, the awaited promise having settled as [settled]
    (the [import] always returns). *)
Definition turn (t : Turn) (inflight : list Invocation) : M (list Invocation) :=
  match t with
  | Call streamSessionId now =>
      let* td := cleanupSession_enter streamSessionId now in
      ret (inflight ++ [match td with Some td => AtImport td | None => Settled end])
  | Resume i settled =>
      match inflight !! i with
      | Some (AtImport td) =>
          cleanupSession_report td;;; ret (<[i := AtQuota td]> inflight)
      | Some (AtQuota td) =>
          cleanupSession_leave td settled;;; ret (<[i := Settled]> inflight)
      | Some Settled | None => ret inflight
      end
  end.

Fixpoint schedule (turns : list Turn) (inflight : list Invocation) : M (list Invocation) :=
  match turns with
  | [] => ret inflight
  | t :: turns => let* inflight := turn t inflight in schedule turns inflight
  end.

Definition bosMessage : JValue :=
  JObj [("text", JStr " ");
        ("voice_settings",
         JObj [("stability", JNum (1 # 2));
               ("similarity_boost", JNum (4 # 5));
               ("speed", JInt 1)]);
        ("generation_config",
         JObj [("chunk_length_schedule",
                JArr [JInt 120; JInt 160; JInt 250; JInt 290])]);
        ("xi_api_key",
         match ELEVENLABS_API_KEY with Some k => JStr k | None => JUndefined end)].

Definition initializeElevenLabs (clientWs voiceSession : nat) (personality : string)
    (ctor : Outcome unit) : M unit :=
  await ctor;;;
  let* elevenLabsWs := newWebSocket clientWs voiceSession in
  update (withElevenLabsWs elevenLabsWs) voiceSession.

(** [elevenLabsWs.on('open', ...)]. *)
Definition onElevenLabsOpen (elevenLabsWs : nat) : M unit :=
  emit (TtsSend elevenLabsWs bosMessage).

Definition cacheAudioOutput (sessionId conversationId : string) (audioBase64 : JValue)
    (ae : CacheEnv) : M unit :=
  try_catch
    (let* secureToken := await (aeToken ae) in
     let audioUrl := "/api/audio/" +:+ secureToken in
     emit (CreateAudioCache
             (JObj [("sessionId", JStr sessionId);
                    ("conversationId", JStr conversationId);
                    ("audioUrl", JStr audioUrl);
                    ("secureToken", JStr secureToken);
                    ("text", JStr "Voice conversation audio");
                    ("voiceSettings",
                     JObj [("provider", JStr "elevenlabs");
                           ("model", JStr "eleven_turbo_v2_5")])]));;;
     await (aeCreateAudioCache ae))
    (λ _, ret tt).

(** [elevenLabsWs.on('message', ...)]. *)
Definition onElevenLabsMessage (clientWs voiceSession : nat) (data : option JValue)
    (ae : CacheEnv) : M unit :=
  try_catch
    (let* response := JSON_parse data in
     let* audio := get response "audio" in
     if truthy audio then
       clientSend clientWs
         (JObj [("type", JStr "audio_output");
                ("audio", audio);
                ("alignment", opt_get response "alignment")]);;;
       if truthy (opt_get response "isFinal") then
         let* sid := field sessionId voiceSession in
         let* cid := field conversationId voiceSession in
         cacheAudioOutput sid cid audio ae
       else ret tt
     else ret tt)
    (λ _, ret tt).

(** [elevenLabsWs.on('error', ...)]. *)
Definition onElevenLabsError (clientWs : nat) : M unit :=
  clientSend clientWs
    (JObj [("type", JStr "error"); ("message", JStr "TTS connection error")]).

Definition initializeGeminiLive (clientWs voiceSession : nat) (personality : string) : M unit :=
  try_catch
    (clientSend clientWs
       (JObj [("type", JStr "voice_ready"); ("message", JStr "Voice streaming ready")]))
    (λ error, throw error).

Definition transcribeAudio (audioData : JValue) (generateContent : Outcome (option string))
    : M string :=
  try_catch
    (let* audio := await (Buffer_from_base64 audioData) in
     emit (GenerateContent audio);;;
     let* text := await generateContent in
     let transcription := trim <$> text in
     match transcription with
     | Some t =>
         if Nat.eqb (String.length t) 0 then
           throw (Error "Gemini returned no transcription - audio may be empty or unclear")
         else ret t
     | None =>
         throw (Error "Gemini returned no transcription - audio may be empty or unclear")
     end)
    (λ _, throw (Error "Failed to transcribe audio")).

Definition routeToN8NWebhook (text : JValue) (voiceSession : nat) (personality : string)
    (re : RouterEnv) : M JValue :=
  let webhookUrl := getWebhookUrl personality "VOICE" in
  let* sid := field sessionId voiceSession in
  let* cid := field conversationId voiceSession in
  try_catch
    (emit (GetSession sid);;;
     let* session := await (reGetSession re) in
     let webhookPayload :=
       JObj [("personality", JStr personality);
             ("modality", JStr "VOICE");
             ("sessionId", JStr sid);
             ("conversationId", JStr cid);
             ("content", text);
             ("metadata",
              JObj [("tier", jor (opt_get session "tier") (JStr "Free Trial"));
                    ("tokenBalance", jor (opt_get session "tokenBalance") (JInt 0));
                    ("walletAddress", opt_get session "walletAddress");
                    ("timestamp", JInt (reNow re))])] in
     emit (AxiosPost webhookUrl webhookPayload);;;
     let* data := await (rePost re) in
     emit (CreateWebhookLog
             (JObj [("sessionId", JStr sid);
                    ("conversationId", JStr cid);
                    ("requestData",
                     JObj [("personality", JStr personality);
                           ("modality", JStr "VOICE");
                           ("content", text)]);
                    ("responseData",
                     JObj [("status", JStr "sent"); ("webhookUrl", JStr webhookUrl)]);
                    ("status", JStr "success")]));;;
     await (reCreateWebhookLog re);;;
     ret data)
    (λ error,
     emit (CreateWebhookLog
             (JObj [("sessionId", JStr sid);
                    ("conversationId", JStr cid);
                    ("requestData",
                     JObj [("personality", JStr personality);
                           ("modality", JStr "VOICE");
                           ("content", text)]);
                    ("responseData", JObj [("error", JStr (exnToString error))]);
                    ("status", JStr "error")]));;;
     await (reCreateErrorLog re);;;
     throw error).

Definition processTextInput (text : JValue) (voiceSession : nat) : M unit :=
  let* ws := field elevenLabsWs voiceSession in
  match ws with
  | None => ret tt
  | Some ws =>
      let* state := gets (λ w, readyStateOf w ws) in
      if negb (isOpen state) then ret tt
      else emit (TtsSend ws (JObj [("text", text); ("try_trigger_generation", JBool true)]))
  end.

Definition handleStopSpeaking (voiceSession : nat) : M unit :=
  let* ws := field elevenLabsWs voiceSession in
  match ws with
  | None => ret tt
  | Some ws =>
      let* state := gets (λ w, readyStateOf w ws) in
      if negb (isOpen state) then ret tt
      else emit (TtsSend ws (JObj [("text", JStr EmptyString); ("flush", JBool true)]))
  end.

Definition processAudioInput (audioData : JValue) (voiceSession clientWs : nat)
    (me : MessageEnv) : M unit :=
  try_catch
    (clientSend clientWs
       (JObj [("type", JStr "audio_processing");
              ("message", JStr "Processing your speech...")]);;;
     let* transcribedText := transcribeAudio audioData (meGenerateContent me) in
     if Nat.eqb (String.length transcribedText) 0
        || Nat.eqb (String.length (trim transcribedText)) 0
     then ret tt
     else
       clientSend clientWs
         (JObj [("type", JStr "transcript"); ("text", JStr transcribedText)]);;;
       let* personality := field personality voiceSession in
       let* webhookResponse :=
         routeToN8NWebhook (JStr transcribedText) voiceSession personality (meRouter me) in
       let responseText :=
         jor (jor (opt_get webhookResponse "response") (opt_get webhookResponse "text"))
             (JStr transcribedText) in
       clientSend clientWs
         (JObj [("type", JStr "ai_response"); ("text", responseText)]);;;
       processTextInput responseText voiceSession)
    (λ _,
     clientSend clientWs
       (JObj [("type", JStr "error"); ("message", JStr "Failed to process audio")])).

(** [clientWs.on('message', ...)] of [setupClientHandlers]. *)
Definition onClientMessage (clientWs voiceSession : nat) (streamSessionId : string)
    (data : option JValue) (me : MessageEnv) : M unit :=
  try_catch
    (let* message := JSON_parse data in
     let* type := get message "type" in
     match type with
     | JStr type =>
         if String.eqb type "audio_input" then
           processAudioInput (opt_get message "audio") voiceSession clientWs me
         else if String.eqb type "text_input" then
           let* personality := field personality voiceSession in
           let* webhookResponse :=
             routeToN8NWebhook (opt_get message "text") voiceSession personality
                               (meRouter me) in
           let responseText :=
             jor (jor (opt_get webhookResponse "response") (opt_get webhookResponse "text"))
                 (opt_get message "text") in
           processTextInput responseText voiceSession
         else if String.eqb type "stop" then
           handleStopSpeaking voiceSession
         else ret tt
     | _ => ret tt
     end)
    (λ _, ret tt).

(** [clientWs.on('close', ...)] of [setupClientHandlers]. *)
Definition onClientClose (streamSessionId : string) (ce : CleanupEnv) : M unit :=
  cleanupSession streamSessionId ce.

Definition setupClientHandlers (clientWs voiceSession : nat) (streamSessionId : string)
    : M unit :=
  addListener (mkListener clientWs voiceSession streamSessionId).

Definition initializeVoiceSession (clientWs : nat) (sessionId conversationId personality : string)
    (ie : InitEnv) : M unit :=
  let streamSessionId := streamSessionIdOf sessionId (ieNowId ie) in
  let* voiceSession :=
    newSession (mkSession sessionId conversationId personality None true (ieNowStart ie)) in
  modify (setActiveSessions (<[streamSessionId := voiceSession]>));;;
  modify (setSessionKeyMap (<[sessionId := streamSessionId]>));;;
  try_catch
    (initializeElevenLabs clientWs voiceSession personality (ieNewWebSocket ie);;;
     initializeGeminiLive clientWs voiceSession personality;;;
     setupClientHandlers clientWs voiceSession streamSessionId)
    (λ _,
     clientSend clientWs
       (JObj [("type", JStr "error");
              ("message", JStr "Failed to initialize voice streaming")]);;;
     cleanupSession streamSessionId (ieCleanup ie)).

(** *** The event loop

    What reaches the service: a session request, and the events of the
    sockets, delivered to the listeners registered on them. *)

Inductive Input : Type :=
| Initialize (clientWs : nat) (sessionId conversationId personality : string) (ie : InitEnv)
| ClientMessage (listener : nat) (data : option JValue) (me : MessageEnv)
| ClientClose (listener : nat) (ce : CleanupEnv)
| ElevenLabsOpen (ws : nat)
| ElevenLabsMessage (ws : nat) (data : option JValue) (ae : CacheEnv)
| ElevenLabsError (ws : nat)
| ElevenLabsClosed (ws : nat).

Definition dispatch (i : Input) : M unit :=
  match i with
  | Initialize clientWs sid cid p ie => initializeVoiceSession clientWs sid cid p ie
  | ClientMessage l data me =>
      let* h := gets (λ w, listeners w !! l) in
      match h with
      | Some h => onClientMessage (lClient h) (lSession h) (lStream h) data me
      | None => ret tt
      end
  | ClientClose l ce =>
      let* h := gets (λ w, listeners w !! l) in
      match h with
      | Some h => onClientClose (lStream h) ce
      | None => ret tt
      end
  | ElevenLabsOpen ws =>
      let* state := gets (λ w, readyStateOf w ws) in
      match state with
      | CONNECTING => setReadyState ws OPEN;;; onElevenLabsOpen ws
      | _ => ret tt
      end
  | ElevenLabsMessage ws data ae =>
      let* s := gets (λ w, sockets w !! ws) in
      match s with
      | Some s => onElevenLabsMessage (wsClient s) (wsSession s) data ae
      | None => ret tt
      end
  | ElevenLabsError ws =>
      let* s := gets (λ w, sockets w !! ws) in
      match s with
      | Some s => onElevenLabsError (wsClient s)
      | None => ret tt
      end
  | ElevenLabsClosed ws => setReadyState ws CLOSED
  end.

Definition step (w : World) (i : Input) : World := exec (dispatch i) w.

Definition run (w : World) (inputs : list Input) : World := fold_left step inputs w.

End Service.

Arguments streamSessionIdOf : simpl never.
Arguments Math_ceil_div : simpl never.

(** ** Reading the trace *)

Definition isUsageReport (e : Event) : bool :=
  match e with IncrementVoiceMinutes _ _ => true | _ => false end.

Definition isLinkClose (e : Event) : bool :=
  match e with TtsClose _ => true | _ => false end.

Definition count (p : Event → bool) (t : list Event) : nat := length (List.filter p t).

(** The events a computation added to the trace. *)
Definition newEvents (w w' : World) : list Event := drop (length (trace w)) (trace w').

(** Everything but the trace is the same. *)
Definition sameState (w w' : World) : Prop :=
  activeSessions w' = activeSessions w ∧ sessionKeyMap w' = sessionKeyMap w ∧
  heap w' = heap w ∧ nextRef w' = nextRef w ∧ sockets w' = sockets w ∧
  nextSocket w' = nextSocket w ∧ listeners w' = listeners w.

(** The link of a session after teardown. *)
Definition closeLink (link : option nat) (w : World) : World :=
  match link with
  | Some ws => closing ws (addEvent (TtsClose ws) w)
  | None => w
  end.

(** ** A concrete deployment

    One client (socket 7) of session ["s"] with personality
    ["Savantist"], set up at time 1000, its synthesis link opened. *)

Definition sampleBuffer (v : JValue) : Outcome string :=
  match v with
  | JStr s => Returns s
  | _ => Throws (TypeError "The first argument must be of type string")
  end.

Definition sampleCleanup (now : Z) : CleanupEnv := mkCleanupEnv now (Returns tt).

Definition sampleInit (now : Z) : InitEnv :=
  mkInitEnv now now (Returns tt) (sampleCleanup now).

Definition sampleSession : VoiceStreamingSession :=
  mkSession "s" "c" "Savantist" (Some 0%nat) true 1000.

Definition sampleRun (inputs : list Input) : World :=
  run None None sampleBuffer emptyWorld inputs.

Definition sampleStep (w : World) (i : Input) : World :=
  step None None sampleBuffer w i.

Definition sampleWorld : World :=
  sampleRun [Initialize 7 "s" "c" "Savantist" (sampleInit 1000); ElevenLabsOpen 0].

(** One client whose synthesis link is still connecting. *)
Definition sampleConnecting : World :=
  sampleRun [Initialize 7 "s" "c" "Savantist" (sampleInit 1000)].

Definition sampleRouter (reply : JValue) : RouterEnv :=
  mkRouterEnv (Returns JUndefined) 2000 (Returns reply) (Returns tt) (Returns tt).

Definition sampleMessage (reply : JValue) : MessageEnv :=
  mkMessageEnv (Returns (Some "hello there")) (sampleRouter reply).

(** The audit log records among some events. *)
Definition auditRecords (t : list Event) : list JValue :=
  omap (λ e, match e with CreateWebhookLog r => Some r | _ => None end) t.

(** The payload, and the two audit records, of a router call. *)
Definition webhookPayloadOf (s : VoiceStreamingSession) (personality : string)
    (text session : JValue) (now : Z) : JValue :=
  JObj [("personality", JStr personality);
        ("modality", JStr "VOICE");
        ("sessionId", JStr (sessionId s));
        ("conversationId", JStr (conversationId s));
        ("content", text);
        ("metadata",
         JObj [("tier", jor (opt_get session "tier") (JStr "Free Trial"));
               ("tokenBalance", jor (opt_get session "tokenBalance") (JInt 0));
               ("walletAddress", opt_get session "walletAddress");
               ("timestamp", JInt now)])].

Definition successRecordOf (s : VoiceStreamingSession) (personality : string)
    (text : JValue) (url : string) : JValue :=
  JObj [("sessionId", JStr (sessionId s));
        ("conversationId", JStr (conversationId s));
        ("requestData",
         JObj [("personality", JStr personality);
               ("modality", JStr "VOICE");
               ("content", text)]);
        ("responseData", JObj [("status", JStr "sent"); ("webhookUrl", JStr url)]);
        ("status", JStr "success")].

Definition errorRecordOf (s : VoiceStreamingSession) (personality : string)
    (text : JValue) (error : Exn) : JValue :=
  JObj [("sessionId", JStr (sessionId s));
        ("conversationId", JStr (conversationId s));
        ("requestData",
         JObj [("personality", JStr personality);
               ("modality", JStr "VOICE");
               ("content", text)]);
        ("responseData", JObj [("error", JStr (exnToString error))]);
        ("status", JStr "error")].

(** The world with some events appended to the trace. *)
Definition addEvents (evs : list Event) (w : World) : World :=
  mkWorld (activeSessions w) (sessionKeyMap w) (heap w) (nextRef w)
          (sockets w) (nextSocket w) (listeners w) (trace w ++ evs).

(** Empty or white space only, in the words of the specification. *)
Fixpoint whitespaceOnly (s : string) : bool :=
  match s with
  | EmptyString => true
  | String c1 s1 =>
      if is_ws1 c1 then whitespaceOnly s1
      else match s1 with
           | EmptyString => false
           | String c2 s2 =>
               if is_ws2 c1 c2 then whitespaceOnly s2
               else match s2 with
                    | EmptyString => false
                    | String c3 s3 => is_ws3 c1 c2 c3 && whitespaceOnly s3
                    end
           end
  end.

(** The messages sent to clients among some events. *)
Definition clientMessages (t : list Event) : list JValue :=
  omap (λ e, match e with ClientSend _ m => Some m | _ => None end) t.

Definition audioProcessingMsg : JValue :=
  JObj [("type", JStr "audio_processing"); ("message", JStr "Processing your speech...")].

Definition audioErrorMsg : JValue :=
  JObj [("type", JStr "error"); ("message", JStr "Failed to process audio")].

(** Whether the two awaited calls of the router both return. *)
Definition routerReturns (re : RouterEnv) : bool :=
  match reGetSession re, rePost re with
  | Returns _, Returns _ => true
  | _, _ => false
  end.

(** The audit store accepts the insert the router makes: the one of
    the success record when the lookup and the POST return, the one of
    the error record otherwise. *)
Definition auditAccepted (re : RouterEnv) : bool :=
  match reGetSession re, rePost re with
  | Returns _, Returns _ =>
      match reCreateWebhookLog re with Returns _ => true | Throws _ => false end
  | _, _ =>
      match reCreateErrorLog re with Returns _ => true | Throws _ => false end
  end.

(** What the [catch] block of the router raises for the error it
    caught: that error, unless the insert of the error record fails
    with one of its own. *)
Definition rethrown (re : RouterEnv) (error : Exn) : Exn :=
  match reCreateErrorLog re with
  | Returns _ => error
  | Throws e => e
  end.

(** A router whose endpoint answers [reply] and whose audit store
    rejects the insert of the success record. *)
Definition rejectingAudit (reply : JValue) : RouterEnv :=
  mkRouterEnv (Returns JUndefined) 2000 (Returns reply)
              (Throws (Error "insert failed")) (Returns tt).

(** A router whose endpoint is unreachable. *)
Definition failingMessage : MessageEnv :=
  mkMessageEnv (Returns (Some "hello there"))
               (mkRouterEnv (Returns JUndefined) 2000 (Throws (Error "Network Error"))
                  (Returns tt) (Returns tt)).

Definition textInput (text : string) : option JValue :=
  Some (JObj [("type", JStr "text_input"); ("text", JStr text)]).

Definition audioInputMsg (audio : string) : option JValue :=
  Some (JObj [("type", JStr "audio_input"); ("audio", JStr audio)]).

(** The [sessionId] an event is filed under, for the events that have
    one: usage reports, audit records and audio-cache entries. *)
Definition eventSessionId (e : Event) : option JValue :=
  match e with
  | IncrementVoiceMinutes sid _ => Some (JStr sid)
  | CreateWebhookLog r | CreateAudioCache r => Some (opt_get r "sessionId")
  | _ => None
  end.

(** Every such event among [evs] is filed under [sid]. *)
Definition filedUnder (sid : string) (e : Event) : Prop :=
  ∀ x, eventSessionId e = Some x → x = JStr sid.

(** The session object an input works on: the one its listener closes
    over, the one the registry gives to teardown, the one being made. *)
Definition actsOn (w : World) (i : Input) : option nat :=
  match i with
  | Initialize _ _ _ _ _ => Some (nextRef w)
  | ClientMessage l _ _ => lSession <$> listeners w !! l
  | ClientClose l _ => h ← listeners w !! l; activeSessions w !! lStream h
  | ElevenLabsMessage ws _ _ => wsSession <$> sockets w !! ws
  | ElevenLabsOpen _ | ElevenLabsError _ | ElevenLabsClosed _ => None
  end.

(** The session object [vs] exists and carries [sid]. *)
Definition owned (vs : nat) (sid : string) (w : World) : Prop :=
  (vs < nextRef w)%nat ∧ ∃ s, heap w !! vs = Some s ∧ sessionId s = sid.

(** [m] keeps [owned vs sid], only appends to the trace, and appends only
    events that satisfy [E]. *)
Definition keeps {A} (vs : nat) (sid : string) (E : Event → Prop) (m : M A) : Prop :=
  ∀ w, owned vs sid w →
       owned vs sid (exec m w) ∧
       ∃ evs, trace (exec m w) = trace w ++ evs ∧ Forall E evs.

Definition anyEvent (e : Event) : Prop := True.

(** Two overlapping streams of one session, the older one closed. *)
Definition overlappingRun : World :=
  sampleRun [Initialize 7 "s" "c" "Savantist" (sampleInit 1000);
             Initialize 8 "s" "c" "Savantist" (sampleInit 2000);
             ClientClose 0 (sampleCleanup 3000)].

(** ** Further observations *)

(** [m] changes nothing but the trace, to which it only appends. *)
Definition quiet {A} (m : M A) : Prop := ∀ w, ∃ evs, exec m w = addEvents evs w.

(** Whether a client message has one of the three kinds the listener
    handles. *)
Definition recognizedKind (data : option JValue) : bool :=
  match data with
  | Some (JObj fields) =>
      match assoc "type" fields with
      | JStr t => String.eqb t "audio_input" || String.eqb t "text_input" || String.eqb t "stop"
      | _ => false
      end
  | _ => false
  end.

(** The open synthesis link of a session, if it has one. *)
Definition openLink (w : World) (s : VoiceStreamingSession) : option nat :=
  match elevenLabsWs s with
  | Some ws => if isOpen (readyStateOf w ws) then Some ws else None
  | None => None
  end.

(** The frame that carries a reply to the synthesis link. *)
Definition textFrame (text : JValue) : JValue :=
  JObj [("text", text); ("try_trigger_generation", JBool true)].

(** The reply text chosen from a webhook response. *)
Definition replyText (reply fallback : JValue) : JValue :=
  jor (jor (opt_get reply "response") (opt_get reply "text")) fallback.

(** Inputs that create or tear down a session. *)
Definition isLifecycle (i : Input) : bool :=
  match i with
  | Initialize _ _ _ _ _ | ClientClose _ _ => true
  | _ => false
  end.

(** The message that forwards an audio fragment to the client. *)
Definition audioOutputMsg (response : JValue) : JValue :=
  JObj [("type", JStr "audio_output");
        ("audio", opt_get response "audio");
        ("alignment", opt_get response "alignment")].

(** The cache record of a final audio fragment. *)
Definition audioCacheRecordOf (s : VoiceStreamingSession) (secureToken : string) : JValue :=
  JObj [("sessionId", JStr (sessionId s));
        ("conversationId", JStr (conversationId s));
        ("audioUrl", JStr ("/api/audio/" +:+ secureToken));
        ("secureToken", JStr secureToken);
        ("text", JStr "Voice conversation audio");
        ("voiceSettings",
         JObj [("provider", JStr "elevenlabs"); ("model", JStr "eleven_turbo_v2_5")])].

Definition voiceReadyMsg : JValue :=
  JObj [("type", JStr "voice_ready"); ("message", JStr "Voice streaming ready")].

Definition initErrorMsg : JValue :=
  JObj [("type", JStr "error"); ("message", JStr "Failed to initialize voice streaming")].

Definition transcriptMsg (text : string) : JValue :=
  JObj [("type", JStr "transcript"); ("text", JStr text)].

Definition aiResponseMsg (text : JValue) : JValue :=
  JObj [("type", JStr "ai_response"); ("text", text)].

(** The usage reports among some events. *)
Definition usageReports (t : list Event) : list (string * Z) :=
  omap (λ e, match e with IncrementVoiceMinutes sid m => Some (sid, m) | _ => None end) t.

(** No character of the string is a dash. *)
Fixpoint noDash (s : string) : bool :=
  match s with
  | EmptyString => true
  | String c s' => negb (Ascii.eqb c "-") && noDash s'
  end.

(** The string is not empty and only its first character may be a
    dash: the shape of an integer in decimal. *)
Definition dashOnlyFirst (s : string) : bool :=
  match s with
  | EmptyString => false
  | String _ s' => noDash s'
  end.

(** What holds of the state in every world the service can reach: the
    registry and the listeners refer to session objects that exist, a
    stream is registered under its own session's identifier, the
    secondary index points into the registry, and a synthesis link
    belongs to the session that holds it. *)
Record consistent (w : World) : Prop := mkConsistent {
  registered_live : ∀ k vs, activeSessions w !! k = Some vs →
    ∃ s t, heap w !! vs = Some s ∧ k = streamSessionIdOf (sessionId s) t;
  index_registered : ∀ sid k, sessionKeyMap w !! sid = Some k →
    ∃ vs s, activeSessions w !! k = Some vs ∧ heap w !! vs = Some s ∧ sessionId s = sid;
  heap_bound : ∀ vs s, heap w !! vs = Some s → (vs < nextRef w)%nat;
  link_owned : ∀ vs s ws, heap w !! vs = Some s → elevenLabsWs s = Some ws →
    ∃ so, sockets w !! ws = Some so ∧ wsSession so = vs;
  socket_bound : ∀ ws so, sockets w !! ws = Some so → (ws < nextSocket w)%nat;
  listener_live : ∀ l h, listeners w !! l = Some h → is_Some (heap w !! lSession h)
}.

(** The fields of a session that are given at set-up. *)
Definition sameIdentity (s s' : VoiceStreamingSession) : Prop :=
  sessionId s' = sessionId s ∧ conversationId s' = conversationId s ∧
  personality s' = personality s ∧ startTime s' = startTime s.

(** A webhook payload, or an audit record, made for the session with
    these identifiers and this personality. *)
Definition routedAs (sid cid p : string) (e : Event) : Prop :=
  match e with
  | AxiosPost _ payload =>
      opt_get payload "personality" = JStr p ∧
      opt_get payload "sessionId" = JStr sid ∧
      opt_get payload "conversationId" = JStr cid
  | CreateWebhookLog r =>
      opt_get (opt_get r "requestData") "personality" = JStr p ∧
      opt_get r "sessionId" = JStr sid ∧
      opt_get r "conversationId" = JStr cid
  | _ => True
  end.

(** With [s] the session object at [vs], [m] only appends events, and
    only events that satisfy [E]. *)
Definition emitsFor {A} (vs : nat) (s : VoiceStreamingSession) (E : Event → Prop)
    (m : M A) : Prop :=
  ∀ w, heap w !! vs = Some s → ∃ evs, exec m w = addEvents evs w ∧ Forall E evs.

(** A set-up whose socket constructor throws. *)
Definition failingInit (now : Z) : InitEnv :=
  mkInitEnv now now (Throws (SyntaxError "Invalid URL")) (sampleCleanup now).

Definition sampleCache : CacheEnv := mkCacheEnv (Returns "tok") (Returns tt).

Definition finalFragment : JValue :=
  JObj [("audio", JStr "UklGRg=="); ("isFinal", JBool true)].

(** ** The personality tables of the service

    [getVoiceIdForPersonality] and [getPersonalitySystemPrompt] read an
    object literal by a key that comes from outside.  An object literal
    inherits from [Object.prototype], so the read of a key that is not
    one of its own finds an inherited member when the key names one. *)

(** What a property read of an object literal of strings finds. *)
Inductive Member : Type :=
| Own (value : string)
| Inherited (name : string)
| Absent.

(** The property names of [Object.prototype]. *)
Definition objectPrototypeMembers : list string :=
  ["constructor"; "__defineGetter__"; "__defineSetter__"; "hasOwnProperty";
   "__lookupGetter__"; "__lookupSetter__"; "isPrototypeOf"; "propertyIsEnumerable";
   "toString"; "valueOf"; "__proto__"; "toLocaleString"].

Fixpoint ownProperty (key : string) (fields : list (string * string)) : option string :=
  match fields with
  | [] => None
  | (k, v) :: rest => if String.eqb k key then Some v else ownProperty key rest
  end.

(** [literal[key]]. *)
Definition readMember (fields : list (string * string)) (key : string) : Member :=
  match ownProperty key fields with
  | Some v => Own v
  | None => if existsb (String.eqb key) objectPrototypeMembers then Inherited key else Absent
  end.

(** [a || b] on what a read found: a function or object is truthy, the
    empty string and [undefined] are not. *)
Definition memberOr (a b : Member) : Member :=
  match a with
  | Own v => if String.eqb v EmptyString then b else a
  | Inherited _ => a
  | Absent => b
  end.

(** [process.env.ELEVENLABS_VOICE_AUTISTIC_AI] and its two siblings. *)
Record VoiceEnv : Type := mkVoiceEnv {
  ELEVENLABS_VOICE_AUTISTIC_AI : option string;
  ELEVENLABS_VOICE_LEVEL1_ASD : option string;
  ELEVENLABS_VOICE_SAVANTIST : option string
}.

Definition voiceMap (env : VoiceEnv) : list (string * string) :=
  [("AUtistic AI", env_or (ELEVENLABS_VOICE_AUTISTIC_AI env) "BRruTxiLM2nszrcCIpz1");
   ("Level 1 ASD", env_or (ELEVENLABS_VOICE_LEVEL1_ASD env) "g2W4HAjKvdW93AmsjsOx");
   ("Savantist", env_or (ELEVENLABS_VOICE_SAVANTIST env) "WAixHs5LYSwPVDJxQgN7")].

Definition getVoiceIdForPersonality (env : VoiceEnv) (personality : string) : Member :=
  memberOr (readMember (voiceMap env) personality) (readMember (voiceMap env) "AUtistic AI").

Definition prompts : list (string * string) :=
  [("AUtistic AI",
    "You are AUtistic AI, specialized in meme coins and creative content. Be casual, fun, and knowledgeable about crypto culture.");
   ("Level 1 ASD",
    "You are Level 1 ASD, focused on learning, facts, and solving complex problems. Be analytical and educational.");
   ("Savantist",
    "You are Savantist, the expert in advanced trading insights. Provide deep analysis with maximum detail and precision.")].

Definition getPersonalitySystemPrompt (personality : string) : Member :=
  memberOr (readMember prompts personality) (readMember prompts "AUtistic AI").

(** The three personalities the tables know. *)
Definition knownPersonality (personality : string) : bool :=
  String.eqb personality "AUtistic AI" || String.eqb personality "Level 1 ASD"
  || String.eqb personality "Savantist".

(** ** Wallet adapters

    The browser side that connects a Phantom or a Solflare wallet.
    [window] is [None] where [typeof window] is ['undefined']; its three
    fields are of type [any] and hold data, functions, or objects of
    them.  A method call on a value whose member of that name is no
    function throws a TypeError before anything is called.  For a
    provider that has the method, what [provider.connect()] followed by
    [publicKey.toString()] comes to, and what [provider.disconnect()]
    does, are arguments. *)

(** Values found on [window]. *)
Inductive BValue : Type :=
| BUndefined
| BNull
| BBool (b : bool)
| BNum (n : Z)
| BStr (s : string)
| BFun (name : string)
| BObj (fields : list (string * BValue)).

Definition btruthy (v : BValue) : bool :=
  match v with
  | BUndefined | BNull => false
  | BBool b => b
  | BNum n => negb (Z.eqb n 0)
  | BStr s => negb (String.eqb s EmptyString)
  | BFun _ | BObj _ => true
  end.

(** [a || b]. *)
Definition bor (a b : BValue) : BValue := if btruthy a then a else b.

Fixpoint bassoc (name : string) (fields : list (string * BValue)) : BValue :=
  match fields with
  | [] => BUndefined
  | (k, v) :: rest => if String.eqb k name then v else bassoc name rest
  end.

(** [v?.name], and [v.name] on a truthy [v]: [undefined] on [null] and
    [undefined], and on primitives and functions, which have none of the
    member names read here. *)
Definition bget (v : BValue) (name : string) : BValue :=
  match v with
  | BObj fields => bassoc name fields
  | _ => BUndefined
  end.

(** [typeof v === 'function']: [v(...)] is a call, not a TypeError. *)
Definition callable (v : BValue) : bool :=
  match v with
  | BFun _ => true
  | _ => false
  end.

Record Browser : Type := mkBrowser {
  solana : BValue;
  phantom : BValue;
  solflare : BValue
}.

Inductive WalletEvent : Type :=
| WindowOpen (url target : string)
| ProviderConnect (provider : BValue)
| ProviderDisconnect (provider : BValue).

Definition ReferenceError (msg : string) : Exn := mkExn "ReferenceError" msg.

Definition PhantomWallet_isInstalled (window : option Browser) : BValue :=
  match window with
  | None => BBool false
  | Some win => bor (bget (solana win) "isPhantom") (bget (phantom win) "solana")
  end.

(** [window.solana?.isPhantom ? window.solana : window.phantom?.solana]. *)
Definition phantomProvider (win : Browser) : BValue :=
  if btruthy (bget (solana win) "isPhantom") then solana win
  else bget (phantom win) "solana".

Definition PhantomWallet_connect (window : option Browser) (publicKey : Outcome string)
    : Result string * list WalletEvent :=
  match window with
  | None => (Throw (ReferenceError "window is not defined"), [])
  | Some win =>
      if negb (btruthy (PhantomWallet_isInstalled window)) then
        (Throw (Error "Phantom wallet is not installed. Please install it first."),
         [WindowOpen "https://phantom.app/" "_blank"])
      else
        let provider := phantomProvider win in
        if callable (bget provider "connect") then
          (match publicKey with
           | Returns key => Ok key
           | Throws _ => Throw (Error "Failed to connect to Phantom wallet")
           end,
           [ProviderConnect provider])
        else (Throw (Error "Failed to connect to Phantom wallet"), [])
  end.

Definition PhantomWallet_disconnect (window : option Browser) (done : Outcome unit)
    : Result unit * list WalletEvent :=
  match window with
  | None => (Throw (ReferenceError "window is not defined"), [])
  | Some win =>
      let provider := phantomProvider win in
      if btruthy provider then
        if callable (bget provider "disconnect") then
          (match done with Returns _ => Ok tt | Throws e => Throw e end,
           [ProviderDisconnect provider])
        else (Throw (TypeError "provider.disconnect is not a function"), [])
      else (Ok tt, [])
  end.

Definition SolflareWallet_isInstalled (window : option Browser) : BValue :=
  match window with
  | None => BBool false
  | Some win => bget (solflare win) "isSolflare"
  end.

Definition SolflareWallet_connect (window : option Browser) (publicKey : Outcome string)
    : Result string * list WalletEvent :=
  match window with
  | None => (Throw (ReferenceError "window is not defined"), [])
  | Some win =>
      if negb (btruthy (SolflareWallet_isInstalled window)) then
        (Throw (Error "Solflare wallet is not installed. Please install it first."),
         [WindowOpen "https://solflare.com/" "_blank"])
      else if callable (bget (solflare win) "connect") then
        (match publicKey with
         | Returns key => Ok key
         | Throws _ => Throw (Error "Failed to connect to Solflare wallet")
         end,
         [ProviderConnect (solflare win)])
      else (Throw (Error "Failed to connect to Solflare wallet"), [])
  end.

Definition SolflareWallet_disconnect (window : option Browser) (done : Outcome unit)
    : Result unit * list WalletEvent :=
  match window with
  | None => (Throw (ReferenceError "window is not defined"), [])
  | Some win =>
      if btruthy (solflare win) then
        if callable (bget (solflare win) "disconnect") then
          (match done with Returns _ => Ok tt | Throws e => Throw e end,
           [ProviderDisconnect (solflare win)])
        else (Throw (TypeError "window.solflare.disconnect is not a function"), [])
      else (Ok tt, [])
  end.

(** [interface WalletAdapter]. *)
Record WalletAdapter : Type := mkWalletAdapter {
  connect : option Browser → Outcome string → Result string * list WalletEvent;
  disconnect : option Browser → Outcome unit → Result unit * list WalletEvent;
  isInstalled : option Browser → BValue
}.

Definition PhantomWallet : WalletAdapter :=
  mkWalletAdapter PhantomWallet_connect PhantomWallet_disconnect PhantomWallet_isInstalled.

Definition SolflareWallet : WalletAdapter :=
  mkWalletAdapter SolflareWallet_connect SolflareWallet_disconnect SolflareWallet_isInstalled.

Definition getWalletAdapter (walletType : string) : Result WalletAdapter :=
  if String.eqb walletType "phantom" then Ok PhantomWallet
  else if String.eqb walletType "solflare" then Ok SolflareWallet
  else Throw (Error "Unsupported wallet type").

(** The page a wallet is installed from, and the names in its errors. *)
Definition installPage (walletType : string) : string :=
  if String.eqb walletType "phantom" then "https://phantom.app/" else "https://solflare.com/".

Definition walletName (walletType : string) : string :=
  if String.eqb walletType "phantom" then "Phantom" else "Solflare".

(** A browser with the Phantom extension. *)
Definition phantomBrowser : Browser :=
  mkBrowser (BObj [("isPhantom", BBool true);
                   ("connect", BFun "connect");
                   ("disconnect", BFun "disconnect")])
            BUndefined BUndefined.


Definition plainBrowser : Browser := mkBrowser BUndefined BUndefined BUndefined.

(** ** Conversation titles, summaries and topics

    The three functions that ask Gemini about a conversation.  Their
    strings are taken as sequences of UTF-16 code units, as
    [substring], [trim], [split] and the regular expressions see them.
    What [await gemini.models.generateContent(...)] and the read of
    [result.text] come to is an argument: [Returns (Some t)] for a
    string, [Returns None] for [undefined], [Throws e] for a rejection. *)

Definition text : Type := list N.

Definition codes (s : string) : text := map N_of_ascii (String.list_ascii_of_string s).

Definition quoteMark : text := [34%N].
Definition newline : text := [10%N].

(** White space and line terminators: what [trim] removes and [\s] matches. *)
Definition isSpace (c : N) : bool :=
  (N.leb 9 c && N.leb c 13) || N.eqb c 32 || N.eqb c 160 || N.eqb c 5760
  || (N.leb 8192 c && N.leb c 8202) || N.eqb c 8232 || N.eqb c 8233
  || N.eqb c 8239 || N.eqb c 8287 || N.eqb c 12288 || N.eqb c 65279.

(** [\d]. *)
Definition isDigit (c : N) : bool := N.leb 48 c && N.leb c 57.

Fixpoint dropSpaces (t : text) : text :=
  match t with
  | [] => []
  | c :: rest => if isSpace c then dropSpaces rest else t
  end.

(** [t.trim()]. *)
Definition trimText (t : text) : text := rev (dropSpaces (rev (dropSpaces t))).

Definition nonEmpty (t : text) : bool :=
  match t with [] => false | _ :: _ => true end.

(** [a || b] on strings, [a] possibly [undefined]. *)
Definition textOr (a : option text) (b : text) : text :=
  match a with
  | Some t => if nonEmpty t then t else b
  | None => b
  end.

(** [t.split('\n')]. *)
Fixpoint splitLines (t : text) : list text :=
  match t with
  | [] => [[]]
  | c :: rest =>
      if N.eqb c 10 then [] :: splitLines rest
      else match splitLines rest with
           | line :: lines => (c :: line) :: lines
           | [] => [[c]]
           end
  end.

(** [parts.join(sep)]. *)
Fixpoint join (sep : text) (parts : list text) : text :=
  match parts with
  | [] => []
  | [part] => part
  | part :: rest => part ++ sep ++ join sep rest
  end.

Definition isQuote (c : N) : bool := N.eqb c 34 || N.eqb c 39.

Definition stripFirstQuote (t : text) : text :=
  match t with
  | c :: rest => if isQuote c then rest else t
  | [] => []
  end.

(** [t.replace(/^["']|["']$/g, '')]: a quote at the start goes, and a
    quote at the end goes unless it is that same character. *)
Definition stripQuotes (t : text) : text :=
  rev (stripFirstQuote (rev (stripFirstQuote t))).

Fixpoint dropDigits (t : text) : text :=
  match t with
  | [] => []
  | c :: rest => if isDigit c then dropDigits rest else t
  end.

(** [t.match(/^\d+[\.\)]/)] finds something. *)
Definition isNumbered (t : text) : bool :=
  match t with
  | c :: rest =>
      isDigit c
      && match dropDigits rest with
         | d :: _ => N.eqb d 46 || N.eqb d 41
         | [] => false
         end
  | [] => false
  end.

(** [t.replace(/^[-•]\s*/, '')]. *)
Definition stripBullet (t : text) : text :=
  match t with
  | c :: rest => if N.eqb c 45 || N.eqb c 8226 then dropSpaces rest else t
  | [] => []
  end.

Record ChatMessage : Type := mkChatMessage {
  role : text;
  content : text
}.

Record GenerateContentRequest : Type := mkRequest {
  requestModel : string;
  requestContents : text
}.

Definition conversationTextOf (messages : list ChatMessage) : text :=
  join (newline ++ newline)
    (map (λ msg, (if bool_decide (role msg = codes "user") then codes "User" else codes "Assistant")
                 ++ codes ": " ++ content msg) messages).

Definition titlePrompt (firstUserMessage : text) : text :=
  codes "Based on this user message, generate a concise conversation title (maximum 6 words) that captures the main topic or question. Just return the title, nothing else."
  ++ newline ++ newline
  ++ codes "User message: " ++ quoteMark ++ firstUserMessage ++ quoteMark
  ++ newline ++ newline
  ++ codes "Title:".

Definition generateConversationTitle (firstUserMessage : text) (answer : Outcome (option text))
    : text * list GenerateContentRequest :=
  let request := mkRequest "gemini-2.5-flash" (titlePrompt firstUserMessage) in
  match answer with
  | Returns resultText =>
      let title := textOr (trimText <$> resultText) (take 50 firstUserMessage) in
      (take 100 (stripQuotes title), [request])
  | Throws _ => (take 50 firstUserMessage, [request])
  end.

Definition summaryPrompt (conversationText : text) : text :=
  codes "Summarize this conversation in 2-3 sentences, focusing on the main topics discussed and key points:"
  ++ newline ++ newline
  ++ conversationText
  ++ newline ++ newline
  ++ codes "Summary:".

Definition generateConversationSummary (messages : list ChatMessage) (answer : Outcome (option text))
    : text * list GenerateContentRequest :=
  let request := mkRequest "gemini-2.5-flash" (summaryPrompt (conversationTextOf messages)) in
  match answer with
  | Returns resultText =>
      (textOr (trimText <$> resultText) (codes "Conversation summary unavailable"), [request])
  | Throws _ => (codes "Conversation summary unavailable", [request])
  end.

Definition topicsPrompt (conversationText : text) : text :=
  codes "Analyze this conversation and extract 3-8 DISTINCT topics or subjects that were discussed. Each topic must be unique and different from the others. For each topic, provide a short label (maximum 4 words). Return only the topic labels, one per line, no numbers or bullets, no duplicates."
  ++ newline ++ newline
  ++ conversationText
  ++ newline ++ newline
  ++ codes "Topics:".

Definition retryPrompt (conversationText : text) : text :=
  codes "This conversation has multiple messages. You MUST identify EXACTLY 3 to 8 DISTINCT topics or themes discussed. Be more granular if needed - for example:"
  ++ newline
  ++ codes "- If discussing crypto, separate " ++ quoteMark ++ codes "Bitcoin price" ++ quoteMark
  ++ codes ", " ++ quoteMark ++ codes "Market trends" ++ quoteMark
  ++ codes ", " ++ quoteMark ++ codes "Trading strategies" ++ quoteMark
  ++ newline
  ++ codes "- If discussing AI, separate " ++ quoteMark ++ codes "ChatGPT usage" ++ quoteMark
  ++ codes ", " ++ quoteMark ++ codes "AI safety concerns" ++ quoteMark
  ++ codes ", " ++ quoteMark ++ codes "Model capabilities" ++ quoteMark
  ++ newline ++ newline
  ++ codes "Each topic must be unique and specific. Return short labels (max 4 words), one per line, no numbers or bullets."
  ++ newline ++ newline
  ++ conversationText
  ++ newline ++ newline
  ++ codes "Topics:".

Section Topics.

(** [String.prototype.toLowerCase]; the Unicode case mapping is not
    written out. *)
Variable toLowerCase : text → text.

(** The filter over a [Set] of the lower-cased topics seen so far. *)
Fixpoint distinctTopics (uniqueTopics : gset text) (topics : list text) : list text :=
  match topics with
  | [] => []
  | topic :: rest =>
      let lowerTopic := toLowerCase topic in
      if bool_decide (lowerTopic ∈ uniqueTopics) then distinctTopics uniqueTopics rest
      else topic :: distinctTopics ({[ lowerTopic ]} ∪ uniqueTopics) rest
  end.

(** The splitting, cleaning and deduplication applied to both answers. *)
Definition topicLines (topicsText : text) : list text :=
  List.filter nonEmpty
    (map stripBullet
       (List.filter (λ topic, nonEmpty topic && negb (isNumbered topic))
          (map trimText (splitLines topicsText)))).

Definition topicsOf (resultText : option text) : list text :=
  distinctTopics ∅ (topicLines (textOr (trimText <$> resultText) [])).

(** The last step: at most eight topics, and none at all below three. *)
Definition finalTopicsOf (topics : list text) : list text :=
  let finalTopics := take 8 topics in
  if Nat.ltb (length finalTopics) 3 then [] else finalTopics.

Definition generateConversationTopicIndex (messages : list ChatMessage)
    (answer retryAnswer : Outcome (option text)) : list text * list GenerateContentRequest :=
  if Nat.eqb (length messages) 0 then ([], [])
  else if Nat.ltb (length messages) 4 then ([], [])
  else
    let conversationText := conversationTextOf messages in
    let request := mkRequest "gemini-2.5-flash" (topicsPrompt conversationText) in
    match answer with
    | Throws _ => ([], [request])
    | Returns resultText =>
        let topics := topicsOf resultText in
        if Nat.ltb (length topics) 3 && Nat.leb 4 (length messages) then
          let retryRequest := mkRequest "gemini-2.5-flash" (retryPrompt conversationText) in
          match retryAnswer with
          | Throws _ => ([], [request; retryRequest])
          | Returns retryText =>
              let retryTopics := topicsOf retryText in
              let topics :=
                if Nat.leb 3 (length retryTopics) then retryTopics
                else if Nat.ltb (length topics) (length retryTopics) then retryTopics
                else topics in
              (finalTopicsOf topics, [request; retryRequest])
          end
        else (finalTopicsOf topics, [request])
    end.

End Topics.

(** Lower case of the letters A to Z, a sample of [toLowerCase]. *)
Definition asciiLower (t : text) : text :=
  map (λ c, if N.leb 65 c && N.leb c 90 then (c + 32)%N else c) t.

Definition startsWithSpace (t : text) : bool :=
  match t with c :: _ => isSpace c | [] => false end.

(** A non-empty piece of one line with no white space at either end. *)
Definition trimmedLine (t : text) : bool :=
  nonEmpty t && negb (startsWithSpace t) && negb (startsWithSpace (rev t))
  && negb (existsb (N.eqb 10) t).

(** The answer is used: a string that is not all white space. *)
Definition usable (answer : Outcome (option text)) : bool :=
  match answer with
  | Returns (Some t) => nonEmpty (trimText t)
  | _ => false
  end.

Definition sampleMessages : list ChatMessage :=
  [mkChatMessage (codes "user") (codes "What is Bitcoin?");
   mkChatMessage (codes "assistant") (codes "A digital currency.");
   mkChatMessage (codes "user") (codes "And Solana?");
   mkChatMessage (codes "assistant") (codes "A fast blockchain.")].

Definition sampleTopicsAnswer : text :=
  codes "- Bitcoin" ++ newline ++ codes "1. Numbered" ++ newline ++ codes "  Solana  "
  ++ newline ++ codes "bitcoin" ++ newline ++ codes "Blockchains" ++ newline.

(** No line feed in a piece of text. *)
Definition noLineFeed (t : text) : Prop := Forall (λ c, N.eqb 10 c = false) t.

(** The frames sent to a synthesis link among some events, in order. *)
Definition framesTo (ws : nat) (evs : list Event) : list JValue :=
  omap (λ e, match e with
             | TtsSend ws' frame => if Nat.eqb ws' ws then Some frame else None
             | _ => None
             end) evs.

Definition notFrameTo (ws : nat) (e : Event) : Prop :=
  match e with
  | TtsSend ws' _ => ws' ≠ ws
  | _ => True
  end.

(** Code that only appends to the trace, and no frame for a link that
    is not open. *)
Definition silentOn {A} (ws : nat) (m : M A) : Prop :=
  ∀ w, readyStateOf w ws ≠ OPEN → ∃ evs, exec m w = addEvents evs w ∧ framesTo ws evs = [].

(** The frames of every link begin with the start-of-stream frame. *)
Record framed (bos : JValue) (w : World) : Prop := mkFramed {
  unopened_silent : ∀ ws,
    readyStateOf w ws = CONNECTING ∨ (nextSocket w ≤ ws)%nat → framesTo ws (trace w) = [];
  open_started : ∀ ws, readyStateOf w ws = OPEN → framesTo ws (trace w) ≠ [];
  start_first : ∀ ws frame, head (framesTo ws (trace w)) = Some frame → frame = bos
}.

(** * Properties *)

Lemma world_ext w1 w2 :
  activeSessions w1 = activeSessions w2 → sessionKeyMap w1 = sessionKeyMap w2 →
  heap w1 = heap w2 → nextRef w1 = nextRef w2 → sockets w1 = sockets w2 →
  nextSocket w1 = nextSocket w2 → listeners w1 = listeners w2 → trace w1 = trace w2 →
  w1 = w2.
Proof. destruct w1, w2; simpl; congruence. Qed.

Lemma count_app p t1 t2 : count p (t1 ++ t2) = (count p t1 + count p t2)%nat.
Proof. unfold count. by rewrite List.filter_app, length_app. Qed.

Lemma newEvents_app w w' evs : trace w' = trace w ++ evs → newEvents w w' = evs.
Proof. unfold newEvents. intros ->. by rewrite drop_app_length. Qed.

(** ** Teardown *)

Ltac run_monad :=
  repeat first
    [ progress (unfold exec, result, bind, try_catch, ret, throw, gets, modify, emit,
                field, update, clientSend, await, JSON_parse, get)
    | progress simpl
    | rewrite lookup_insert_eq ].

Ltac run_using H := repeat first [ progress run_monad | rewrite H ].

Lemma closing_fields ws w :
  activeSessions (closing ws w) = activeSessions w ∧
  sessionKeyMap (closing ws w) = sessionKeyMap w ∧
  heap (closing ws w) = heap w ∧ nextRef (closing ws w) = nextRef w ∧
  nextSocket (closing ws w) = nextSocket w ∧
  listeners (closing ws w) = listeners w ∧ trace (closing ws w) = trace w.
Proof. unfold closing. destruct (readyStateOf w ws); repeat split; reflexivity. Qed.

(** What [cleanupSession] does on a registered stream identifier. *)
Lemma cleanupSession_registered w k vs s ce :
  activeSessions w !! k = Some vs →
  heap w !! vs = Some s →
  cleanupSession k ce w =
  (Ok tt,
   setSessionKeyMap (delete (sessionId s))
     (setActiveSessions (delete k)
        (closeLink (elevenLabsWs s)
           (addEvent
              (IncrementVoiceMinutes (sessionId s)
                 (Math_ceil_div (ceNow ce - startTime s) (60 * 1000)))
              (setHeap (<[vs := withIsActive false s]>) w))))).
Proof.
  intros Hk Hvs.
  unfold cleanupSession, cleanupSession_enter, cleanupSession_report, cleanupSession_leave,
    wsClose.
  run_monad. rewrite Hk.
  unfold updated, setHeap. run_monad. rewrite Hvs. run_monad.
  destruct (ceIncrementVoiceMinutes ce) as [[]|e]; run_monad;
    destruct (elevenLabsWs s) as [ws|]; run_monad;
    try (unfold closing; simpl; destruct (readyStateOf _ _)); run_monad; reflexivity.
Qed.

Lemma cleanupSession_unregistered w k ce :
  activeSessions w !! k = None → cleanupSession k ce w = (Ok tt, w).
Proof. intros Hk. unfold cleanupSession, cleanupSession_enter. run_monad. by rewrite Hk. Qed.

Lemma closeLink_fields link w :
  activeSessions (closeLink link w) = activeSessions w ∧
  sessionKeyMap (closeLink link w) = sessionKeyMap w ∧
  heap (closeLink link w) = heap w ∧
  trace (closeLink link w)
  = trace w ++ match link with Some ws => [TtsClose ws] | None => [] end.
Proof.
  destruct link as [ws|]; simpl.
  - destruct (closing_fields ws (addEvent (TtsClose ws) w))
      as (-> & -> & -> & _ & _ & _ & ->). done.
  - by rewrite app_nil_r.
Qed.

(** The events of a teardown of a registered stream. *)
Lemma cleanupSession_events w k vs s ce :
  activeSessions w !! k = Some vs →
  heap w !! vs = Some s →
  newEvents w (exec (cleanupSession k ce) w)
  = IncrementVoiceMinutes (sessionId s)
      (Math_ceil_div (ceNow ce - startTime s) (60 * 1000))
    :: match elevenLabsWs s with Some ws => [TtsClose ws] | None => [] end.
Proof.
  intros Hk Hvs. apply newEvents_app. unfold exec.
  rewrite (cleanupSession_registered _ _ _ _ _ Hk Hvs). simpl.
  destruct (closeLink_fields (elevenLabsWs s)
    (addEvent (IncrementVoiceMinutes (sessionId s)
       (Math_ceil_div (ceNow ce - startTime s) (60 * 1000)))
       (setHeap <[vs:=withIsActive false s]> w))) as (_ & _ & _ & ->).
  simpl. by rewrite <- app_assoc.
Qed.

(** An invocation that starts after another one on the same stream
    identifier has finished finds no registry entry: it changes nothing
    and emits nothing, and over both usage is reported once and the
    synthesis link is closed at most once. *)
Theorem cleanupSession_after_completed w k vs s ce1 ce2 :
  activeSessions w !! k = Some vs →
  heap w !! vs = Some s →
  activeSessions (exec (cleanupSession k ce1) w) !! k = None ∧
  cleanupSession k ce2 (exec (cleanupSession k ce1) w)
  = (Ok tt, exec (cleanupSession k ce1) w) ∧
  count isUsageReport
    (newEvents w (exec (cleanupSession k ce2) (exec (cleanupSession k ce1) w))) = 1%nat ∧
  (count isLinkClose
    (newEvents w (exec (cleanupSession k ce2) (exec (cleanupSession k ce1) w))) <= 1)%nat.
Proof.
  intros Hk Hvs.
  assert (Hgone : activeSessions (exec (cleanupSession k ce1) w) !! k = None).
  { unfold exec. rewrite (cleanupSession_registered _ _ _ _ _ Hk Hvs). simpl.
    destruct (closeLink_fields (elevenLabsWs s)
      (addEvent (IncrementVoiceMinutes (sessionId s)
         (Math_ceil_div (ceNow ce1 - startTime s) (60 * 1000)))
         (setHeap <[vs:=withIsActive false s]> w))) as (-> & _).
    simpl. apply lookup_delete_eq. }
  pose proof (cleanupSession_unregistered _ _ ce2 Hgone) as Hsecond.
  split; [exact Hgone|]. split; [exact Hsecond|].
  unfold exec at 1 3. rewrite Hsecond. simpl.
  rewrite (cleanupSession_events _ _ _ _ _ Hk Hvs).
  destruct (elevenLabsWs s); unfold count; simpl; split; reflexivity || lia.
Qed.

(** One invocation with nothing in between is the schedule of its three
    parts. *)
Lemma cleanupSession_schedule w k ce :
  exec (cleanupSession k ce) w
  = exec (schedule [Call k (ceNow ce); Resume 0 (Returns tt);
                    Resume 0 (ceIncrementVoiceMinutes ce)] []) w.
Proof.
  unfold cleanupSession, schedule, turn, exec, bind.
  destruct (cleanupSession_enter k (ceNow ce) w) as [[[td|]|e] w1]; simpl; try done.
  destruct (cleanupSession_report td w1) as [[[]|e] w2]; simpl; [|done].
  by destruct (cleanupSession_leave td (ceIncrementVoiceMinutes ce) w2) as [[[]|e] w3].
Qed.

(** The three parts on a session object that exists. *)
Lemma cleanupSession_enter_registered w k vs s now :
  activeSessions w !! k = Some vs →
  heap w !! vs = Some s →
  cleanupSession_enter k now w
  = (Ok (Some (mkTeardown k vs (Math_ceil_div (now - startTime s) (60 * 1000)))),
     setHeap (<[vs := withIsActive false s]>) w).
Proof.
  intros Hk Hvs. unfold cleanupSession_enter. run_monad. rewrite Hk.
  unfold updated, setHeap. run_monad. rewrite Hvs. run_monad. reflexivity.
Qed.

Lemma cleanupSession_report_run w k vs s minutes :
  heap w !! vs = Some s →
  cleanupSession_report (mkTeardown k vs minutes) w
  = (Ok tt, addEvent (IncrementVoiceMinutes (sessionId s) minutes) w).
Proof. intros Hvs. unfold cleanupSession_report. run_monad. rewrite Hvs. reflexivity. Qed.

Lemma cleanupSession_leave_run w k vs s minutes settled :
  heap w !! vs = Some s →
  cleanupSession_leave (mkTeardown k vs minutes) settled w
  = (Ok tt,
     setSessionKeyMap (delete (sessionId s))
       (setActiveSessions (delete k) (closeLink (elevenLabsWs s) w))).
Proof.
  intros Hvs. unfold cleanupSession_leave, wsClose.
  destruct settled as [[]|e]; run_monad; rewrite Hvs; run_monad;
    destruct (elevenLabsWs s) as [ws|]; run_monad;
    try (unfold closing; simpl; destruct (readyStateOf _ _)); run_monad; rewrite ?Hvs;
    reflexivity.
Qed.

Lemma schedule_cons t turns inflight w :
  schedule (t :: turns) inflight w
  = match turn t inflight w with
    | (Ok inflight', w') => schedule turns inflight' w'
    | (Throw e, w') => (Throw e, w')
    end.
Proof. reflexivity. Qed.

Lemma turn_Call w w' k now td inflight :
  cleanupSession_enter k now w = (Ok (Some td), w') →
  turn (Call k now) inflight w = (Ok (inflight ++ [AtImport td]), w').
Proof. intros H. unfold turn, bind. by rewrite H. Qed.

Lemma turn_Resume_import w w' i td settled inflight :
  inflight !! i = Some (AtImport td) →
  cleanupSession_report td w = (Ok tt, w') →
  turn (Resume i settled) inflight w = (Ok (<[i := AtQuota td]> inflight), w').
Proof. intros Hi H. unfold turn, bind. by rewrite Hi, H. Qed.

Lemma turn_Resume_quota w w' i td settled inflight :
  inflight !! i = Some (AtQuota td) →
  cleanupSession_leave td settled w = (Ok tt, w') →
  turn (Resume i settled) inflight w = (Ok (<[i := Settled]> inflight), w').
Proof. intros Hi H. unfold turn, bind. by rewrite Hi, H. Qed.

(** The registry entry is still there for an invocation that starts
    while another one waits: the entry is deleted in the last part. *)
Lemma cleanupSession_enter_twice w k vs s now1 now2 :
  activeSessions w !! k = Some vs →
  heap w !! vs = Some s →
  result (cleanupSession_enter k now1) w
  = Ok (Some (mkTeardown k vs (Math_ceil_div (now1 - startTime s) (60 * 1000)))) ∧
  result (cleanupSession_enter k now2) (exec (cleanupSession_enter k now1) w)
  = Ok (Some (mkTeardown k vs (Math_ceil_div (now2 - startTime s) (60 * 1000)))).
Proof.
  intros Hk Hvs. unfold result, exec.
  rewrite (cleanupSession_enter_registered w k vs s now1 Hk Hvs). split; [done|].
  cbn [fst snd].
  by rewrite (cleanupSession_enter_registered (setHeap (<[vs := withIsActive false s]>) w)
                k vs (withIsActive false s) now2 Hk (lookup_insert_eq _ _ _)).
Qed.

(** Two invocations on a registered stream identifier, the second one
    started while the first waits: both report usage and both close
    the link. *)
Lemma cleanupSession_overlapping w k vs s now1 now2 o1 o2 :
  activeSessions w !! k = Some vs →
  heap w !! vs = Some s →
  newEvents w
    (exec (schedule [Call k now1; Call k now2;
                     Resume 0 (Returns tt); Resume 1 (Returns tt);
                     Resume 0 o1; Resume 1 o2] []) w)
  = [IncrementVoiceMinutes (sessionId s) (Math_ceil_div (now1 - startTime s) (60 * 1000));
     IncrementVoiceMinutes (sessionId s) (Math_ceil_div (now2 - startTime s) (60 * 1000))]
    ++ match elevenLabsWs s with
       | Some ws => [TtsClose ws; TtsClose ws]
       | None => []
       end.
Proof.
  intros Hk Hvs. apply newEvents_app. unfold exec.
  set (s' := withIsActive false s).
  set (m1 := Math_ceil_div (now1 - startTime s) (60 * 1000)).
  set (m2 := Math_ceil_div (now2 - startTime s) (60 * 1000)).
  set (w1 := setHeap (<[vs := s']>) w).
  set (w2 := setHeap (<[vs := s']>) w1).
  set (w3 := addEvent (IncrementVoiceMinutes (sessionId s) m1) w2).
  set (w4 := addEvent (IncrementVoiceMinutes (sessionId s) m2) w3).
  set (w5 := setSessionKeyMap (delete (sessionId s))
               (setActiveSessions (delete k) (closeLink (elevenLabsWs s) w4))).
  assert (H2 : heap w2 !! vs = Some s') by apply lookup_insert_eq.
  assert (H5 : heap w5 !! vs = Some s').
  { unfold w5. simpl. destruct (closeLink_fields (elevenLabsWs s) w4) as (_ & _ & -> & _).
    exact H2. }
  rewrite schedule_cons,
    (turn_Call w w1 k now1 _ [] (cleanupSession_enter_registered w k vs s now1 Hk Hvs)).
  rewrite schedule_cons,
    (turn_Call w1 w2 k now2 _ _
       (cleanupSession_enter_registered w1 k vs s' now2 Hk (lookup_insert_eq _ _ _))).
  rewrite schedule_cons.
  erewrite (turn_Resume_import w2 w3 0);
    [| reflexivity | exact (cleanupSession_report_run w2 k vs s' m1 H2)].
  rewrite schedule_cons.
  erewrite (turn_Resume_import w3 w4 1);
    [| reflexivity | exact (cleanupSession_report_run w3 k vs s' m2 H2)].
  rewrite schedule_cons.
  erewrite (turn_Resume_quota w4 w5 0);
    [| reflexivity | exact (cleanupSession_leave_run w4 k vs s' m1 o1 H2)].
  rewrite schedule_cons.
  erewrite (turn_Resume_quota w5 _ 1);
    [| reflexivity | exact (cleanupSession_leave_run w5 k vs s' m2 o2 H5)].
  simpl.
  destruct (closeLink_fields (elevenLabsWs s) w5) as (_ & _ & _ & ->).
  unfold w5. simpl.
  destruct (closeLink_fields (elevenLabsWs s) w4) as (_ & _ & _ & ->).
  simpl. rewrite <- !app_assoc. by destruct (elevenLabsWs s).
Qed.

(** C1 fails on the code.  On a registered stream, two invocations of
    [cleanupSession] issued one after the other with the promise
    dropped, as both callers issue it: the second finds the registry
    entry, which the first deletes only after its two [await]s; usage is
    reported twice and the synthesis link is closed twice. *)
Theorem unawaited_teardowns_report_twice :
  activeSessions sampleWorld !! "s-voice-1000" = Some 0%nat ∧
  result (schedule [Call "s-voice-1000" 62000; Call "s-voice-1000" 62000] []) sampleWorld
  = Ok [AtImport (mkTeardown "s-voice-1000" 0 2); AtImport (mkTeardown "s-voice-1000" 0 2)] ∧
  newEvents sampleWorld
    (exec (schedule [Call "s-voice-1000" 62000; Call "s-voice-1000" 62000;
                     Resume 0 (Returns tt); Resume 1 (Returns tt);
                     Resume 0 (Returns tt); Resume 1 (Returns tt)] []) sampleWorld)
  = [IncrementVoiceMinutes "s" 2; IncrementVoiceMinutes "s" 2; TtsClose 0; TtsClose 0] ∧
  count isUsageReport
    (newEvents sampleWorld
       (exec (schedule [Call "s-voice-1000" 62000; Call "s-voice-1000" 62000;
                        Resume 0 (Returns tt); Resume 1 (Returns tt);
                        Resume 0 (Returns tt); Resume 1 (Returns tt)] []) sampleWorld))
  = 2%nat ∧
  count isLinkClose
    (newEvents sampleWorld
       (exec (schedule [Call "s-voice-1000" 62000; Call "s-voice-1000" 62000;
                        Resume 0 (Returns tt); Resume 1 (Returns tt);
                        Resume 0 (Returns tt); Resume 1 (Returns tt)] []) sampleWorld))
  = 2%nat.
Proof. repeat apply conj; vm_compute; reflexivity. Qed.

(** ** Usage accounting *)

(** [Math_ceil_div a b] is the least integer not below [a / b]. *)
Lemma Math_ceil_div_spec a b :
  0 < b → b * (Math_ceil_div a b - 1) < a ∧ a <= b * Math_ceil_div a b.
Proof.
  intros Hb. unfold Math_ceil_div.
  pose proof (Z.mul_div_le (- a) b Hb).
  pose proof (Z.mul_succ_div_gt (- a) b Hb).
  lia.
Qed.

Lemma Math_ceil_div_unique a b m :
  0 < b → b * (m - 1) < a → a <= b * m → Math_ceil_div a b = m.
Proof.
  intros Hb Hlo Hhi. destruct (Math_ceil_div_spec a b Hb) as [Hlo' Hhi']. nia.
Qed.

(** C3, as the code has it.  Teardown of a registered session reports
    once, for the session's own [sessionId], the least number of whole
    minutes that covers [now - startTime]: 2 for 61 seconds, 1 for 60
    seconds, 1 for a duration above 0 and up to 1000 milliseconds, and 0
    for a duration of 0 milliseconds. *)
Theorem cleanupSession_reports_rounded_up_minutes w k vs s ce :
  activeSessions w !! k = Some vs →
  heap w !! vs = Some s →
  ∃ m,
    List.filter isUsageReport (newEvents w (exec (cleanupSession k ce) w))
    = [IncrementVoiceMinutes (sessionId s) m] ∧
    60000 * (m - 1) < ceNow ce - startTime s <= 60000 * m ∧
    (ceNow ce - startTime s = 61000 → m = 2) ∧
    (ceNow ce - startTime s = 60000 → m = 1) ∧
    (0 < ceNow ce - startTime s <= 1000 → m = 1) ∧
    (ceNow ce - startTime s = 0 → m = 0).
Proof.
  intros Hk Hvs. exists (Math_ceil_div (ceNow ce - startTime s) (60 * 1000)).
  rewrite (cleanupSession_events _ _ _ _ _ Hk Hvs).
  split; [by destruct (elevenLabsWs s)|].
  change (60 * 1000) with 60000.
  pose proof (Math_ceil_div_spec (ceNow ce - startTime s) 60000 eq_refl) as [Hlo Hhi].
  split; [lia|].
  repeat split; intros Hd; apply Math_ceil_div_unique; lia.
Qed.

Lemma cleanupSession_reports_rounded_up_minutes_witness :
  ∃ m,
    List.filter isUsageReport
      (newEvents sampleWorld
         (exec (cleanupSession "s-voice-1000" (sampleCleanup 62000)) sampleWorld))
    = [IncrementVoiceMinutes (sessionId sampleSession) m] ∧
    60000 * (m - 1) < ceNow (sampleCleanup 62000) - startTime sampleSession <= 60000 * m ∧
    (ceNow (sampleCleanup 62000) - startTime sampleSession = 61000 → m = 2) ∧
    (ceNow (sampleCleanup 62000) - startTime sampleSession = 60000 → m = 1) ∧
    (0 < ceNow (sampleCleanup 62000) - startTime sampleSession <= 1000 → m = 1) ∧
    (ceNow (sampleCleanup 62000) - startTime sampleSession = 0 → m = 0).
Proof.
  apply (cleanupSession_reports_rounded_up_minutes sampleWorld "s-voice-1000" 0%nat
           sampleSession (sampleCleanup 62000)); vm_compute; reflexivity.
Defined.

(** C3 fails as stated: a session torn down in the millisecond it was
    started in (0 ms, within the 0-1000 ms range) reports 0 minutes. *)
Lemma zero_length_session_reports_zero_minutes :
  0 <= ceNow (sampleCleanup 1000) - startTime sampleSession <= 1000 ∧
  newEvents sampleWorld (step None None sampleBuffer sampleWorld
                           (ClientClose 0 (sampleCleanup 1000)))
  = [IncrementVoiceMinutes "s" 0; TtsClose 0].
Proof. split; [simpl; lia | vm_compute; reflexivity]. Qed.

(** ** Trimming *)

Lemma append_nil b : EmptyString +:+ b = b.
Proof. reflexivity. Qed.

Lemma append_cons c a b : String c a +:+ b = String c (a +:+ b).
Proof. reflexivity. Qed.

Lemma string_length_ind (P : string → Prop) :
  (∀ s, (∀ t, (String.length t < String.length s)%nat → P t) → P s) → ∀ s, P s.
Proof.
  intros step s. remember (String.length s) as n eqn:Hn.
  revert s Hn. induction (lt_wf n) as [n _ IH]. intros s ->.
  apply step. intros t Ht. by apply (IH (String.length t)).
Qed.

Lemma ws_prefix_length s r :
  ws_prefix s = Some r → (String.length r < String.length s)%nat.
Proof.
  destruct s as [|c1 [|c2 [|c3 s3]]]; simpl; try done.
  all: repeat (match goal with |- context [if ?b then _ else _] => destruct b end);
    intros [= <-]; simpl; lia.
Qed.

Lemma trimStart_unfold s :
  trimStart s = match ws_prefix s with Some r => trimStart r | None => s end.
Proof.
  destruct s as [|c1 s1]; [reflexivity|]. unfold ws_prefix.
  destruct (is_ws1 c1) eqn:H1; [cbn [trimStart]; by rewrite H1|].
  destruct s1 as [|c2 s2]; [cbn [trimStart]; by rewrite H1|].
  destruct (is_ws2 c1 c2) eqn:H2; [cbn [trimStart]; by rewrite H1, H2|].
  destruct s2 as [|c3 s3]; [cbn [trimStart]; by rewrite H1, H2|].
  destruct (is_ws3 c1 c2 c3) eqn:H3; cbn [trimStart]; by rewrite H1, H2, H3.
Qed.

Lemma whitespaceOnly_unfold c s :
  whitespaceOnly (String c s)
  = match ws_prefix (String c s) with Some r => whitespaceOnly r | None => false end.
Proof.
  unfold ws_prefix.
  destruct (is_ws1 c) eqn:H1; [cbn [whitespaceOnly]; by rewrite H1|].
  destruct s as [|c2 s2]; [cbn [whitespaceOnly]; by rewrite H1|].
  destruct (is_ws2 c c2) eqn:H2; [cbn [whitespaceOnly]; by rewrite H1, H2|].
  destruct s2 as [|c3 s3]; [cbn [whitespaceOnly]; by rewrite H1, H2|].
  destruct (is_ws3 c c2 c3) eqn:H3; cbn [whitespaceOnly]; by rewrite H1, H2, H3.
Qed.

Lemma trimStart_empty s : trimStart s = EmptyString ↔ whitespaceOnly s = true.
Proof.
  induction s as [s IH] using string_length_ind.
  destruct s as [|c s]; [done|].
  rewrite trimStart_unfold, whitespaceOnly_unfold.
  destruct (ws_prefix (String c s)) as [r|] eqn:Hr; [|done].
  apply IH. by apply ws_prefix_length.
Qed.

(** What [trimStart] leaves does not begin with white space. *)
Lemma ws_prefix_trimStart s : ws_prefix (trimStart s) = None.
Proof.
  induction s as [s IH] using string_length_ind.
  rewrite trimStart_unfold.
  destruct (ws_prefix s) as [r|] eqn:Hr; [|done].
  apply IH. by apply ws_prefix_length.
Qed.

Lemma ws_prefix_app t x r : ws_prefix t = Some x → ws_prefix (t +:+ r) = Some (x +:+ r).
Proof.
  destruct t as [|c1 [|c2 [|c3 t3]]]; simpl; try done.
  all: rewrite ?append_cons, ?append_nil; simpl.
  all: repeat (match goal with |- context [if ?b then _ else _] => destruct b end);
    try done; by intros [= <-].
Qed.

Lemma trimStart_blank_app a b : trimStart a = EmptyString → trimStart (a +:+ b) = trimStart b.
Proof.
  induction a as [a IH] using string_length_ind. intros Ha.
  destruct a as [|c a]; [done|].
  rewrite trimStart_unfold in Ha.
  destruct (ws_prefix (String c a)) as [x|] eqn:Hx; [|done].
  rewrite (trimStart_unfold (String c a +:+ b)), (ws_prefix_app _ _ b Hx).
  apply IH; [by apply ws_prefix_length | done].
Qed.

Lemma trimEnd_empty s : trimEnd s = EmptyString ↔ trimStart s = EmptyString.
Proof.
  destruct s as [|c s]; [done|].
  change (trimEnd (String c s))
    with (match trimStart (String c s) with
          | EmptyString => EmptyString
          | _ => String c (trimEnd s)
          end).
  by destruct (trimStart (String c s)).
Qed.

(** [trimEnd] removes a suffix that is white space only. *)
Lemma trimEnd_split s : ∃ r, s = trimEnd s +:+ r ∧ trimStart r = EmptyString.
Proof.
  induction s as [|c s (r & Hs & Hr)]; [by exists EmptyString|].
  change (trimEnd (String c s))
    with (match trimStart (String c s) with
          | EmptyString => EmptyString
          | _ => String c (trimEnd s)
          end).
  destruct (trimStart (String c s)) eqn:Hblank.
  - by exists (String c s).
  - exists r. by rewrite append_cons, <- Hs.
Qed.

Lemma trimEnd_idem s : trimEnd (trimEnd s) = trimEnd s.
Proof.
  induction s as [|c s IH]; [done|].
  change (trimEnd (String c s))
    with (match trimStart (String c s) with
          | EmptyString => EmptyString
          | _ => String c (trimEnd s)
          end).
  destruct (trimStart (String c s)) as [|c' t'] eqn:Hblank; [done|].
  change (trimEnd (String c (trimEnd s)))
    with (match trimStart (String c (trimEnd s)) with
          | EmptyString => EmptyString
          | _ => String c (trimEnd (trimEnd s))
          end).
  destruct (trimStart (String c (trimEnd s))) eqn:Hcut; [|by rewrite IH].
  destruct (trimEnd_split s) as (r & Hs & Hr).
  pose proof (trimStart_blank_app (String c (trimEnd s)) r Hcut) as Happ.
  rewrite append_cons, <- Hs, Hr in Happ. congruence.
Qed.

Lemma ws_prefix_trimEnd s : ws_prefix s = None → ws_prefix (trimEnd s) = None.
Proof.
  intros Hs. destruct (ws_prefix (trimEnd s)) as [x|] eqn:Hx; [|done].
  destruct (trimEnd_split s) as (r & Hsplit & _).
  apply (ws_prefix_app _ _ r) in Hx. rewrite <- Hsplit in Hx. congruence.
Qed.

(** [trim] gives the empty string exactly on the strings that are empty
    or white space only. *)
Lemma trim_empty s : trim s = EmptyString ↔ whitespaceOnly s = true.
Proof.
  unfold trim. rewrite trimEnd_empty, <- trimStart_empty.
  rewrite (trimStart_unfold (trimStart s)), ws_prefix_trimStart. done.
Qed.

Lemma trim_idem s : trim (trim s) = trim s.
Proof.
  unfold trim.
  rewrite (trimStart_unfold (trimEnd (trimStart s))).
  rewrite (ws_prefix_trimEnd _ (ws_prefix_trimStart s)).
  apply trimEnd_idem.
Qed.

Lemma length_zero_empty s : Nat.eqb (String.length s) 0 = true ↔ s = EmptyString.
Proof. destruct s; simpl; done. Qed.

(** ** Client messages *)

Section Handlers.

Variable N8N_WEBHOOK_URL : option string.
Variable ELEVENLABS_API_KEY : option string.
Variable Buffer_from_base64 : JValue → Outcome string.

Local Abbreviation deliver := (step N8N_WEBHOOK_URL ELEVENLABS_API_KEY Buffer_from_base64).

Local Abbreviation route := (routeToN8NWebhook N8N_WEBHOOK_URL).
Local Abbreviation url := (UNIFIED_WEBHOOK_URL N8N_WEBHOOK_URL).

(** The ways through [routeToN8NWebhook]. *)
Lemma routeToN8NWebhook_run w text vs s p re :
  heap w !! vs = Some s →
  route text vs p re w =
  match reGetSession re with
  | Throws e =>
      (Throw (rethrown re e),
       addEvents [GetSession (sessionId s);
                  CreateWebhookLog (errorRecordOf s p text e)] w)
  | Returns session =>
      match rePost re with
      | Returns data =>
          match reCreateWebhookLog re with
          | Returns _ =>
              (Ok data,
               addEvents [GetSession (sessionId s);
                          AxiosPost url (webhookPayloadOf s p text session (reNow re));
                          CreateWebhookLog (successRecordOf s p text url)] w)
          | Throws e =>
              (Throw (rethrown re e),
               addEvents [GetSession (sessionId s);
                          AxiosPost url (webhookPayloadOf s p text session (reNow re));
                          CreateWebhookLog (successRecordOf s p text url);
                          CreateWebhookLog (errorRecordOf s p text e)] w)
          end
      | Throws e =>
          (Throw (rethrown re e),
           addEvents [GetSession (sessionId s);
                      AxiosPost url (webhookPayloadOf s p text session (reNow re));
                      CreateWebhookLog (errorRecordOf s p text e)] w)
      end
  end.
Proof.
  intros Hvs. unfold routeToN8NWebhook, rethrown. run_using Hvs.
  destruct (reGetSession re) as [session|e];
    [destruct (rePost re) as [data|e]; [destruct (reCreateWebhookLog re) as [[]|e]|]|];
    run_using Hvs; destruct (reCreateErrorLog re) as [[]|e'];
    run_using Hvs; unfold addEvent, addEvents; simpl; rewrite <- ?app_assoc; reflexivity.
Qed.

(** C7, as the code has it.  A router call whose insert the audit store
    accepts adds exactly one audit record to the trace, as its last
    event.  The record has status ["success"] and the call returns the
    reply when the lookup and the POST both return; it has status
    ["error"], carries the text of the error, and the call raises that
    same error when either of them throws. *)
Theorem routeToN8NWebhook_logs_once w text vs s p re :
  heap w !! vs = Some s →
  auditAccepted re = true →
  ∃ record,
    auditRecords (newEvents w (exec (route text vs p re) w)) = [record] ∧
    last (trace (exec (route text vs p re) w)) = Some (CreateWebhookLog record) ∧
    opt_get record "sessionId" = JStr (sessionId s) ∧
    match reGetSession re, rePost re with
    | Returns _, Returns data =>
        result (route text vs p re) w = Ok data ∧
        opt_get record "status" = JStr "success"
    | Returns _, Throws e | Throws e, _ =>
        result (route text vs p re) w = Throw e ∧
        opt_get record "status" = JStr "error" ∧
        opt_get (opt_get record "responseData") "error" = JStr (exnToString e)
    end.
Proof.
  intros Hvs Hlog. unfold exec, result. rewrite (routeToN8NWebhook_run _ _ _ _ _ _ Hvs).
  unfold auditAccepted in Hlog. unfold rethrown.
  destruct (reGetSession re) as [session|e]; [destruct (rePost re) as [data|e]|].
  - destruct (reCreateWebhookLog re) as [[]|e]; [|done].
    exists (successRecordOf s p text url). simpl.
    erewrite newEvents_app by reflexivity.
    rewrite last_app. simpl. done.
  - destruct (reCreateErrorLog re) as [[]|e']; [|done].
    exists (errorRecordOf s p text e). simpl.
    erewrite newEvents_app by reflexivity.
    rewrite last_app. simpl. done.
  - destruct (reCreateErrorLog re) as [[]|e']; [|done].
    exists (errorRecordOf s p text e). simpl.
    erewrite newEvents_app by reflexivity.
    rewrite last_app. simpl. done.
Qed.

(** A call that fails is never swallowed, whatever the audit store
    does: when the lookup, the POST or the insert of the success record
    throws, the router raises. *)
Lemma routeToN8NWebhook_raises w text vs s p re :
  heap w !! vs = Some s →
  (routerReturns re && match reCreateWebhookLog re with Returns _ => true | _ => false end)
  = false →
  ∃ e, result (route text vs p re) w = Throw e.
Proof.
  intros Hvs Hre. unfold result. rewrite (routeToN8NWebhook_run _ _ _ _ _ _ Hvs).
  unfold routerReturns in Hre.
  destruct (reGetSession re) as [session|e]; [destruct (rePost re) as [data|e]|];
    simpl in *; eauto.
  destruct (reCreateWebhookLog re) as [[]|e]; simpl in *; [done|eauto].
Qed.

Lemma processTextInput_open w vs s ws text :
  heap w !! vs = Some s → elevenLabsWs s = Some ws → readyStateOf w ws = OPEN →
  processTextInput text vs w
  = (Ok tt, addEvent (TtsSend ws (JObj [("text", text);
                                         ("try_trigger_generation", JBool true)])) w).
Proof.
  intros Hvs Hws Hopen. unfold processTextInput. run_monad.
  rewrite Hvs. run_monad. rewrite Hws. run_monad. rewrite Hopen. reflexivity.
Qed.

Lemma handleStopSpeaking_open w vs s ws :
  heap w !! vs = Some s → elevenLabsWs s = Some ws → readyStateOf w ws = OPEN →
  handleStopSpeaking vs w
  = (Ok tt, addEvent (TtsSend ws (JObj [("text", JStr EmptyString); ("flush", JBool true)])) w).
Proof.
  intros Hvs Hws Hopen. unfold handleStopSpeaking. run_monad.
  rewrite Hvs. run_monad. rewrite Hws. run_monad. rewrite Hopen. reflexivity.
Qed.

Lemma readyStateOf_addEvents evs w ws : readyStateOf (addEvents evs w) ws = readyStateOf w ws.
Proof. reflexivity. Qed.

(** A [text_input] message: the router, then the synthesis link. *)
Lemma onClientMessage_text_input w c vs k s fields me :
  heap w !! vs = Some s →
  assoc "type" fields = JStr "text_input" →
  onClientMessage N8N_WEBHOOK_URL Buffer_from_base64 c vs k (Some (JObj fields)) me w =
  match route (assoc "text" fields) vs (personality s) (meRouter me) w with
  | (Ok reply, w1) =>
      try_catch
        (processTextInput
           (jor (jor (opt_get reply "response") (opt_get reply "text")) (assoc "text" fields))
           vs)
        (λ _, ret tt) w1
  | (Throw _, w1) => (Ok tt, w1)
  end.
Proof.
  intros Hvs Htype. unfold onClientMessage. run_using Hvs. rewrite Htype. run_using Hvs.
  destruct (route _ _ _ _ w) as [[reply|e] w1]; reflexivity.
Qed.

(** C8. On a session of personality ["Savantist"] with an open synthesis
    link, the message [{type: "text_input", text: "Hello"}] asks the
    session lookup, posts a payload with personality ["Savantist"],
    modality ["VOICE"] and content ["Hello"], writes the audit record,
    and, the router returning a reply with [response = "Hi there"],
    sends the link [{text: "Hi there", try_trigger_generation: true}];
    the transcription provider is not called.  The router returns when
    the lookup, the POST and the insert of the audit record return.  For
    any submitted text, a reply with no truthy [response] and no truthy
    [text] makes the submitted text the text of the frame; in general
    the text of the frame is [response], else [text], else the
    submitted text. *)
Theorem text_input_routes_and_synthesizes w l h s ws g session now elog :
  listeners w !! l = Some h →
  heap w !! lSession h = Some s →
  personality s = "Savantist" →
  elevenLabsWs s = Some ws →
  readyStateOf w ws = OPEN →
  (∀ reply, opt_get reply "response" = JStr "Hi there" →
     ∃ payload record,
       newEvents w
         (deliver w
            (ClientMessage l
               (Some (JObj [("type", JStr "text_input"); ("text", JStr "Hello")]))
               (mkMessageEnv g
                  (mkRouterEnv (Returns session) now (Returns reply) (Returns tt) elog))))
       = [GetSession (sessionId s); AxiosPost url payload; CreateWebhookLog record;
          TtsSend ws (JObj [("text", JStr "Hi there");
                            ("try_trigger_generation", JBool true)])] ∧
       opt_get payload "personality" = JStr "Savantist" ∧
       opt_get payload "modality" = JStr "VOICE" ∧
       opt_get payload "content" = JStr "Hello") ∧
  (∀ reply text,
     truthy (opt_get reply "response") = false →
     truthy (opt_get reply "text") = false →
     ∃ payload record,
       newEvents w
         (deliver w
            (ClientMessage l
               (Some (JObj [("type", JStr "text_input"); ("text", text)]))
               (mkMessageEnv g
                  (mkRouterEnv (Returns session) now (Returns reply) (Returns tt) elog))))
       = [GetSession (sessionId s); AxiosPost url payload; CreateWebhookLog record;
          TtsSend ws (JObj [("text", text); ("try_trigger_generation", JBool true)])] ∧
       opt_get payload "content" = text) ∧
  (∀ reply text,
     newEvents w
       (deliver w
          (ClientMessage l
             (Some (JObj [("type", JStr "text_input"); ("text", text)]))
             (mkMessageEnv g
                (mkRouterEnv (Returns session) now (Returns reply) (Returns tt) elog))))
     = [GetSession (sessionId s);
        AxiosPost url (webhookPayloadOf s "Savantist" text session now);
        CreateWebhookLog (successRecordOf s "Savantist" text url);
        TtsSend ws (textFrame (replyText reply text))]).
Proof.
  intros Hl Hvs Hp Hws Hopen.
  assert (Hrun : ∀ reply text,
    deliver w
      (ClientMessage l (Some (JObj [("type", JStr "text_input"); ("text", text)]))
         (mkMessageEnv g
            (mkRouterEnv (Returns session) now (Returns reply) (Returns tt) elog)))
    = addEvents
        [GetSession (sessionId s);
         AxiosPost url (webhookPayloadOf s "Savantist" text session now);
         CreateWebhookLog (successRecordOf s "Savantist" text url);
         TtsSend ws (JObj [("text", jor (jor (opt_get reply "response")
                                             (opt_get reply "text")) text);
                           ("try_trigger_generation", JBool true)])] w).
  { intros reply text. unfold step, dispatch, exec. unfold bind at 1, gets at 1.
    rewrite Hl.
    rewrite (onClientMessage_text_input _ _ _ _ _
               [("type", JStr "text_input"); ("text", text)] _ Hvs eq_refl).
    rewrite (routeToN8NWebhook_run _ _ _ _ _ _ Hvs). simpl. rewrite Hp.
    unfold try_catch.
    rewrite (processTextInput_open (addEvents _ w) _ s ws _ Hvs Hws Hopen).
    unfold addEvent, addEvents. simpl. by rewrite <- app_assoc. }
  split; [|split].
  - intros reply Hreply. do 2 eexists. rewrite Hrun.
    split; [apply newEvents_app; simpl; unfold jor; rewrite Hreply; reflexivity|].
    done.
  - intros reply text Hr Ht. do 2 eexists. rewrite Hrun.
    split; [apply newEvents_app; simpl; unfold jor; rewrite Hr, Ht; reflexivity|].
    done.
  - intros reply text. rewrite Hrun. by apply newEvents_app.
Qed.

(** ** Transcription *)

Local Abbreviation transcribe := (transcribeAudio Buffer_from_base64).
Local Abbreviation audioInput := (processAudioInput N8N_WEBHOOK_URL Buffer_from_base64).

(** The ways through [transcribeAudio]. *)
Lemma transcribeAudio_run w audioData g :
  transcribe audioData g w =
  match Buffer_from_base64 audioData with
  | Throws _ => (Throw (Error "Failed to transcribe audio"), w)
  | Returns audio =>
      match g with
      | Returns (Some text) =>
          if whitespaceOnly text
          then (Throw (Error "Failed to transcribe audio"), addEvent (GenerateContent audio) w)
          else (Ok (trim text), addEvent (GenerateContent audio) w)
      | Returns None | Throws _ =>
          (Throw (Error "Failed to transcribe audio"), addEvent (GenerateContent audio) w)
      end
  end.
Proof.
  unfold transcribeAudio. run_monad.
  destruct (Buffer_from_base64 audioData) as [audio|e]; run_monad; [|done].
  destruct g as [[text|]|e]; run_monad; try done.
  destruct (whitespaceOnly text) eqn:Hws.
  - apply trim_empty in Hws. rewrite Hws. reflexivity.
  - destruct (Nat.eqb (String.length (trim text)) 0) eqn:Hlen; [|done].
    apply length_zero_empty, trim_empty in Hlen. congruence.
Qed.

(** [transcribeAudio] returns no string that is empty or white space
    only: the test for one in [processAudioInput] never succeeds. *)
Lemma transcribeAudio_never_blank w audioData g t :
  result (transcribe audioData g) w = Ok t →
  (Nat.eqb (String.length t) 0 || Nat.eqb (String.length (trim t)) 0) = false.
Proof.
  unfold result. rewrite transcribeAudio_run.
  destruct (Buffer_from_base64 audioData); [|done].
  destruct g as [[text|]|]; try done.
  destruct (whitespaceOnly text) eqn:Hws; [done|]. simpl. intros [= <-].
  rewrite trim_idem.
  destruct (Nat.eqb (String.length (trim text)) 0) eqn:Hlen; [|done].
  apply length_zero_empty, trim_empty in Hlen. congruence.
Qed.

(** An [audio_input] message whose transcription fails. *)
Lemma processAudioInput_transcription_fails w audioData vs c me :
  (∀ t, meGenerateContent me = Returns (Some t) → whitespaceOnly t = true) →
  audioInput audioData vs c me w =
  (Ok tt,
   addEvents
     (ClientSend c audioProcessingMsg ::
      match Buffer_from_base64 audioData with
      | Returns audio => [GenerateContent audio]
      | Throws _ => []
      end ++ [ClientSend c audioErrorMsg]) w).
Proof.
  intros Hg. unfold processAudioInput.
  unfold try_catch, bind at 1, clientSend at 1, emit at 1, modify at 1.
  unfold bind at 1. rewrite transcribeAudio_run.
  destruct (Buffer_from_base64 audioData) as [audio|e].
  - assert (Hfail :
      match meGenerateContent me with
      | Returns (Some text) =>
          if whitespaceOnly text
          then (Throw (Error "Failed to transcribe audio"),
                addEvent (GenerateContent audio) (addEvent (ClientSend c audioProcessingMsg) w))
          else (Ok (trim text),
                addEvent (GenerateContent audio) (addEvent (ClientSend c audioProcessingMsg) w))
      | _ => (Throw (Error "Failed to transcribe audio"),
              addEvent (GenerateContent audio) (addEvent (ClientSend c audioProcessingMsg) w))
      end = (Throw (Error "Failed to transcribe audio"),
             addEvent (GenerateContent audio) (addEvent (ClientSend c audioProcessingMsg) w))).
    { destruct (meGenerateContent me) as [[t|]|]; try done. by rewrite (Hg t eq_refl). }
    unfold audioProcessingMsg in Hfail. rewrite Hfail. run_monad.
    unfold addEvent, addEvents. simpl. by rewrite <- !app_assoc.
  - run_monad. unfold addEvent, addEvents. simpl. by rewrite <- !app_assoc.
Qed.

(** When the provider's text for an [audio_input] message is empty or
    white space only, [transcribeAudio] raises and the client is sent
    [audio_processing] and then the error message; no [transcript] and
    no [ai_response] is sent, the router is not called, and nothing but
    the trace changes. *)
Lemma blank_transcription_reported_as_failure w l h fields me audio t :
  listeners w !! l = Some h →
  assoc "type" fields = JStr "audio_input" →
  Buffer_from_base64 (assoc "audio" fields) = Returns audio →
  meGenerateContent me = Returns (Some t) →
  whitespaceOnly t = true →
  deliver w (ClientMessage l (Some (JObj fields)) me)
  = addEvents [ClientSend (lClient h) audioProcessingMsg;
               GenerateContent audio;
               ClientSend (lClient h) audioErrorMsg] w.
Proof.
  intros Hl Htype Haudio Hg Ht. unfold step, dispatch, exec.
  unfold bind at 1, gets at 1. rewrite Hl. unfold onClientMessage.
  run_monad. rewrite Htype. run_monad.
  rewrite processAudioInput_transcription_fails.
  - rewrite Haudio. reflexivity.
  - intros t' Ht'. rewrite Hg in Ht'. by injection Ht' as <-.
Qed.

(** ** Failures while handling a message *)

(** A failed router call raises and leaves everything but the trace. *)
Lemma routeToN8NWebhook_fails w text vs s p re :
  heap w !! vs = Some s →
  routerReturns re = false →
  ∃ e evs,
    route text vs p re w = (Throw e, addEvents evs w) ∧ clientMessages evs = [].
Proof.
  intros Hvs Hre. rewrite (routeToN8NWebhook_run _ _ _ _ _ _ Hvs).
  unfold routerReturns in Hre.
  destruct (reGetSession re) as [session|e]; [destruct (rePost re) as [data|e]|];
    try done; eauto.
Qed.

(** On [audio_input], a failed router call is reported to the client,
    and only the trace changes. *)
Lemma audio_input_router_failure_reported w vs s c audioData audio t me :
  heap w !! vs = Some s →
  Buffer_from_base64 audioData = Returns audio →
  meGenerateContent me = Returns (Some t) →
  whitespaceOnly t = false →
  routerReturns (meRouter me) = false →
  ∃ evs, audioInput audioData vs c me w
         = (Ok tt, addEvents (evs ++ [ClientSend c audioErrorMsg]) w).
Proof.
  intros Hvs Haudio Hg Ht Hre. unfold processAudioInput.
  unfold try_catch, bind at 1, clientSend at 1, emit at 1, modify at 1.
  unfold bind at 1. rewrite transcribeAudio_run, Haudio, Hg, Ht.
  pose proof (transcribeAudio_never_blank w audioData (meGenerateContent me) (trim t)) as Hnb.
  unfold result in Hnb. rewrite transcribeAudio_run, Haudio, Hg, Ht in Hnb.
  rewrite (Hnb eq_refl).
  unfold bind at 1, clientSend at 1, emit at 1, modify at 1.
  unfold bind at 1, field at 1. simpl heap. rewrite Hvs.
  unfold bind at 1.
  edestruct (routeToN8NWebhook_fails
    (addEvent (ClientSend c (JObj [("type", JStr "transcript"); ("text", JStr (trim t))]))
       (addEvent (GenerateContent audio)
          (addEvent (ClientSend c (JObj [("type", JStr "audio_processing");
                                         ("message", JStr "Processing your speech...")])) w)))
    (JStr (trim t)) vs s (personality s) (meRouter me) Hvs Hre) as (e & evs & -> & _).
  exists (ClientSend c audioProcessingMsg :: GenerateContent audio ::
          ClientSend c (JObj [("type", JStr "transcript"); ("text", JStr (trim t))]) :: evs).
  unfold clientSend, emit, modify, addEvent, addEvents. simpl.
  rewrite <- !app_assoc. simpl. reflexivity.
Qed.

(** On [text_input], a failed router call is caught by the listener and
    the client is sent nothing; only the trace changes. *)
Lemma text_input_router_failure_silent w l h s fields me :
  listeners w !! l = Some h →
  heap w !! lSession h = Some s →
  assoc "type" fields = JStr "text_input" →
  routerReturns (meRouter me) = false →
  ∃ evs, deliver w (ClientMessage l (Some (JObj fields)) me) = addEvents evs w ∧
         clientMessages evs = [].
Proof.
  intros Hl Hvs Htype Hre. unfold step, dispatch, exec.
  unfold bind at 1, gets at 1. rewrite Hl.
  rewrite (onClientMessage_text_input _ _ _ _ _ _ _ Hvs Htype).
  destruct (routeToN8NWebhook_fails w (assoc "text" fields) _ _ (personality s)
              (meRouter me) Hvs Hre) as (e & evs & -> & Hevs).
  by exists evs.
Qed.

(** C10. With the synthesis socket absent or not OPEN, [processTextInput]
    and [handleStopSpeaking] return normally and leave the world as it
    was: no frame is sent, nothing is raised, the client is told
    nothing. *)
Theorem synthesis_link_not_open_drops w vs s text :
  heap w !! vs = Some s →
  (elevenLabsWs s = None ∨
   ∃ ws, elevenLabsWs s = Some ws ∧ readyStateOf w ws ≠ OPEN) →
  processTextInput text vs w = (Ok tt, w) ∧ handleStopSpeaking vs w = (Ok tt, w).
Proof.
  intros Hvs Hlink. unfold processTextInput, handleStopSpeaking. run_monad.
  rewrite Hvs. run_monad.
  destruct Hlink as [-> | (ws & -> & Hstate)]; [done|]. run_monad.
  destruct (readyStateOf w ws); done.
Qed.

(** C9. On a session whose synthesis link is open, a [stop] message sends
    the link one frame, an empty [text] with [flush: true], and nothing else
    leaves the service; registry, session objects and sockets are as
    before, so the session is still registered and active. *)
Theorem stop_flushes_once w l h s ws fields me :
  listeners w !! l = Some h →
  heap w !! lSession h = Some s →
  elevenLabsWs s = Some ws →
  readyStateOf w ws = OPEN →
  assoc "type" fields = JStr "stop" →
  newEvents w (deliver w (ClientMessage l (Some (JObj fields)) me))
  = [TtsSend ws (JObj [("text", JStr EmptyString); ("flush", JBool true)])] ∧
  sameState w (deliver w (ClientMessage l (Some (JObj fields)) me)).
Proof.
  intros Hl Hvs Hws Hopen Htype.
  unfold step, dispatch, onClientMessage. run_monad.
  rewrite Hl. run_monad. rewrite Htype. run_monad.
  rewrite (handleStopSpeaking_open _ _ _ _ Hvs Hws Hopen). simpl.
  split; [by apply newEvents_app | done].
Qed.

End Handlers.

Lemma routeToN8NWebhook_logs_once_witness :
  ∃ record,
    auditRecords
      (newEvents sampleWorld
         (exec (routeToN8NWebhook None (JStr "Hello") 0%nat "Savantist"
                  (meRouter failingMessage)) sampleWorld)) = [record] ∧
    last (trace (exec (routeToN8NWebhook None (JStr "Hello") 0%nat "Savantist"
                         (meRouter failingMessage)) sampleWorld))
    = Some (CreateWebhookLog record) ∧
    opt_get record "sessionId" = JStr (sessionId sampleSession) ∧
    match reGetSession (meRouter failingMessage), rePost (meRouter failingMessage) with
    | Returns _, Returns data =>
        result (routeToN8NWebhook None (JStr "Hello") 0%nat "Savantist"
                  (meRouter failingMessage)) sampleWorld = Ok data ∧
        opt_get record "status" = JStr "success"
    | Returns _, Throws e | Throws e, _ =>
        result (routeToN8NWebhook None (JStr "Hello") 0%nat "Savantist"
                  (meRouter failingMessage)) sampleWorld = Throw e ∧
        opt_get record "status" = JStr "error" ∧
        opt_get (opt_get record "responseData") "error" = JStr (exnToString e)
    end.
Proof.
  apply (routeToN8NWebhook_logs_once None sampleWorld (JStr "Hello") 0%nat sampleSession
           "Savantist" (meRouter failingMessage)); vm_compute; reflexivity.
Defined.

(** C7 fails as stated.  The lookup and the POST returning and the
    audit store rejecting the insert of the success record, the router
    makes two inserts, the second one with status ["error"], and raises
    the error of the store although the outbound call has succeeded. *)
Lemma rejected_audit_insert_logs_twice :
  rePost (rejectingAudit (JObj [("response", JStr "Hi there")]))
  = Returns (JObj [("response", JStr "Hi there")]) ∧
  auditRecords
    (newEvents sampleWorld
       (exec (routeToN8NWebhook None (JStr "Hello") 0%nat "Savantist"
                (rejectingAudit (JObj [("response", JStr "Hi there")]))) sampleWorld))
  = [successRecordOf sampleSession "Savantist" (JStr "Hello") (UNIFIED_WEBHOOK_URL None);
     errorRecordOf sampleSession "Savantist" (JStr "Hello") (Error "insert failed")] ∧
  result (routeToN8NWebhook None (JStr "Hello") 0%nat "Savantist"
            (rejectingAudit (JObj [("response", JStr "Hi there")]))) sampleWorld
  = Throw (Error "insert failed").
Proof. repeat apply conj; vm_compute; reflexivity. Qed.

Lemma text_input_routes_and_synthesizes_witness :
  (∃ payload record,
     newEvents sampleWorld
       (sampleStep sampleWorld
          (ClientMessage 0 (textInput "Hello")
             (sampleMessage (JObj [("response", JStr "Hi there")]))))
     = [GetSession "s"; AxiosPost (UNIFIED_WEBHOOK_URL None) payload;
        CreateWebhookLog record;
        TtsSend 0 (JObj [("text", JStr "Hi there");
                         ("try_trigger_generation", JBool true)])] ∧
     opt_get payload "personality" = JStr "Savantist" ∧
     opt_get payload "modality" = JStr "VOICE" ∧
     opt_get payload "content" = JStr "Hello") ∧
  (∃ payload record,
     newEvents sampleWorld
       (sampleStep sampleWorld
          (ClientMessage 0 (textInput "Hello")
             (sampleMessage (JObj [("success", JBool false)]))))
     = [GetSession "s"; AxiosPost (UNIFIED_WEBHOOK_URL None) payload;
        CreateWebhookLog record;
        TtsSend 0 (JObj [("text", JStr "Hello");
                         ("try_trigger_generation", JBool true)])] ∧
     opt_get payload "content" = JStr "Hello") ∧
  newEvents sampleWorld
    (sampleStep sampleWorld
       (ClientMessage 0 (textInput "Hello") (sampleMessage (JObj [("text", JStr "Hi")]))))
  = [GetSession "s";
     AxiosPost (UNIFIED_WEBHOOK_URL None)
       (webhookPayloadOf sampleSession "Savantist" (JStr "Hello") JUndefined 2000);
     CreateWebhookLog
       (successRecordOf sampleSession "Savantist" (JStr "Hello") (UNIFIED_WEBHOOK_URL None));
     TtsSend 0 (textFrame (replyText (JObj [("text", JStr "Hi")]) (JStr "Hello")))].
Proof.
  destruct (text_input_routes_and_synthesizes None None sampleBuffer sampleWorld 0%nat
              (mkListener 7 0 "s-voice-1000") sampleSession 0%nat
              (Returns (Some "hello there")) JUndefined 2000 (Returns tt)
              ltac:(vm_compute; reflexivity) ltac:(vm_compute; reflexivity)
              eq_refl eq_refl ltac:(vm_compute; reflexivity)) as (Hhi & Hfallback & Hany).
  split; [|split].
  - exact (Hhi (JObj [("response", JStr "Hi there")]) eq_refl).
  - exact (Hfallback (JObj [("success", JBool false)]) (JStr "Hello") eq_refl eq_refl).
  - exact (Hany (JObj [("text", JStr "Hi")]) (JStr "Hello")).
Defined.

Lemma synthesis_link_not_open_drops_witness :
  processTextInput (JStr "Hi there") 0%nat sampleConnecting = (Ok tt, sampleConnecting) ∧
  handleStopSpeaking 0%nat sampleConnecting = (Ok tt, sampleConnecting).
Proof.
  apply (synthesis_link_not_open_drops sampleConnecting 0%nat
           (mkSession "s" "c" "Savantist" (Some 0%nat) true 1000)).
  - vm_compute; reflexivity.
  - right. exists 0%nat. split; [reflexivity | vm_compute; discriminate].
Defined.

Lemma stop_flushes_once_witness :
  newEvents sampleWorld
    (step None None sampleBuffer sampleWorld
       (ClientMessage 0 (Some (JObj [("type", JStr "stop")])) (sampleMessage JNull)))
  = [TtsSend 0 (JObj [("text", JStr EmptyString); ("flush", JBool true)])] ∧
  sameState sampleWorld
    (step None None sampleBuffer sampleWorld
       (ClientMessage 0 (Some (JObj [("type", JStr "stop")])) (sampleMessage JNull))).
Proof.
  apply (stop_flushes_once None None sampleBuffer sampleWorld 0%nat
           (mkListener 7 0 "s-voice-1000") sampleSession 0%nat);
    vm_compute; reflexivity.
Defined.

(** C6 fails on [text_input].  With the endpoint unreachable, the
    message [{type: "text_input", text: "Hello"}] writes its audit record
    and the client is sent nothing, where the same failure on
    [audio_input] ends with the error message; in both cases only the
    trace changes, and a later [stop] is still handled. *)
Theorem text_input_failure_not_reported :
  clientMessages
    (newEvents sampleWorld
       (sampleStep sampleWorld (ClientMessage 0 (textInput "Hello") failingMessage))) = [] ∧
  auditRecords
    (newEvents sampleWorld
       (sampleStep sampleWorld (ClientMessage 0 (textInput "Hello") failingMessage)))
  = [errorRecordOf sampleSession "Savantist" (JStr "Hello") (Error "Network Error")] ∧
  clientMessages
    (newEvents sampleWorld
       (sampleStep sampleWorld (ClientMessage 0 (audioInputMsg "AAAA") failingMessage)))
  = [audioProcessingMsg;
     JObj [("type", JStr "transcript"); ("text", JStr "hello there")];
     audioErrorMsg] ∧
  sameState sampleWorld
    (sampleStep sampleWorld (ClientMessage 0 (textInput "Hello") failingMessage)) ∧
  newEvents
    (sampleStep sampleWorld (ClientMessage 0 (textInput "Hello") failingMessage))
    (sampleStep
       (sampleStep sampleWorld (ClientMessage 0 (textInput "Hello") failingMessage))
       (ClientMessage 0 (Some (JObj [("type", JStr "stop")])) failingMessage))
  = [TtsSend 0 (JObj [("text", JStr EmptyString); ("flush", JBool true)])].
Proof. unfold sameState. repeat apply conj; vm_compute; reflexivity. Qed.

(** C4 fails on the code.  The provider answering three spaces to an
    [audio_input] message, the client is sent [audio_processing] and
    then the error message "Failed to process audio"; the test for an
    empty transcript in [processAudioInput] is never reached, because
    [transcribeAudio] raises on an empty transcript. *)
Theorem blank_transcription_sends_error :
  whitespaceOnly "   " = true ∧
  newEvents sampleWorld
    (sampleStep sampleWorld
       (ClientMessage 0 (audioInputMsg "AAAA")
          (mkMessageEnv (Returns (Some "   ")) (sampleRouter JNull))))
  = [ClientSend 7 audioProcessingMsg; GenerateContent "AAAA"; ClientSend 7 audioErrorMsg].
Proof. split; vm_compute; reflexivity. Qed.

(** ** The registry *)

(** Set-up that succeeds adds the primary and the secondary entry and
    registers the listener; set-up that fails leaves neither entry. *)
Lemma initializeVoiceSession_run w c sid cid p ie :
  initializeVoiceSession c sid cid p ie w =
  (Ok tt,
   match ieNewWebSocket ie with
   | Returns _ =>
       mkWorld (<[streamSessionIdOf sid (ieNowId ie) := nextRef w]> (activeSessions w))
               (<[sid := streamSessionIdOf sid (ieNowId ie)]> (sessionKeyMap w))
               (<[nextRef w := mkSession sid cid p (Some (nextSocket w)) true (ieNowStart ie)]>
                  (<[nextRef w := mkSession sid cid p None true (ieNowStart ie)]> (heap w)))
               (S (nextRef w))
               (<[nextSocket w := mkSocket CONNECTING c (nextRef w)]> (sockets w))
               (S (nextSocket w))
               (listeners w ++ [mkListener c (nextRef w) (streamSessionIdOf sid (ieNowId ie))])
               (trace w ++ [ClientSend c (JObj [("type", JStr "voice_ready");
                                                ("message", JStr "Voice streaming ready")])])
   | Throws _ =>
       mkWorld (delete (streamSessionIdOf sid (ieNowId ie))
                  (<[streamSessionIdOf sid (ieNowId ie) := nextRef w]> (activeSessions w)))
               (delete sid (<[sid := streamSessionIdOf sid (ieNowId ie)]> (sessionKeyMap w)))
               (<[nextRef w := mkSession sid cid p None false (ieNowStart ie)]>
                  (<[nextRef w := mkSession sid cid p None true (ieNowStart ie)]> (heap w)))
               (S (nextRef w)) (sockets w) (nextSocket w) (listeners w)
               (trace w ++
                [ClientSend c (JObj [("type", JStr "error");
                                     ("message", JStr "Failed to initialize voice streaming")]);
                 IncrementVoiceMinutes sid
                   (Math_ceil_div (ceNow (ieCleanup ie) - ieNowStart ie) (60 * 1000))])
   end).
Proof.
  unfold initializeVoiceSession, initializeElevenLabs, initializeGeminiLive,
    setupClientHandlers, newSession, newWebSocket, addListener.
  destruct (ieNewWebSocket ie) as [[]|e]; run_monad.
  - unfold updated, setHeap. run_monad. reflexivity.
  - erewrite (cleanupSession_registered _ _ (nextRef w)
                (mkSession sid cid p None true (ieNowStart ie)));
      [| apply lookup_insert_eq | apply lookup_insert_eq ].
    f_equal. apply world_ext; simpl; try reflexivity.
    by rewrite <- app_assoc.
Qed.

(** Teardown of one stream removes the secondary entry of its session
    whatever stream that entry points to, and leaves the other streams
    registered. *)
Lemma cleanupSession_drops_index w k k' vs vs' s ce :
  activeSessions w !! k = Some vs →
  heap w !! vs = Some s →
  k' ≠ k →
  activeSessions w !! k' = Some vs' →
  activeSessions (exec (cleanupSession k ce) w) !! k' = Some vs' ∧
  sessionKeyMap (exec (cleanupSession k ce) w) !! sessionId s = None.
Proof.
  intros Hk Hvs Hne Hk'. unfold exec.
  rewrite (cleanupSession_registered _ _ _ _ _ Hk Hvs). simpl.
  destruct (closeLink_fields (elevenLabsWs s)
    (addEvent (IncrementVoiceMinutes (sessionId s)
       (Math_ceil_div (ceNow ce - startTime s) (60 * 1000)))
       (setHeap <[vs:=withIsActive false s]> w))) as (-> & -> & _).
  simpl. split; [by rewrite lookup_delete_ne | apply lookup_delete_eq].
Qed.

(** C2 fails on overlapping streams of one session.  Session ["s"]
    opens a stream at time 1000 and another at time 2000; when the first
    is closed, the second is still registered and active, and the
    secondary index, which pointed to it, has no entry for ["s"]. *)
Theorem overlapping_streams_lose_index :
  sessionKeyMap
    (sampleRun [Initialize 7 "s" "c" "Savantist" (sampleInit 1000);
                Initialize 8 "s" "c" "Savantist" (sampleInit 2000)]) !! "s"
  = Some "s-voice-2000" ∧
  activeSessions overlappingRun !! "s-voice-2000" = Some 1%nat ∧
  heap overlappingRun !! 1%nat
  = Some (mkSession "s" "c" "Savantist" (Some 1%nat) true 2000) ∧
  sessionKeyMap overlappingRun !! "s" = None.
Proof. repeat apply conj; vm_compute; reflexivity. Qed.

(** ** The session identifier of a session object *)

Section Preservation.

Variable vs : nat.
Variable sid : string.
Variable E : Event → Prop.

Lemma keeps_ret {A} (a : A) : keeps vs sid E (ret a).
Proof. intros w Hw. split; [done|]. exists []. by rewrite app_nil_r. Qed.

Lemma keeps_throw {A} e : keeps vs sid E (@throw A e).
Proof. intros w Hw. split; [done|]. exists []. by rewrite app_nil_r. Qed.

Lemma keeps_gets {A} (f : World → A) : keeps vs sid E (gets f).
Proof. intros w Hw. split; [done|]. exists []. by rewrite app_nil_r. Qed.

Lemma keeps_await {A} (o : Outcome A) : keeps vs sid E (await o).
Proof. destruct o; [apply keeps_ret | apply keeps_throw]. Qed.

Lemma keeps_bind {A B} (m : M A) (f : A → M B) :
  keeps vs sid E m → (∀ a, keeps vs sid E (f a)) → keeps vs sid E (bind m f).
Proof.
  intros Hm Hf w Hw. destruct (Hm w Hw) as (Hw1 & evs1 & Ht1 & HE1).
  unfold exec, bind in *. destruct (m w) as [[a|e] w1]; simpl in *; [|eauto].
  destruct (Hf a w1 Hw1) as (Hw2 & evs2 & Ht2 & HE2). unfold exec in *.
  split; [done|]. exists (evs1 ++ evs2).
  rewrite Ht2, Ht1, app_assoc. split; [done|]. by apply Forall_app.
Qed.

Lemma keeps_try_catch {A} (m : M A) (h : Exn → M A) :
  keeps vs sid E m → (∀ e, keeps vs sid E (h e)) → keeps vs sid E (try_catch m h).
Proof.
  intros Hm Hh w Hw. destruct (Hm w Hw) as (Hw1 & evs1 & Ht1 & HE1).
  unfold exec, try_catch in *. destruct (m w) as [[a|e] w1]; simpl in *; [eauto|].
  destruct (Hh e w1 Hw1) as (Hw2 & evs2 & Ht2 & HE2). unfold exec in *.
  split; [done|]. exists (evs1 ++ evs2).
  rewrite Ht2, Ht1, app_assoc. split; [done|]. by apply Forall_app.
Qed.

Lemma keeps_modify (f : World → World) :
  (∀ w, owned vs sid w → owned vs sid (f w) ∧ trace (f w) = trace w) →
  keeps vs sid E (modify f).
Proof.
  intros Hf w Hw. destruct (Hf w Hw) as [Hw' Ht]. split; [done|].
  exists []. unfold exec, modify. simpl. by rewrite app_nil_r.
Qed.

Lemma keeps_emit e : E e → keeps vs sid E (emit e).
Proof.
  intros He w Hw. split; [done|]. exists [e]. split; [done|]. by apply Forall_singleton.
Qed.

Lemma keeps_field {A} (f : VoiceStreamingSession → A) vs' : keeps vs sid E (field f vs').
Proof.
  intros w Hw. unfold exec, field. destruct (heap w !! vs'); simpl;
    (split; [done|]; exists []; by rewrite app_nil_r).
Qed.

(** A field of the session object itself is read from an object that
    carries [sid]. *)
Lemma keeps_field_own {A B} (f : VoiceStreamingSession → A) (k : A → M B) :
  (∀ s, sessionId s = sid → keeps vs sid E (k (f s))) →
  keeps vs sid E (bind (field f vs) k).
Proof.
  intros Hk w Hw. pose proof Hw as (_ & s & Hs & Hsid).
  unfold exec, bind, field. rewrite Hs. apply (Hk s Hsid w Hw).
Qed.

Lemma keeps_update (f : VoiceStreamingSession → VoiceStreamingSession) vs' :
  (∀ s, sessionId (f s) = sessionId s) → keeps vs sid E (update f vs').
Proof.
  intros Hf. apply keeps_modify. intros w (Hlt & s & Hs & Hsid). split; [|done].
  split; [done|]. unfold updated, setHeap. simpl.
  destruct (heap w !! vs') as [s'|] eqn:Hs'; [|eauto].
  destruct (decide (vs' = vs)) as [->|Hne].
  - exists (f s'). rewrite lookup_insert_eq. split; [done|]. rewrite Hf. congruence.
  - exists s. by rewrite lookup_insert_ne.
Qed.

Lemma keeps_setActiveSessions g : keeps vs sid E (modify (setActiveSessions g)).
Proof. by apply keeps_modify. Qed.

Lemma keeps_setSessionKeyMap g : keeps vs sid E (modify (setSessionKeyMap g)).
Proof. by apply keeps_modify. Qed.

Lemma keeps_setReadyState ws r : keeps vs sid E (setReadyState ws r).
Proof. by apply keeps_modify. Qed.

Lemma keeps_wsClose ws : E (TtsClose ws) → keeps vs sid E (wsClose ws).
Proof.
  intros He. apply keeps_bind; [by apply keeps_emit|]. intros _.
  apply keeps_modify. intros w Hw. unfold owned.
  by destruct (closing_fields ws w) as (_ & _ & -> & -> & _ & _ & ->).
Qed.

Lemma keeps_addListener l : keeps vs sid E (addListener l).
Proof. by apply keeps_modify. Qed.

Lemma keeps_newWebSocket c v : keeps vs sid E (newWebSocket c v).
Proof. intros w Hw. split; [done|]. exists []. simpl. by rewrite app_nil_r. Qed.

Lemma keeps_newSession s : keeps vs sid E (newSession s).
Proof.
  intros w (Hlt & s' & Hs' & Hsid). split.
  - split; [simpl; lia|]. exists s'. simpl. rewrite lookup_insert_ne by lia. done.
  - exists []. simpl. by rewrite app_nil_r.
Qed.

End Preservation.

Lemma filedUnder_none sid e : eventSessionId e = None → filedUnder sid e.
Proof. intros He x. by rewrite He. Qed.

Ltac keeps_side :=
  solve [ exact I
        | apply filedUnder_none; reflexivity
        | intros ? [= <-]; simpl; congruence ].

Ltac keeps_step :=
  cbv beta zeta;
  lazymatch goal with
  | |- keeps _ _ _ (bind (field _ _) _) =>
      first [ apply keeps_field_own; intros ? ?
            | apply keeps_bind; [apply keeps_field | intros ?] ]
  | |- keeps _ _ _ (bind _ _) => apply keeps_bind; [| intros ?]
  | |- keeps _ _ _ (try_catch _ _) => apply keeps_try_catch; [| intros ?]
  | |- keeps _ _ _ (ret _) => apply keeps_ret
  | |- keeps _ _ _ (throw _) => apply keeps_throw
  | |- keeps _ _ _ (gets _) => apply keeps_gets
  | |- keeps _ _ _ (await _) => apply keeps_await
  | |- keeps _ _ _ (emit _) => apply keeps_emit; keeps_side
  | |- keeps _ _ _ (clientSend _ _) => apply keeps_emit; keeps_side
  | |- keeps _ _ _ (field _ _) => apply keeps_field
  | |- keeps _ _ _ (update _ _) => apply keeps_update; reflexivity
  | |- keeps _ _ _ (modify (setActiveSessions _)) => apply keeps_setActiveSessions
  | |- keeps _ _ _ (modify (setSessionKeyMap _)) => apply keeps_setSessionKeyMap
  | |- keeps _ _ _ (setReadyState _ _) => apply keeps_setReadyState
  | |- keeps _ _ _ (wsClose _) => apply keeps_wsClose; keeps_side
  | |- keeps _ _ _ (addListener _) => apply keeps_addListener
  | |- keeps _ _ _ (newWebSocket _ _) => apply keeps_newWebSocket
  | |- keeps _ _ _ (newSession _) => apply keeps_newSession
  | |- keeps _ _ _ (JSON_parse _) => unfold JSON_parse
  | |- keeps _ _ _ (get _ _) => unfold get
  | |- keeps _ _ _ (match ?x with _ => _ end) => destruct x
  end.

Ltac keeps_all := repeat keeps_step.

Section Operations.

Variable N8N_WEBHOOK_URL : option string.
Variable ELEVENLABS_API_KEY : option string.
Variable Buffer_from_base64 : JValue → Outcome string.
Variable vs : nat.
Variable sid : string.

Lemma keeps_cleanupSession k ce : keeps vs sid anyEvent (cleanupSession k ce).
Proof. unfold cleanupSession, cleanupSession_enter, cleanupSession_report,
    cleanupSession_leave. keeps_all. Qed.

Lemma keeps_onClientMessage_any c vs' k data me :
  keeps vs sid anyEvent
    (onClientMessage N8N_WEBHOOK_URL Buffer_from_base64 c vs' k data me).
Proof.
  unfold onClientMessage, processAudioInput, transcribeAudio, routeToN8NWebhook,
    processTextInput, handleStopSpeaking.
  keeps_all.
Qed.

(** Handling a message of the session's own client files every audit
    record under the session's [sessionId]. *)
Lemma keeps_onClientMessage_own c k data me :
  keeps vs sid (filedUnder sid)
    (onClientMessage N8N_WEBHOOK_URL Buffer_from_base64 c vs k data me).
Proof.
  unfold onClientMessage, processAudioInput, transcribeAudio, routeToN8NWebhook,
    processTextInput, handleStopSpeaking.
  keeps_all.
Qed.

Lemma keeps_onElevenLabsMessage_any c vs' data ae :
  keeps vs sid anyEvent (onElevenLabsMessage c vs' data ae).
Proof. unfold onElevenLabsMessage, cacheAudioOutput. keeps_all. Qed.

(** A final audio fragment of the session's own link is cached under
    the session's [sessionId]. *)
Lemma keeps_onElevenLabsMessage_own c data ae :
  keeps vs sid (filedUnder sid) (onElevenLabsMessage c vs data ae).
Proof. unfold onElevenLabsMessage, cacheAudioOutput. keeps_all. Qed.

Lemma keeps_initializeVoiceSession c sid' cid p ie :
  keeps vs sid anyEvent (initializeVoiceSession c sid' cid p ie).
Proof.
  unfold initializeVoiceSession, initializeElevenLabs, initializeGeminiLive,
    setupClientHandlers.
  repeat first [ apply keeps_cleanupSession | keeps_step ].
Qed.

(** Whatever reaches the service, a session object keeps its
    [sessionId]. *)
Lemma keeps_dispatch i :
  keeps vs sid anyEvent
    (dispatch N8N_WEBHOOK_URL ELEVENLABS_API_KEY Buffer_from_base64 i).
Proof.
  unfold dispatch, onClientClose, onElevenLabsOpen, onElevenLabsError.
  destruct i;
    repeat first [ apply keeps_initializeVoiceSession | apply keeps_onClientMessage_any
                 | apply keeps_cleanupSession | apply keeps_onElevenLabsMessage_any
                 | keeps_step ].
Qed.

Lemma owned_run w inputs :
  owned vs sid w →
  owned vs sid (run N8N_WEBHOOK_URL ELEVENLABS_API_KEY Buffer_from_base64 w inputs).
Proof.
  revert w. induction inputs as [|i inputs IH]; intros w Hw; [done|].
  simpl. apply IH. by apply (keeps_dispatch i w Hw).
Qed.

End Operations.

Section SessionId.

Variable N8N_WEBHOOK_URL : option string.
Variable ELEVENLABS_API_KEY : option string.
Variable Buffer_from_base64 : JValue → Outcome string.

Local Abbreviation deliver := (step N8N_WEBHOOK_URL ELEVENLABS_API_KEY Buffer_from_base64).
Local Abbreviation deliverAll := (run N8N_WEBHOOK_URL ELEVENLABS_API_KEY Buffer_from_base64).

Lemma initialize_owned w c sid cid p ie :
  owned (nextRef w) sid (deliver w (Initialize c sid cid p ie)).
Proof.
  unfold step, dispatch, exec. rewrite initializeVoiceSession_run. unfold owned.
  destruct (ieNewWebSocket ie); simpl; (split; [lia|]);
    eexists; (split; [apply lookup_insert_eq | reflexivity]).
Qed.

(** The events of an input that works on a session object are filed
    under the [sessionId] of that object. *)
Lemma acting_events_filed vs sid w i :
  owned vs sid w →
  actsOn w i = Some vs →
  Forall (filedUnder sid) (newEvents w (deliver w i)).
Proof.
  intros Hown Hacts. pose proof Hown as (Hlt & s & Hs & Hsid).
  destruct i as [c sid' cid p ie|l data me|l ce|ws|ws data ae|ws|ws];
    simpl in Hacts; try done.
  - injection Hacts as <-. lia.
  - destruct (listeners w !! l) as [h|] eqn:Hl; [|done]. injection Hacts as <-.
    destruct (keeps_onClientMessage_own N8N_WEBHOOK_URL Buffer_from_base64 (lSession h) sid
                (lClient h) (lStream h) data me w Hown) as (_ & evs & Ht & HE).
    replace (deliver w (ClientMessage l data me))
      with (exec (onClientMessage N8N_WEBHOOK_URL Buffer_from_base64 (lClient h)
                    (lSession h) (lStream h) data me) w)
      by (unfold step, dispatch, exec, bind, gets; by rewrite Hl).
    by rewrite (newEvents_app _ _ _ Ht).
  - destruct (listeners w !! l) as [h|] eqn:Hl; [|done]. simpl in Hacts.
    replace (deliver w (ClientClose l ce)) with (exec (cleanupSession (lStream h) ce) w)
      by (unfold step, dispatch, onClientClose, exec, bind, gets; by rewrite Hl).
    rewrite (cleanupSession_events w (lStream h) vs s ce Hacts Hs).
    apply Forall_cons. split; [by intros x [= <-]; rewrite Hsid|].
    destruct (elevenLabsWs s); [|done].
    apply Forall_singleton. by apply filedUnder_none.
  - destruct (sockets w !! ws) as [so|] eqn:Hso; [|done]. injection Hacts as <-.
    destruct (keeps_onElevenLabsMessage_own (wsSession so) sid (wsClient so) data ae w Hown)
      as (_ & evs & Ht & HE).
    replace (deliver w (ElevenLabsMessage ws data ae))
      with (exec (onElevenLabsMessage (wsClient so) (wsSession so) data ae) w)
      by (unfold step, dispatch, exec, bind, gets; by rewrite Hso).
    by rewrite (newEvents_app _ _ _ Ht).
Qed.

(** C5. [initializeVoiceSession] stores the [sessionId] it is given:
    the stream identifier is registered for the new session object (or
    for none, when set-up failed and tore it down), and after any
    further inputs that object still carries the [sessionId] passed in.
    Every usage report, audit record and audio-cache entry made by
    set-up or by a later input that works on that object is filed under
    that same [sessionId]. *)
Theorem sessionId_never_regenerated w c sid cid p ie inputs :
  activeSessions (deliver w (Initialize c sid cid p ie))
    !! streamSessionIdOf sid (ieNowId ie)
  = match ieNewWebSocket ie with
    | Returns _ => Some (nextRef w)
    | Throws _ => None
    end ∧
  Forall (filedUnder sid) (newEvents w (deliver w (Initialize c sid cid p ie))) ∧
  (∃ s, heap (deliverAll (deliver w (Initialize c sid cid p ie)) inputs) !! nextRef w
        = Some s ∧ sessionId s = sid) ∧
  ∀ i, actsOn (deliverAll (deliver w (Initialize c sid cid p ie)) inputs) i
       = Some (nextRef w) →
       Forall (filedUnder sid)
         (newEvents (deliverAll (deliver w (Initialize c sid cid p ie)) inputs)
            (deliver (deliverAll (deliver w (Initialize c sid cid p ie)) inputs) i)).
Proof.
  pose proof (initialize_owned w c sid cid p ie) as Hown1.
  pose proof (owned_run N8N_WEBHOOK_URL ELEVENLABS_API_KEY Buffer_from_base64
                (nextRef w) sid _ inputs Hown1) as Hown2.
  split; [|split; [|split]].
  - unfold step, dispatch, exec. rewrite initializeVoiceSession_run. simpl.
    destruct (ieNewWebSocket ie); simpl;
      [apply lookup_insert_eq | apply lookup_delete_eq].
  - unfold step, dispatch, exec. rewrite initializeVoiceSession_run. simpl.
    destruct (ieNewWebSocket ie); simpl; erewrite newEvents_app by reflexivity.
    + apply Forall_singleton. by apply filedUnder_none.
    + apply Forall_cons. split; [by apply filedUnder_none|].
      apply Forall_singleton. by intros x [= <-].
  - destruct Hown2 as (_ & s & Hs & Hsid). eauto.
  - intros i Hacts. exact (acting_events_filed (nextRef w) sid _ i Hown2 Hacts).
Qed.

End SessionId.

Lemma sessionId_never_regenerated_witness :
  (∃ s, heap (run None None sampleBuffer
                (sampleStep emptyWorld (Initialize 7 "s" "c" "Savantist" (sampleInit 1000)))
                [ElevenLabsOpen 0; ClientMessage 0 (textInput "Hello") failingMessage])
          !! nextRef emptyWorld = Some s ∧ sessionId s = "s") ∧
  Forall (filedUnder "s")
    (newEvents
       (run None None sampleBuffer
          (sampleStep emptyWorld (Initialize 7 "s" "c" "Savantist" (sampleInit 1000)))
          [ElevenLabsOpen 0; ClientMessage 0 (textInput "Hello") failingMessage])
       (sampleStep
          (run None None sampleBuffer
             (sampleStep emptyWorld (Initialize 7 "s" "c" "Savantist" (sampleInit 1000)))
             [ElevenLabsOpen 0; ClientMessage 0 (textInput "Hello") failingMessage])
          (ClientClose 0 (sampleCleanup 62000)))).
Proof.
  destruct (sessionId_never_regenerated None None sampleBuffer emptyWorld 7%nat "s" "c"
              "Savantist" (sampleInit 1000)
              [ElevenLabsOpen 0; ClientMessage 0 (textInput "Hello") failingMessage])
    as (_ & _ & Hheap & Hevents).
  split; [exact Hheap|].
  exact (Hevents (ClientClose 0 (sampleCleanup 62000)) ltac:(vm_compute; reflexivity)).
Defined.

(** * Further properties *)

(** ** Computations that only append to the trace *)

Lemma addEvents_nil w : addEvents [] w = w.
Proof. destruct w. unfold addEvents. simpl. by rewrite app_nil_r. Qed.

Lemma addEvents_app evs1 evs2 w :
  addEvents evs2 (addEvents evs1 w) = addEvents (evs1 ++ evs2) w.
Proof. unfold addEvents. simpl. by rewrite app_assoc. Qed.

Lemma quiet_ret {A} (a : A) : quiet (ret a).
Proof. intros w. exists []. by rewrite addEvents_nil. Qed.

Lemma quiet_throw {A} e : quiet (@throw A e).
Proof. intros w. exists []. by rewrite addEvents_nil. Qed.

Lemma quiet_gets {A} (f : World → A) : quiet (gets f).
Proof. intros w. exists []. by rewrite addEvents_nil. Qed.

Lemma quiet_await {A} (o : Outcome A) : quiet (await o).
Proof. destruct o; [apply quiet_ret | apply quiet_throw]. Qed.

Lemma quiet_emit e : quiet (emit e).
Proof. intros w. by exists [e]. Qed.

Lemma quiet_field {A} (f : VoiceStreamingSession → A) vs : quiet (field f vs).
Proof.
  intros w. exists []. rewrite addEvents_nil. unfold exec, field.
  by destruct (heap w !! vs).
Qed.

Lemma quiet_bind {A B} (m : M A) (f : A → M B) :
  quiet m → (∀ a, quiet (f a)) → quiet (bind m f).
Proof.
  intros Hm Hf w. destruct (Hm w) as [evs1 H1]. unfold exec, bind in *.
  destruct (m w) as [[a|e] w1]; simpl in *; [|eauto]. subst w1.
  destruct (Hf a (addEvents evs1 w)) as [evs2 H2]. unfold exec in H2.
  exists (evs1 ++ evs2). by rewrite H2, addEvents_app.
Qed.

Lemma quiet_try_catch {A} (m : M A) (h : Exn → M A) :
  quiet m → (∀ e, quiet (h e)) → quiet (try_catch m h).
Proof.
  intros Hm Hh w. destruct (Hm w) as [evs1 H1]. unfold exec, try_catch in *.
  destruct (m w) as [[a|e] w1]; simpl in *; [eauto|]. subst w1.
  destruct (Hh e (addEvents evs1 w)) as [evs2 H2]. unfold exec in H2.
  exists (evs1 ++ evs2). by rewrite H2, addEvents_app.
Qed.

Ltac quiet_step :=
  cbv beta zeta;
  lazymatch goal with
  | |- quiet (bind _ _) => apply quiet_bind; [| intros ?]
  | |- quiet (try_catch _ _) => apply quiet_try_catch; [| intros ?]
  | |- quiet (ret _) => apply quiet_ret
  | |- quiet (throw _) => apply quiet_throw
  | |- quiet (gets _) => apply quiet_gets
  | |- quiet (await _) => apply quiet_await
  | |- quiet (emit _) => apply quiet_emit
  | |- quiet (clientSend _ _) => apply quiet_emit
  | |- quiet (field _ _) => apply quiet_field
  | |- quiet (JSON_parse _) => unfold JSON_parse
  | |- quiet (get _ _) => unfold get
  | |- quiet (match ?x with _ => _ end) => destruct x
  end.

(** A listener body inside [try { } catch { }] that absorbs every error
    returns normally. *)
Lemma absorbed_returns (m : M unit) w : result (try_catch m (λ _, ret tt)) w = Ok tt.
Proof. unfold result, try_catch. by destruct (m w) as [[[]|e] w1]. Qed.

Section Quiet.

Variable N8N_WEBHOOK_URL : option string.
Variable ELEVENLABS_API_KEY : option string.
Variable Buffer_from_base64 : JValue → Outcome string.

Local Abbreviation deliver := (step N8N_WEBHOOK_URL ELEVENLABS_API_KEY Buffer_from_base64).
Local Abbreviation clientMessage := (onClientMessage N8N_WEBHOOK_URL Buffer_from_base64).

Lemma quiet_onClientMessage c vs k data me : quiet (clientMessage c vs k data me).
Proof.
  unfold onClientMessage, processAudioInput, transcribeAudio, routeToN8NWebhook,
    processTextInput, handleStopSpeaking.
  repeat quiet_step.
Qed.

Lemma quiet_onElevenLabsMessage c vs data ae : quiet (onElevenLabsMessage c vs data ae).
Proof. unfold onElevenLabsMessage, cacheAudioOutput. repeat quiet_step. Qed.

(** X1. Whatever the client sends and whatever the collaborators
    answer, the message listener returns normally and leaves the
    registry, the session objects, the sockets and the listeners as they
    were: it only appends to the trace. *)
Theorem client_message_never_throws_nor_mutates w c vs k data me :
  ∃ evs, clientMessage c vs k data me w = (Ok tt, addEvents evs w).
Proof.
  destruct (quiet_onClientMessage c vs k data me w) as [evs Hevs]. exists evs.
  pose proof (absorbed_returns
    (let* message := JSON_parse data in
     let* type := get message "type" in
     match type with
     | JStr type =>
         if String.eqb type "audio_input" then
           processAudioInput N8N_WEBHOOK_URL Buffer_from_base64
             (opt_get message "audio") vs c me
         else if String.eqb type "text_input" then
           let* personality := field personality vs in
           let* webhookResponse :=
             routeToN8NWebhook N8N_WEBHOOK_URL (opt_get message "text") vs personality
               (meRouter me) in
           processTextInput
             (jor (jor (opt_get webhookResponse "response") (opt_get webhookResponse "text"))
                (opt_get message "text")) vs
         else if String.eqb type "stop" then handleStopSpeaking vs
         else ret tt
     | _ => ret tt
     end) w) as Hres.
  change (result (clientMessage c vs k data me) w = Ok tt) in Hres.
  unfold exec in Hevs. unfold result in Hres.
  destruct (clientMessage c vs k data me w) as [r w']. simpl in *. congruence.
Qed.

(** X2. A message that does not parse, is not an object, or has a
    [type] other than the three handled kinds changes nothing at all:
    nothing is sent to the client, to the synthesis link or to any
    collaborator. *)
Theorem unrecognized_message_is_ignored w c vs k data me :
  recognizedKind data = false →
  clientMessage c vs k data me w = (Ok tt, w).
Proof.
  intros Hkind. unfold onClientMessage, try_catch, bind, JSON_parse, get, ret, throw.
  destruct data as [[| |b|q|t|items|fields]|]; try reflexivity.
  simpl in *. destruct (assoc "type" fields) as [| |b|q|t|items|fields']; try reflexivity.
  destruct (String.eqb t "audio_input"); [done|].
  destruct (String.eqb t "text_input"); [done|].
  destruct (String.eqb t "stop"); [done|]. reflexivity.
Qed.

End Quiet.

Lemma unrecognized_message_is_ignored_witness :
  onClientMessage None sampleBuffer 7 0 "s-voice-1000"
    (Some (JObj [("type", JStr "ping")])) failingMessage sampleWorld
  = (Ok tt, sampleWorld).
Proof.
  apply (unrecognized_message_is_ignored None sampleBuffer sampleWorld 7%nat 0%nat
           "s-voice-1000" (Some (JObj [("type", JStr "ping")])) failingMessage).
  reflexivity.
Defined.

(** ** Message paths *)

Section Paths.

Variable N8N_WEBHOOK_URL : option string.
Variable ELEVENLABS_API_KEY : option string.
Variable Buffer_from_base64 : JValue → Outcome string.

Local Abbreviation deliver := (step N8N_WEBHOOK_URL ELEVENLABS_API_KEY Buffer_from_base64).
Local Abbreviation url := (UNIFIED_WEBHOOK_URL N8N_WEBHOOK_URL).

Lemma processTextInput_run w vs s text :
  heap w !! vs = Some s →
  processTextInput text vs w
  = (Ok tt, addEvents match openLink w s with
                      | Some ws => [TtsSend ws (textFrame text)]
                      | None => []
                      end w).
Proof.
  intros Hvs. unfold processTextInput, openLink. run_using Hvs.
  destruct (elevenLabsWs s) as [ws|]; run_monad; [|by rewrite addEvents_nil].
  destruct (readyStateOf w ws); simpl; by rewrite ?addEvents_nil.
Qed.

(** X3. The whole path of an [audio_input] message that is transcribed
    and answered, the audit store accepting the record: the client is
    sent [audio_processing], the transcript with its white space trimmed
    and the reply; the router is asked once with the trimmed transcript
    as content and writes a success record; the reply goes to the
    synthesis link when it is open, and nowhere otherwise.  The reply is
    [response], else [text], else the transcript. *)
Theorem audio_input_answered w l h s fields me audio text session reply :
  listeners w !! l = Some h →
  heap w !! lSession h = Some s →
  assoc "type" fields = JStr "audio_input" →
  Buffer_from_base64 (assoc "audio" fields) = Returns audio →
  meGenerateContent me = Returns (Some text) →
  whitespaceOnly text = false →
  reGetSession (meRouter me) = Returns session →
  rePost (meRouter me) = Returns reply →
  reCreateWebhookLog (meRouter me) = Returns tt →
  deliver w (ClientMessage l (Some (JObj fields)) me)
  = addEvents
      ([ClientSend (lClient h) audioProcessingMsg;
        GenerateContent audio;
        ClientSend (lClient h) (transcriptMsg (trim text));
        GetSession (sessionId s);
        AxiosPost url
          (webhookPayloadOf s (personality s) (JStr (trim text)) session
             (reNow (meRouter me)));
        CreateWebhookLog (successRecordOf s (personality s) (JStr (trim text)) url);
        ClientSend (lClient h) (aiResponseMsg (replyText reply (JStr (trim text))))]
       ++ match openLink w s with
          | Some ws => [TtsSend ws (textFrame (replyText reply (JStr (trim text))))]
          | None => []
          end) w.
Proof.
  intros Hl Hvs Htype Haudio Hg Hws Hlookup Hpost Hlog.
  unfold step, dispatch, exec. unfold bind at 1, gets at 1. rewrite Hl.
  unfold onClientMessage. run_monad. rewrite Htype. run_monad.
  unfold processAudioInput.
  unfold try_catch, bind at 1, clientSend at 1, emit at 1, modify at 1.
  unfold bind at 1. rewrite transcribeAudio_run, Haudio, Hg, Hws.
  pose proof (transcribeAudio_never_blank Buffer_from_base64 w (assoc "audio" fields)
                (meGenerateContent me) (trim text)) as Hnb.
  unfold result in Hnb. rewrite transcribeAudio_run, Haudio, Hg, Hws in Hnb.
  rewrite (Hnb eq_refl).
  unfold bind at 1, clientSend at 1, emit at 1, modify at 1.
  unfold bind at 1, field at 1. simpl heap. rewrite Hvs.
  unfold bind at 1.
  erewrite routeToN8NWebhook_run by exact Hvs. rewrite Hlookup, Hpost, Hlog.
  unfold bind at 1, clientSend at 1, emit at 1, modify at 1.
  erewrite processTextInput_run by exact Hvs.
  simpl. apply world_ext; try reflexivity. simpl.
  rewrite <- !app_assoc. reflexivity.
Qed.

(** X4. The client is told [voice_ready] while the synthesis link is
    still connecting.  A [text_input] handled right after a successful
    set-up, before the link has opened, is routed and, the audit store
    accepting the record, logged as a success, and its reply is dropped:
    no frame reaches the link and the client is sent nothing. *)
Theorem reply_before_link_opens_is_dropped w c sid cid p ie text me session reply :
  ieNewWebSocket ie = Returns tt →
  reGetSession (meRouter me) = Returns session →
  rePost (meRouter me) = Returns reply →
  reCreateWebhookLog (meRouter me) = Returns tt →
  clientMessages (newEvents w (deliver w (Initialize c sid cid p ie))) = [voiceReadyMsg] ∧
  readyStateOf (deliver w (Initialize c sid cid p ie)) (nextSocket w) = CONNECTING ∧
  newEvents (deliver w (Initialize c sid cid p ie))
    (deliver (deliver w (Initialize c sid cid p ie))
       (ClientMessage (length (listeners w))
          (Some (JObj [("type", JStr "text_input"); ("text", text)])) me))
  = [GetSession sid;
     AxiosPost url
       (webhookPayloadOf (mkSession sid cid p (Some (nextSocket w)) true (ieNowStart ie))
          p text session (reNow (meRouter me)));
     CreateWebhookLog
       (successRecordOf (mkSession sid cid p (Some (nextSocket w)) true (ieNowStart ie))
          p text url)].
Proof.
  intros Hctor Hlookup Hpost Hlog.
  set (w1 := deliver w (Initialize c sid cid p ie)).
  assert (Hw1 : w1 =
    mkWorld (<[streamSessionIdOf sid (ieNowId ie) := nextRef w]> (activeSessions w))
            (<[sid := streamSessionIdOf sid (ieNowId ie)]> (sessionKeyMap w))
            (<[nextRef w := mkSession sid cid p (Some (nextSocket w)) true (ieNowStart ie)]>
               (<[nextRef w := mkSession sid cid p None true (ieNowStart ie)]> (heap w)))
            (S (nextRef w))
            (<[nextSocket w := mkSocket CONNECTING c (nextRef w)]> (sockets w))
            (S (nextSocket w))
            (listeners w ++ [mkListener c (nextRef w) (streamSessionIdOf sid (ieNowId ie))])
            (trace w ++ [ClientSend c voiceReadyMsg])).
  { unfold w1, step, dispatch, exec. rewrite initializeVoiceSession_run, Hctor. reflexivity. }
  assert (Hl : listeners w1 !! length (listeners w)
               = Some (mkListener c (nextRef w) (streamSessionIdOf sid (ieNowId ie)))).
  { rewrite Hw1. simpl. by rewrite lookup_app_r, Nat.sub_diag. }
  assert (Hvs : heap w1 !! nextRef w
                = Some (mkSession sid cid p (Some (nextSocket w)) true (ieNowStart ie))).
  { rewrite Hw1. simpl. apply lookup_insert_eq. }
  assert (Hstate : readyStateOf w1 (nextSocket w) = CONNECTING).
  { rewrite Hw1. unfold readyStateOf. simpl. by rewrite lookup_insert_eq. }
  split; [|split; [exact Hstate|]].
  - rewrite (newEvents_app w w1 [ClientSend c voiceReadyMsg]); [done|by rewrite Hw1].
  - apply newEvents_app.
    unfold step at 1, dispatch, exec. unfold bind at 1, gets at 1. rewrite Hl.
    rewrite (onClientMessage_text_input N8N_WEBHOOK_URL Buffer_from_base64 _ _ _ _ _
               [("type", JStr "text_input"); ("text", text)] _ Hvs eq_refl).
    rewrite (routeToN8NWebhook_run N8N_WEBHOOK_URL _ _ _ _ _ _ Hvs), Hlookup, Hpost, Hlog.
    unfold try_catch. simpl lSession.
    rewrite (processTextInput_run (addEvents _ w1) _ _ _ Hvs).
    replace (openLink (addEvents
               [GetSession (sessionId (mkSession sid cid p (Some (nextSocket w)) true
                                         (ieNowStart ie)));
                AxiosPost url
                  (webhookPayloadOf
                     (mkSession sid cid p (Some (nextSocket w)) true (ieNowStart ie))
                     (personality (mkSession sid cid p (Some (nextSocket w)) true
                                     (ieNowStart ie)))
                     (assoc "text" [("type", JStr "text_input"); ("text", text)])
                     session (reNow (meRouter me)));
                CreateWebhookLog
                  (successRecordOf
                     (mkSession sid cid p (Some (nextSocket w)) true (ieNowStart ie))
                     (personality (mkSession sid cid p (Some (nextSocket w)) true
                                     (ieNowStart ie)))
                     (assoc "text" [("type", JStr "text_input"); ("text", text)]) url)]
               w1)
             (mkSession sid cid p (Some (nextSocket w)) true (ieNowStart ie)))
      with (@None nat)
      by (unfold openLink;
          change (elevenLabsWs (mkSession sid cid p (Some (nextSocket w)) true
                                  (ieNowStart ie))) with (Some (nextSocket w));
          cbv beta iota; rewrite readyStateOf_addEvents, Hstate; reflexivity).
    simpl. by rewrite app_nil_r.
Qed.

End Paths.

(** ** Set-up and teardown *)

(** The state after teardown of a registered stream. *)
Lemma cleanupSession_state w k vs s ce :
  activeSessions w !! k = Some vs →
  heap w !! vs = Some s →
  activeSessions (exec (cleanupSession k ce) w) = delete k (activeSessions w) ∧
  sessionKeyMap (exec (cleanupSession k ce) w) = delete (sessionId s) (sessionKeyMap w) ∧
  heap (exec (cleanupSession k ce) w) = <[vs := withIsActive false s]> (heap w) ∧
  listeners (exec (cleanupSession k ce) w) = listeners w ∧
  nextRef (exec (cleanupSession k ce) w) = nextRef w ∧
  nextSocket (exec (cleanupSession k ce) w) = nextSocket w ∧
  sockets (exec (cleanupSession k ce) w)
  = match elevenLabsWs s with
    | Some ws => sockets (closing ws w)
    | None => sockets w
    end.
Proof.
  intros Hk Hvs. unfold exec. rewrite (cleanupSession_registered _ _ _ _ _ Hk Hvs).
  simpl. unfold closeLink.
  destruct (elevenLabsWs s) as [ws|]; [|done].
  destruct (closing_fields ws
    (addEvent (IncrementVoiceMinutes (sessionId s)
       (Math_ceil_div (ceNow ce - startTime s) (60 * 1000)))
       (addEvent (TtsClose ws) (setHeap <[vs:=withIsActive false s]> w))))
    as (H1 & H2 & H3 & H4 & H5 & H6 & _).
  unfold closing, readyStateOf. simpl.
  destruct (sockets w !! ws) as [so|]; [destruct (readyState so)|]; done.
Qed.

Section Lifecycle.

Variable N8N_WEBHOOK_URL : option string.
Variable ELEVENLABS_API_KEY : option string.
Variable Buffer_from_base64 : JValue → Outcome string.

Local Abbreviation deliver := (step N8N_WEBHOOK_URL ELEVENLABS_API_KEY Buffer_from_base64).

(** X6. Set-up that fails leaves no partial session: the stream
    identifier and the session identifier have no entry in either map,
    every other entry is as before, no socket and no listener is added,
    the client is sent the one error message, and usage is reported once
    for the time between the start reading and the teardown reading of
    the clock.  An older stream of the same session loses its secondary
    entry with it. *)
Theorem failed_setup_leaves_no_partial_session w c sid cid p ie e :
  ieNewWebSocket ie = Throws e →
  activeSessions (deliver w (Initialize c sid cid p ie))
  = delete (streamSessionIdOf sid (ieNowId ie)) (activeSessions w) ∧
  sessionKeyMap (deliver w (Initialize c sid cid p ie)) = delete sid (sessionKeyMap w) ∧
  sockets (deliver w (Initialize c sid cid p ie)) = sockets w ∧
  listeners (deliver w (Initialize c sid cid p ie)) = listeners w ∧
  clientMessages (newEvents w (deliver w (Initialize c sid cid p ie))) = [initErrorMsg] ∧
  usageReports (newEvents w (deliver w (Initialize c sid cid p ie)))
  = [(sid, Math_ceil_div (ceNow (ieCleanup ie) - ieNowStart ie) (60 * 1000))].
Proof.
  intros Hctor. unfold step, dispatch, exec.
  rewrite initializeVoiceSession_run, Hctor. simpl.
  rewrite !delete_insert_eq.
  erewrite newEvents_app by reflexivity. done.
Qed.

(** X7. Set-up followed by the close of its client is a round trip on
    the registry: both maps are what they were with the stream
    identifier and the session identifier removed, usage is reported
    once for the session, for the minutes between the start reading and
    the close, and the link made by set-up is closed once and left
    CLOSING. *)
Theorem setup_then_close_round_trip w c sid cid p ie ce :
  ieNewWebSocket ie = Returns tt →
  activeSessions
    (deliver (deliver w (Initialize c sid cid p ie)) (ClientClose (length (listeners w)) ce))
  = delete (streamSessionIdOf sid (ieNowId ie)) (activeSessions w) ∧
  sessionKeyMap
    (deliver (deliver w (Initialize c sid cid p ie)) (ClientClose (length (listeners w)) ce))
  = delete sid (sessionKeyMap w) ∧
  newEvents (deliver w (Initialize c sid cid p ie))
    (deliver (deliver w (Initialize c sid cid p ie)) (ClientClose (length (listeners w)) ce))
  = [IncrementVoiceMinutes sid (Math_ceil_div (ceNow ce - ieNowStart ie) (60 * 1000));
     TtsClose (nextSocket w)] ∧
  readyStateOf
    (deliver (deliver w (Initialize c sid cid p ie)) (ClientClose (length (listeners w)) ce))
    (nextSocket w) = CLOSING.
Proof.
  intros Hctor.
  set (k := streamSessionIdOf sid (ieNowId ie)).
  set (s1 := mkSession sid cid p (Some (nextSocket w)) true (ieNowStart ie)).
  set (w1 := deliver w (Initialize c sid cid p ie)).
  assert (Hw1 : w1 =
    mkWorld (<[k := nextRef w]> (activeSessions w))
            (<[sid := k]> (sessionKeyMap w))
            (<[nextRef w := s1]>
               (<[nextRef w := mkSession sid cid p None true (ieNowStart ie)]> (heap w)))
            (S (nextRef w))
            (<[nextSocket w := mkSocket CONNECTING c (nextRef w)]> (sockets w))
            (S (nextSocket w))
            (listeners w ++ [mkListener c (nextRef w) k])
            (trace w ++ [ClientSend c voiceReadyMsg])).
  { unfold w1, step, dispatch, exec. rewrite initializeVoiceSession_run, Hctor. reflexivity. }
  assert (Hl : listeners w1 !! length (listeners w) = Some (mkListener c (nextRef w) k)).
  { rewrite Hw1. simpl. by rewrite lookup_app_r, Nat.sub_diag. }
  assert (Hk : activeSessions w1 !! k = Some (nextRef w)).
  { rewrite Hw1. simpl. apply lookup_insert_eq. }
  assert (Hvs : heap w1 !! nextRef w = Some s1).
  { rewrite Hw1. simpl. apply lookup_insert_eq. }
  assert (Hstep : deliver w1 (ClientClose (length (listeners w)) ce)
                  = exec (cleanupSession k ce) w1).
  { unfold step, dispatch, onClientClose, exec, bind, gets. by rewrite Hl. }
  rewrite Hstep.
  destruct (cleanupSession_state w1 k (nextRef w) s1 ce Hk Hvs)
    as (Ha & Hm & _ & _ & _ & _ & Hs).
  split; [|split; [|split]].
  - rewrite Ha, Hw1. simpl. apply delete_insert_eq.
  - rewrite Hm, Hw1. simpl. apply delete_insert_eq.
  - by rewrite (cleanupSession_events _ _ _ _ _ Hk Hvs).
  - unfold readyStateOf at 1. rewrite Hs. simpl.
    unfold closing, readyStateOf. rewrite Hw1. simpl.
    rewrite lookup_insert_eq. simpl. unfold withReadyState. simpl.
    rewrite lookup_insert_eq. simpl. by rewrite lookup_insert_eq.
Qed.

Lemma nonlifecycle_fields w i :
  isLifecycle i = false →
  activeSessions (deliver w i) = activeSessions w ∧
  sessionKeyMap (deliver w i) = sessionKeyMap w ∧
  heap (deliver w i) = heap w ∧
  listeners (deliver w i) = listeners w ∧
  nextRef (deliver w i) = nextRef w.
Proof.
  intros Hi. destruct i as [c sid cid p ie|l data me|l ce|ws|ws data ae|ws|ws]; try done.
  - unfold step, dispatch, exec, bind, gets. simpl.
    destruct (listeners w !! l) as [h|]; [|done].
    destruct (quiet_onClientMessage N8N_WEBHOOK_URL Buffer_from_base64
                (lClient h) (lSession h) (lStream h) data me w) as [evs Hevs].
    unfold exec in Hevs. by rewrite Hevs.
  - unfold step, dispatch, exec, bind, gets, onElevenLabsOpen. simpl.
    by destruct (readyStateOf w ws).
  - unfold step, dispatch, exec, bind, gets. simpl.
    destruct (sockets w !! ws) as [so|]; [|done].
    destruct (quiet_onElevenLabsMessage (wsClient so) (wsSession so) data ae w) as [evs Hevs].
    unfold exec in Hevs. by rewrite Hevs.
  - unfold step, dispatch, exec, bind, gets, onElevenLabsError. simpl.
    by destruct (sockets w !! ws).
Qed.

(** X8. Only set-up and a client's close touch the registry: a client
    message, and any event of a synthesis link, leaves both maps, the
    session objects and the listeners as they were. *)
Theorem only_lifecycle_inputs_touch_registry w i :
  isLifecycle i = false →
  activeSessions (deliver w i) = activeSessions w ∧
  sessionKeyMap (deliver w i) = sessionKeyMap w ∧
  heap (deliver w i) = heap w ∧
  listeners (deliver w i) = listeners w.
Proof.
  intros Hi. destruct (nonlifecycle_fields w i Hi) as (? & ? & ? & ? & _). done.
Qed.

(** X10. A final audio fragment is forwarded to the client and then
    cached once, under the session's own identifiers and at the URL
    made of the fresh token; what the cache store answers does not
    matter, and nothing but the trace changes. *)
Theorem final_fragment_forwarded_and_cached w ws so s response ae token :
  sockets w !! ws = Some so →
  heap w !! wsSession so = Some s →
  truthy (opt_get response "audio") = true →
  truthy (opt_get response "isFinal") = true →
  aeToken ae = Returns token →
  deliver w (ElevenLabsMessage ws (Some response) ae)
  = addEvents [ClientSend (wsClient so) (audioOutputMsg response);
               CreateAudioCache (audioCacheRecordOf s token)] w.
Proof.
  intros Hso Hvs Haudio Hfinal Htoken.
  unfold step, dispatch, exec. unfold bind at 1, gets at 1. rewrite Hso.
  unfold onElevenLabsMessage, cacheAudioOutput.
  destruct response; try done; simpl in Haudio, Hfinal; try done.
  run_monad. rewrite Haudio. run_monad. rewrite Hfinal. run_using Hvs.
  rewrite Htoken. run_monad.
  destruct (aeCreateAudioCache ae) as [[]|e]; run_monad;
    apply world_ext; try reflexivity; simpl; by rewrite <- app_assoc.
Qed.

(** X11. A fragment without audio is dropped whole, final or not, and a
    fragment that is not final, or whose token cannot be generated, is
    forwarded and not cached. *)
Theorem fragment_without_audio_or_not_final w ws so s response ae :
  sockets w !! ws = Some so →
  heap w !! wsSession so = Some s →
  (truthy (opt_get response "audio") = false →
   deliver w (ElevenLabsMessage ws (Some response) ae) = w) ∧
  (truthy (opt_get response "audio") = true →
   truthy (opt_get response "isFinal") = false ∨ (∃ e, aeToken ae = Throws e) →
   deliver w (ElevenLabsMessage ws (Some response) ae)
   = addEvents [ClientSend (wsClient so) (audioOutputMsg response)] w).
Proof.
  intros Hso Hvs.
  assert (Hstep : deliver w (ElevenLabsMessage ws (Some response) ae)
                  = exec (onElevenLabsMessage (wsClient so) (wsSession so)
                            (Some response) ae) w).
  { unfold step, dispatch, exec, bind, gets. by rewrite Hso. }
  rewrite Hstep. unfold onElevenLabsMessage, cacheAudioOutput. split.
  - intros Haudio. destruct response; try done; simpl in Haudio; run_monad;
      rewrite ?Haudio; reflexivity.
  - intros Haudio Hwhy.
    destruct response; try done; simpl in Haudio; try done.
    run_monad. rewrite Haudio. run_monad.
    destruct (truthy (assoc "isFinal" fields)) eqn:Hfinal.
    + destruct Hwhy as [Hnot|[e He]]; [simpl in Hnot; congruence|].
      run_using Hvs. rewrite He. run_monad. reflexivity.
    + run_monad. reflexivity.
Qed.

End Lifecycle.

(** ** Stream identifiers *)

Lemma noDash_app a b : noDash (a +:+ b) = noDash a && noDash b.
Proof.
  induction a as [|c a IH]; [done|].
  rewrite append_cons. simpl. rewrite IH. by rewrite andb_assoc.
Qed.

Lemma pretty_N_go_noDash x s : noDash s = true → noDash (pretty_N_go x s) = true.
Proof.
  revert s. induction (N.lt_wf_0 x) as [x _ IH]; intros s Hs.
  assert (x = 0 ∨ 0 < x)%N as [->|Hx] by lia; [by rewrite pretty_N_go_0|].
  rewrite pretty_N_go_step by done. apply IH; [by apply N.div_lt|].
  simpl. rewrite Hs. unfold pretty_N_char. by repeat case_match.
Qed.

Lemma pretty_N_go_nonempty x s : (0 < x)%N → pretty_N_go x s ≠ EmptyString.
Proof.
  revert s. induction (N.lt_wf_0 x) as [x _ IH]; intros s Hx.
  rewrite pretty_N_go_step by done.
  destruct (N.eq_0_gt_0_cases (x `div` 10)) as [->|Hd].
  - by rewrite pretty_N_go_0.
  - apply IH; [by apply N.div_lt | done].
Qed.

Lemma pretty_N_noDash (n : N) : noDash (pretty n) = true ∧ pretty n ≠ EmptyString.
Proof.
  unfold pretty, pretty_N. case_decide; [done|].
  split; [by apply pretty_N_go_noDash | apply pretty_N_go_nonempty; lia].
Qed.

Lemma noDash_dashOnlyFirst s : noDash s = true → s ≠ EmptyString → dashOnlyFirst s = true.
Proof. destruct s as [|c s]; [done|]. simpl. by intros [_ ?]%andb_true_iff. Qed.

(** A clock reading in decimal has a dash at its head or nowhere. *)
Lemma pretty_Z_dashOnlyFirst (z : Z) : dashOnlyFirst (pretty z) = true.
Proof.
  destruct z as [|x|x]; [done| |].
  - destruct (pretty_N_noDash (N.pos x)). by apply noDash_dashOnlyFirst.
  - change (pretty (Z.neg x)) with ("-" +:+ pretty (N.pos x)).
    rewrite append_cons, append_nil. simpl.
    by destruct (pretty_N_noDash (N.pos x)).
Qed.

Lemma marker_clash s d1 d2 :
  dashOnlyFirst d1 = true → "voice-" +:+ d1 = s +:+ "-voice-" +:+ d2 → False.
Proof.
  intros Hd1 Heq.
  destruct s as [|a0 [|a1 [|a2 [|a3 [|a4 [|a5 [|a6 s]]]]]]];
    rewrite ?append_cons, ?append_nil in Heq;
    try discriminate; injection Heq as; subst; simpl in Hd1; try discriminate.
  rewrite noDash_app in Hd1. simpl in Hd1. by rewrite andb_false_r in Hd1.
Qed.

Lemma marker_split s1 s2 d1 d2 :
  dashOnlyFirst d1 = true → dashOnlyFirst d2 = true →
  s1 +:+ "-voice-" +:+ d1 = s2 +:+ "-voice-" +:+ d2 → s1 = s2 ∧ d1 = d2.
Proof.
  intros Hd1 Hd2. revert s2. induction s1 as [|c s1 IH]; intros [|c' s2] Heq;
    rewrite ?append_cons, ?append_nil in Heq.
  - by injection Heq.
  - injection Heq as <- Heq. by destruct (marker_clash s2 d1 d2).
  - injection Heq as -> Heq. symmetry in Heq. by destruct (marker_clash s1 d2 d1).
  - injection Heq as -> Heq. destruct (IH s2 Heq) as [-> ->]. done.
Qed.

Lemma streamSessionIdOf_eq sid1 t1 sid2 t2 :
  streamSessionIdOf sid1 t1 = streamSessionIdOf sid2 t2 → sid1 = sid2 ∧ t1 = t2.
Proof.
  unfold streamSessionIdOf. intros Heq.
  destruct (marker_split sid1 sid2 (pretty t1) (pretty t2)
              (pretty_Z_dashOnlyFirst t1) (pretty_Z_dashOnlyFirst t2) Heq) as [-> Ht].
  split; [done|]. by apply (inj pretty).
Qed.

(** X12. Stream identifiers are unique per session and clock reading:
    two of them are equal only for the same [sessionId] and the same
    millisecond, whatever characters the [sessionId]s hold. *)
Theorem streamSessionIdOf_inj sid1 t1 sid2 t2 :
  streamSessionIdOf sid1 t1 = streamSessionIdOf sid2 t2 → sid1 = sid2 ∧ t1 = t2.
Proof. apply streamSessionIdOf_eq. Qed.

Lemma streamSessionIdOf_inj_witness : "s" = "s" ∧ 1000 = 1000.
Proof. exact (streamSessionIdOf_inj "s" 1000 "s" 1000 eq_refl). Defined.

(** ** The reachable states *)

Lemma consistent_empty : consistent emptyWorld.
Proof. split; simpl; intros *; by rewrite ?lookup_empty. Qed.

(** [consistent] does not look at the trace. *)
Lemma consistent_fields w w' :
  activeSessions w' = activeSessions w → sessionKeyMap w' = sessionKeyMap w →
  heap w' = heap w → nextRef w' = nextRef w → sockets w' = sockets w →
  nextSocket w' = nextSocket w → listeners w' = listeners w →
  consistent w → consistent w'.
Proof.
  intros Ha Hk Hh Hn Hs Hns Hl [H1 H2 H3 H4 H5 H6].
  split; rewrite ?Ha, ?Hk, ?Hh, ?Hn, ?Hs, ?Hns, ?Hl; assumption.
Qed.

Lemma consistent_addEvents evs w : consistent w → consistent (addEvents evs w).
Proof. by apply consistent_fields. Qed.

Lemma lookup_withReadyState ws0 r w ws :
  sockets (withReadyState ws0 r w) !! ws
  = (λ so, if decide (ws0 = ws) then mkSocket r (wsClient so) (wsSession so) else so)
      <$> sockets w !! ws.
Proof.
  unfold withReadyState. simpl.
  destruct (sockets w !! ws0) as [so0|] eqn:H0.
  - rewrite lookup_insert. case_decide as Heq.
    + subst. by rewrite H0.
    + by destruct (sockets w !! ws).
  - case_decide as Heq; [subst; by rewrite H0|]. by destruct (sockets w !! ws).
Qed.

Lemma consistent_withReadyState ws0 r w : consistent w → consistent (withReadyState ws0 r w).
Proof.
  intros [H1 H2 H3 H4 H5 H6]. split; try assumption.
  - intros vs s ws Hvs Hws. destruct (H4 vs s ws Hvs Hws) as (so & Hso & Hown).
    rewrite lookup_withReadyState, Hso. simpl.
    case_decide; eexists; (split; [reflexivity|]); done.
  - intros ws so. rewrite lookup_withReadyState.
    destruct (sockets w !! ws) as [so'|] eqn:Hso; [|done]. intros _. by eapply H5.
Qed.

Lemma consistent_closing ws w : consistent w → consistent (closing ws w).
Proof.
  intros Hw. unfold closing.
  destruct (readyStateOf w ws); try done; by apply consistent_withReadyState.
Qed.

Lemma consistent_cleanupSession k ce w :
  consistent w → consistent (exec (cleanupSession k ce) w).
Proof.
  intros Hw. destruct (activeSessions w !! k) as [vs|] eqn:Hk;
    [|unfold exec; by rewrite cleanupSession_unregistered].
  destruct (registered_live w Hw k vs Hk) as (s & t & Hvs & Hkey).
  destruct (cleanupSession_state w k vs s ce Hk Hvs) as (Ha & Hm & Hh & Hl & Hn & Hns & Hs).
  assert (Hlink : ∃ wl, consistent wl ∧ heap wl = heap w ∧ nextSocket wl = nextSocket w ∧
                        sockets (exec (cleanupSession k ce) w) = sockets wl).
  { rewrite Hs. destruct (elevenLabsWs s) as [ws|].
    - exists (closing ws w).
      destruct (closing_fields ws w) as (_ & _ & ? & _ & ? & _).
      by split; [apply consistent_closing|].
    - by exists w. }
  destruct Hlink as (wl & [_ _ _ L4 L5 _] & Hhl & Hnl & Hs').
  rewrite Hhl in L4. rewrite Hnl in L5.
  destruct Hw as [H1 H2 H3 H4 H5 H6].
  split; rewrite ?Ha, ?Hm, ?Hh, ?Hl, ?Hn, ?Hns, ?Hs'.
  - intros k' vs' Hk'. apply lookup_delete_Some in Hk' as [Hne Hk'].
    destruct (H1 k' vs' Hk') as (s' & t' & Hvs' & Hkey').
    rewrite lookup_insert. case_decide as Heq; [|by eauto].
    subst vs'. rewrite Hvs in Hvs'. injection Hvs' as <-.
    exists (withIsActive false s), t'. done.
  - intros sid' k' Hk'. apply lookup_delete_Some in Hk' as [Hne Hk'].
    destruct (H2 sid' k' Hk') as (vs' & s' & Hreg & Hvs' & Hsid).
    assert (vs' ≠ vs) by (intros ->; rewrite Hvs in Hvs'; by injection Hvs' as <-).
    assert (k' ≠ k) by (intros ->; rewrite Hk in Hreg; by injection Hreg).
    exists vs', s'. by rewrite lookup_delete_ne, lookup_insert_ne.
  - intros vs' s'. rewrite lookup_insert. case_decide as Heq; [|by apply H3].
    subst. intros _. by eapply H3.
  - intros vs' s' ws. rewrite lookup_insert. case_decide as Heq.
    + subst vs'. intros [= <-] Hws. by eapply L4.
    + by apply L4.
  - exact L5.
  - intros l h Hlh. destruct (H6 l h Hlh) as [s' Hs''].
    rewrite lookup_insert. case_decide; eauto.
Qed.

Lemma consistent_initializeVoiceSession c sid cid p ie w :
  consistent w → consistent (exec (initializeVoiceSession c sid cid p ie) w).
Proof.
  intros [H1 H2 H3 H4 H5 H6]. unfold exec. rewrite initializeVoiceSession_run. simpl.
  set (k := streamSessionIdOf sid (ieNowId ie)).
  assert (Hfresh : heap w !! nextRef w = None).
  { destruct (heap w !! nextRef w) as [s|] eqn:Hs; [|done]. apply H3 in Hs. lia. }
  assert (Hold : ∀ vs s s1 s0, heap w !! vs = Some s →
            <[nextRef w := s1]> (<[nextRef w := s0]> (heap w)) !! vs = Some s).
  { intros vs s s1 s0 Hs. pose proof (H3 _ _ Hs).
    by rewrite !lookup_insert_ne by lia. }
  assert (Hother : ∀ sid' k', sid' ≠ sid → sessionKeyMap w !! sid' = Some k' → k' ≠ k).
  { intros sid' k' Hne Hk' ->. destruct (H2 _ _ Hk') as (vs & s & Hreg & Hs & Hsid).
    destruct (H1 _ _ Hreg) as (s' & t & Hs' & Hkey). rewrite Hs in Hs'. injection Hs' as <-.
    apply streamSessionIdOf_eq in Hkey as [Heq _]. congruence. }
  destruct (ieNewWebSocket ie) as [[]|e]; split; simpl.
  - intros k' vs. rewrite lookup_insert. case_decide as Heq.
    + subst k'. intros [= <-]. eexists _, (ieNowId ie). by rewrite lookup_insert_eq.
    + intros Hk'. destruct (H1 _ _ Hk') as (s & t & Hs & Hkey). eauto.
  - intros sid' k'. rewrite lookup_insert. case_decide as Heq.
    + subst sid'. intros [= <-]. eexists _, _. by rewrite !lookup_insert_eq.
    + intros Hk'. destruct (H2 _ _ Hk') as (vs & s & Hreg & Hs & Hsid).
      exists vs, s. rewrite lookup_insert_ne by (apply not_eq_sym; eauto). eauto.
  - intros vs s. rewrite lookup_insert. case_decide; [lia|].
    rewrite lookup_insert_ne by done. intros Hs. apply H3 in Hs. lia.
  - intros vs s ws. rewrite lookup_insert. case_decide as Heq.
    + subst vs. intros [= <-] [= <-]. eexists. by rewrite lookup_insert_eq.
    + rewrite lookup_insert_ne by done. intros Hs Hws.
      destruct (H4 _ _ _ Hs Hws) as (so & Hso & Hown). pose proof (H5 _ _ Hso).
      exists so. by rewrite lookup_insert_ne by lia.
  - intros ws so. rewrite lookup_insert. case_decide; [lia|].
    intros Hso. apply H5 in Hso. lia.
  - intros l h Hl. apply lookup_app_Some in Hl as [Hl|[_ Hl]].
    + destruct (H6 _ _ Hl) as [s Hs]. eauto.
    + apply list_lookup_singleton_Some in Hl as [_ <-]. simpl.
      by rewrite lookup_insert_eq.
  - intros k' vs Hk'. apply lookup_delete_Some in Hk' as [Hne Hk'].
    rewrite lookup_insert_ne in Hk' by done.
    destruct (H1 _ _ Hk') as (s & t & Hs & Hkey). eauto.
  - intros sid' k' Hk'. apply lookup_delete_Some in Hk' as [Hne Hk'].
    rewrite lookup_insert_ne in Hk' by done.
    destruct (H2 _ _ Hk') as (vs & s & Hreg & Hs & Hsid).
    exists vs, s. rewrite lookup_delete_ne by (apply not_eq_sym; eauto).
    rewrite lookup_insert_ne by (apply not_eq_sym; eauto). eauto.
  - intros vs s. rewrite lookup_insert. case_decide; [lia|].
    rewrite lookup_insert_ne by done. intros Hs. apply H3 in Hs. lia.
  - intros vs s ws. rewrite lookup_insert. case_decide as Heq.
    + subst vs. by intros [= <-] [=].
    + rewrite lookup_insert_ne by done. by apply H4.
  - exact H5.
  - intros l h Hl. destruct (H6 _ _ Hl) as [s Hs]. eauto.
Qed.

Section Reachable.

Variable N8N_WEBHOOK_URL : option string.
Variable ELEVENLABS_API_KEY : option string.
Variable Buffer_from_base64 : JValue → Outcome string.

Local Abbreviation deliver := (step N8N_WEBHOOK_URL ELEVENLABS_API_KEY Buffer_from_base64).
Local Abbreviation deliverAll := (run N8N_WEBHOOK_URL ELEVENLABS_API_KEY Buffer_from_base64).

Lemma consistent_step w i : consistent w → consistent (deliver w i).
Proof.
  intros Hw. destruct i as [c sid cid p ie|l data me|l ce|ws|ws data ae|ws|ws].
  - by apply consistent_initializeVoiceSession.
  - unfold step, dispatch, exec, bind, gets. simpl.
    destruct (listeners w !! l) as [h|]; [|done].
    destruct (quiet_onClientMessage N8N_WEBHOOK_URL Buffer_from_base64
                (lClient h) (lSession h) (lStream h) data me w) as [evs Hevs].
    unfold exec in Hevs. rewrite Hevs. by apply consistent_addEvents.
  - unfold step, dispatch, onClientClose, exec, bind, gets. simpl.
    destruct (listeners w !! l) as [h|]; [|done].
    by apply consistent_cleanupSession.
  - unfold step, dispatch, exec, bind, gets, onElevenLabsOpen, setReadyState, emit, modify.
    simpl. destruct (readyStateOf w ws); try done.
    apply (consistent_addEvents [_]). by apply consistent_withReadyState.
  - unfold step, dispatch, exec, bind, gets. simpl.
    destruct (sockets w !! ws) as [so|]; [|done].
    destruct (quiet_onElevenLabsMessage (wsClient so) (wsSession so) data ae w) as [evs Hevs].
    unfold exec in Hevs. rewrite Hevs. by apply consistent_addEvents.
  - unfold step, dispatch, exec, bind, gets, onElevenLabsError, clientSend, emit, modify.
    simpl. destruct (sockets w !! ws) as [so|]; [|done].
    by apply (consistent_addEvents [_]).
  - by apply consistent_withReadyState.
Qed.

Lemma consistent_run w inputs : consistent w → consistent (deliverAll w inputs).
Proof.
  revert w. induction inputs as [|i inputs IH]; intros w Hw; [done|].
  simpl. apply IH. by apply consistent_step.
Qed.

(** X13. In every state the service reaches from its start, an entry
    of the secondary index points to a stream that is registered, and
    the session registered there carries the [sessionId] of the entry:
    the index never dangles and never points to another session's
    stream. *)
Theorem secondary_index_points_into_registry inputs sid k :
  sessionKeyMap (deliverAll emptyWorld inputs) !! sid = Some k →
  ∃ vs s, activeSessions (deliverAll emptyWorld inputs) !! k = Some vs ∧
          heap (deliverAll emptyWorld inputs) !! vs = Some s ∧
          sessionId s = sid.
Proof. apply index_registered, consistent_run, consistent_empty. Qed.

(** X14. In every state the service reaches from its start, a
    synthesis link belongs to one session: two session objects that
    hold the same link are the same object. *)
Theorem synthesis_link_never_shared inputs vs1 vs2 s1 s2 ws :
  heap (deliverAll emptyWorld inputs) !! vs1 = Some s1 →
  heap (deliverAll emptyWorld inputs) !! vs2 = Some s2 →
  elevenLabsWs s1 = Some ws →
  elevenLabsWs s2 = Some ws →
  vs1 = vs2.
Proof.
  intros H1 H2 Hw1 Hw2.
  pose proof (consistent_run emptyWorld inputs consistent_empty) as Hc.
  destruct (link_owned _ Hc _ _ _ H1 Hw1) as (so1 & Hso1 & <-).
  destruct (link_owned _ Hc _ _ _ H2 Hw2) as (so2 & Hso2 & <-).
  congruence.
Qed.

(** X15. In every state the service reaches from its start, a stream
    is registered under the identifier made from its own session's
    [sessionId], and every registry entry and every listener refers
    to a session object that exists. *)
Theorem registry_and_listeners_refer_to_sessions inputs :
  (∀ k vs, activeSessions (deliverAll emptyWorld inputs) !! k = Some vs →
     ∃ s t, heap (deliverAll emptyWorld inputs) !! vs = Some s ∧
            k = streamSessionIdOf (sessionId s) t) ∧
  (∀ l h, listeners (deliverAll emptyWorld inputs) !! l = Some h →
     is_Some (heap (deliverAll emptyWorld inputs) !! lSession h)).
Proof.
  pose proof (consistent_run emptyWorld inputs consistent_empty) as Hc.
  split; [apply (registered_live _ Hc) | apply (listener_live _ Hc)].
Qed.

End Reachable.

(** ** What a session is given at set-up *)

Lemma sameIdentity_refl s : sameIdentity s s.
Proof. done. Qed.

Lemma sameIdentity_trans s1 s2 s3 :
  sameIdentity s1 s2 → sameIdentity s2 s3 → sameIdentity s1 s3.
Proof. unfold sameIdentity. intros (?&?&?&?) (?&?&?&?). repeat split; congruence. Qed.

Lemma cleanupSession_dangling w k vs ce :
  activeSessions w !! k = Some vs → heap w !! vs = None →
  exec (cleanupSession k ce) w = w.
Proof.
  intros Hk Hvs. unfold cleanupSession, cleanupSession_enter. run_monad. rewrite Hk.
  unfold updated, setHeap. run_monad. rewrite Hvs. run_monad. rewrite Hvs. simpl.
  by destruct w.
Qed.

Section Identity.

Variable N8N_WEBHOOK_URL : option string.
Variable ELEVENLABS_API_KEY : option string.
Variable Buffer_from_base64 : JValue → Outcome string.

Local Abbreviation deliver := (step N8N_WEBHOOK_URL ELEVENLABS_API_KEY Buffer_from_base64).
Local Abbreviation deliverAll := (run N8N_WEBHOOK_URL ELEVENLABS_API_KEY Buffer_from_base64).

Lemma step_keeps_identity w i vs s :
  heap w !! vs = Some s → (vs < nextRef w)%nat →
  ∃ s', heap (deliver w i) !! vs = Some s' ∧ sameIdentity s s' ∧
        (vs < nextRef (deliver w i))%nat.
Proof.
  intros Hvs Hlt.
  destruct (isLifecycle i) eqn:Hi.
  - destruct i as [c sid cid p ie|l data me|l ce|ws|ws data ae|ws|ws]; try done.
    + unfold step, dispatch, exec. rewrite initializeVoiceSession_run. simpl.
      exists s. destruct (ieNewWebSocket ie); simpl;
        rewrite !lookup_insert_ne by lia; (split; [done|]); split; done || lia.
    + unfold step, dispatch, onClientClose, exec, bind, gets. simpl.
      destruct (listeners w !! l) as [h|]; [|by exists s].
      destruct (activeSessions w !! lStream h) as [vs'|] eqn:Hk;
        [|rewrite cleanupSession_unregistered by done; by exists s].
      destruct (heap w !! vs') as [s'|] eqn:Hvs'.
      * destruct (cleanupSession_state w (lStream h) vs' s' ce Hk Hvs')
          as (_ & _ & Hh & _ & Hn & _).
        unfold exec in Hh, Hn. rewrite Hh, Hn. rewrite lookup_insert.
        case_decide as Heq; [|by exists s].
        subst vs'. rewrite Hvs in Hvs'. injection Hvs' as <-.
        by exists (withIsActive false s).
      * pose proof (cleanupSession_dangling w (lStream h) vs' ce Hk Hvs') as Hw.
        unfold exec in Hw. rewrite Hw. by exists s.
  - destruct (nonlifecycle_fields N8N_WEBHOOK_URL ELEVENLABS_API_KEY
                Buffer_from_base64 w i Hi) as (_ & _ & Hh & _ & Hn).
    rewrite Hh, Hn. by exists s.
Qed.

Lemma run_keeps_identity w inputs vs s :
  heap w !! vs = Some s → (vs < nextRef w)%nat →
  ∃ s', heap (deliverAll w inputs) !! vs = Some s' ∧ sameIdentity s s'.
Proof.
  revert w s. induction inputs as [|i inputs IH]; intros w s Hvs Hlt; [by exists s|].
  destruct (step_keeps_identity w i vs s Hvs Hlt) as (s1 & Hs1 & Hid1 & Hlt1).
  destruct (IH _ _ Hs1 Hlt1) as (s2 & Hs2 & Hid2).
  exists s2. split; [exact Hs2|]. by eapply sameIdentity_trans.
Qed.

(** The session object made by set-up. *)
Lemma initialize_makes_session w c sid cid p ie :
  ∃ s, heap (deliver w (Initialize c sid cid p ie)) !! nextRef w = Some s ∧
       sessionId s = sid ∧ conversationId s = cid ∧ personality s = p ∧
       startTime s = ieNowStart ie ∧
       (nextRef w < nextRef (deliver w (Initialize c sid cid p ie)))%nat.
Proof.
  unfold step, dispatch, exec. rewrite initializeVoiceSession_run. simpl.
  destruct (ieNewWebSocket ie); simpl; eexists;
    (split; [apply lookup_insert_eq|]); repeat split; simpl; lia.
Qed.

End Identity.

(** ** Events made for a session *)

Section EmitsFor.

Variable vs : nat.
Variable s : VoiceStreamingSession.
Variable E : Event → Prop.

Lemma emitsFor_ret {A} (a : A) : emitsFor vs s E (ret a).
Proof. intros w _. exists []. by rewrite addEvents_nil. Qed.

Lemma emitsFor_throw {A} e : emitsFor vs s E (@throw A e).
Proof. intros w _. exists []. by rewrite addEvents_nil. Qed.

Lemma emitsFor_gets {A} (f : World → A) : emitsFor vs s E (gets f).
Proof. intros w _. exists []. by rewrite addEvents_nil. Qed.

Lemma emitsFor_await {A} (o : Outcome A) : emitsFor vs s E (await o).
Proof. destruct o; [apply emitsFor_ret | apply emitsFor_throw]. Qed.

Lemma emitsFor_emit e : E e → emitsFor vs s E (emit e).
Proof. intros He w _. exists [e]. split; [done|]. by apply Forall_singleton. Qed.

Lemma emitsFor_field {A} (f : VoiceStreamingSession → A) vs' : emitsFor vs s E (field f vs').
Proof.
  intros w _. exists []. rewrite addEvents_nil. unfold exec, field.
  by destruct (heap w !! vs').
Qed.

Lemma emitsFor_bind {A B} (m : M A) (f : A → M B) :
  emitsFor vs s E m → (∀ a, emitsFor vs s E (f a)) → emitsFor vs s E (bind m f).
Proof.
  intros Hm Hf w Hw. destruct (Hm w Hw) as (evs1 & H1 & HE1). unfold exec, bind in *.
  destruct (m w) as [[a|e] w1]; simpl in *; [|eauto]. subst w1.
  destruct (Hf a (addEvents evs1 w) Hw) as (evs2 & H2 & HE2). unfold exec in H2.
  exists (evs1 ++ evs2). rewrite H2, addEvents_app. split; [done|]. by apply Forall_app.
Qed.

Lemma emitsFor_try_catch {A} (m : M A) (h : Exn → M A) :
  emitsFor vs s E m → (∀ e, emitsFor vs s E (h e)) → emitsFor vs s E (try_catch m h).
Proof.
  intros Hm Hh w Hw. destruct (Hm w Hw) as (evs1 & H1 & HE1). unfold exec, try_catch in *.
  destruct (m w) as [[a|e] w1]; simpl in *; [eauto|]. subst w1.
  destruct (Hh e (addEvents evs1 w) Hw) as (evs2 & H2 & HE2). unfold exec in H2.
  exists (evs1 ++ evs2). rewrite H2, addEvents_app. split; [done|]. by apply Forall_app.
Qed.

(** A field of the session object itself is a field of [s]. *)
Lemma emitsFor_field_own {A B} (f : VoiceStreamingSession → A) (k : A → M B) :
  emitsFor vs s E (k (f s)) → emitsFor vs s E (bind (field f vs) k).
Proof. intros Hk w Hw. unfold exec, bind, field. rewrite Hw. by apply Hk. Qed.

End EmitsFor.

Ltac emitsFor_step :=
  cbv beta zeta;
  lazymatch goal with
  | |- emitsFor _ _ _ (bind (field _ _) _) => apply emitsFor_field_own
  | |- emitsFor _ _ _ (bind _ _) => apply emitsFor_bind; [| intros ?]
  | |- emitsFor _ _ _ (try_catch _ _) => apply emitsFor_try_catch; [| intros ?]
  | |- emitsFor _ _ _ (ret _) => apply emitsFor_ret
  | |- emitsFor _ _ _ (throw _) => apply emitsFor_throw
  | |- emitsFor _ _ _ (gets _) => apply emitsFor_gets
  | |- emitsFor _ _ _ (await _) => apply emitsFor_await
  | |- emitsFor _ _ _ (emit _) => apply emitsFor_emit; simpl; done
  | |- emitsFor _ _ _ (clientSend _ _) => apply emitsFor_emit; exact I
  | |- emitsFor _ _ _ (field _ _) => apply emitsFor_field
  | |- emitsFor _ _ _ (JSON_parse _) => unfold JSON_parse
  | |- emitsFor _ _ _ (get _ _) => unfold get
  | |- emitsFor _ _ _ (match ?x with _ => _ end) => destruct x
  end.

Section Isolation.

Variable N8N_WEBHOOK_URL : option string.
Variable ELEVENLABS_API_KEY : option string.
Variable Buffer_from_base64 : JValue → Outcome string.

Local Abbreviation deliver := (step N8N_WEBHOOK_URL ELEVENLABS_API_KEY Buffer_from_base64).
Local Abbreviation deliverAll := (run N8N_WEBHOOK_URL ELEVENLABS_API_KEY Buffer_from_base64).

Lemma emitsFor_onClientMessage c vs s k data me :
  emitsFor vs s (routedAs (sessionId s) (conversationId s) (personality s))
    (onClientMessage N8N_WEBHOOK_URL Buffer_from_base64 c vs k data me).
Proof.
  unfold onClientMessage, processAudioInput, transcribeAudio, routeToN8NWebhook,
    processTextInput, handleStopSpeaking.
  repeat emitsFor_step.
Qed.

(** X16. A session answers in the personality it was set up with.
    After set-up with a personality, and after any further inputs, on
    this session or on others, every webhook payload and every audit
    record made by a message of this session's client carries that
    personality, and the [sessionId] and [conversationId] given at
    set-up. *)
Theorem personality_fixed_at_setup w c sid cid p ie inputs l h data me :
  listeners (deliverAll (deliver w (Initialize c sid cid p ie)) inputs) !! l = Some h →
  lSession h = nextRef w →
  Forall (routedAs sid cid p)
    (newEvents (deliverAll (deliver w (Initialize c sid cid p ie)) inputs)
       (deliver (deliverAll (deliver w (Initialize c sid cid p ie)) inputs)
          (ClientMessage l data me))).
Proof.
  intros Hl Hh.
  destruct (initialize_makes_session N8N_WEBHOOK_URL ELEVENLABS_API_KEY Buffer_from_base64
              w c sid cid p ie) as (s1 & Hs1 & Hsid & Hcid & Hp & _ & Hlt).
  destruct (run_keeps_identity N8N_WEBHOOK_URL ELEVENLABS_API_KEY Buffer_from_base64
              _ inputs _ _ Hs1 Hlt) as (s2 & Hs2 & Hsid2 & Hcid2 & Hp2 & _).
  set (w2 := deliverAll (deliver w (Initialize c sid cid p ie)) inputs) in *.
  rewrite <- Hh in Hs2.
  destruct (emitsFor_onClientMessage (lClient h) (lSession h) s2 (lStream h) data me w2 Hs2)
    as (evs & Hevs & HE).
  replace (deliver w2 (ClientMessage l data me)) with (addEvents evs w2)
    by (unfold step, dispatch, exec, bind, gets; rewrite Hl; exact (eq_sym Hevs)).
  rewrite (newEvents_app w2 (addEvents evs w2) evs eq_refl).
  by rewrite Hsid2, Hcid2, Hp2, Hsid, Hcid, Hp in HE.
Qed.

(** X17. Usage is counted from the clock reading taken at set-up.
    After set-up and any further inputs, the close of a client whose
    stream is registered to this session reports, for the [sessionId]
    given at set-up, the minutes between the start reading and the
    close, rounded up. *)
Theorem usage_counted_from_setup w c sid cid p ie inputs l h ce :
  listeners (deliverAll (deliver w (Initialize c sid cid p ie)) inputs) !! l = Some h →
  activeSessions (deliverAll (deliver w (Initialize c sid cid p ie)) inputs) !! lStream h
  = Some (nextRef w) →
  usageReports
    (newEvents (deliverAll (deliver w (Initialize c sid cid p ie)) inputs)
       (deliver (deliverAll (deliver w (Initialize c sid cid p ie)) inputs)
          (ClientClose l ce)))
  = [(sid, Math_ceil_div (ceNow ce - ieNowStart ie) (60 * 1000))].
Proof.
  intros Hl Hk.
  destruct (initialize_makes_session N8N_WEBHOOK_URL ELEVENLABS_API_KEY Buffer_from_base64
              w c sid cid p ie) as (s1 & Hs1 & Hsid & _ & _ & Hstart & Hlt).
  destruct (run_keeps_identity N8N_WEBHOOK_URL ELEVENLABS_API_KEY Buffer_from_base64
              _ inputs _ _ Hs1 Hlt) as (s2 & Hs2 & Hsid2 & _ & _ & Hstart2).
  set (w2 := deliverAll (deliver w (Initialize c sid cid p ie)) inputs) in *.
  replace (deliver w2 (ClientClose l ce)) with (exec (cleanupSession (lStream h) ce) w2)
    by (unfold step, dispatch, onClientClose, exec, bind, gets; by rewrite Hl).
  rewrite (cleanupSession_events _ _ _ _ _ Hk Hs2).
  rewrite Hsid2, Hstart2, Hsid, Hstart. by destruct (elevenLabsWs s2).
Qed.

End Isolation.

(** ** The properties above on the concrete deployment *)

Lemma audio_input_answered_witness :
  step None None sampleBuffer sampleWorld
    (ClientMessage 0 (audioInputMsg "AAAA") (sampleMessage (JObj [("text", JStr "Hi")])))
  = addEvents
      ([ClientSend 7 audioProcessingMsg;
        GenerateContent "AAAA";
        ClientSend 7 (transcriptMsg (trim "hello there"));
        GetSession (sessionId sampleSession);
        AxiosPost (UNIFIED_WEBHOOK_URL None)
          (webhookPayloadOf sampleSession (personality sampleSession)
             (JStr (trim "hello there")) JUndefined
             (reNow (meRouter (sampleMessage (JObj [("text", JStr "Hi")])))));
        CreateWebhookLog
          (successRecordOf sampleSession (personality sampleSession)
             (JStr (trim "hello there")) (UNIFIED_WEBHOOK_URL None));
        ClientSend 7
          (aiResponseMsg (replyText (JObj [("text", JStr "Hi")]) (JStr (trim "hello there"))))]
       ++ match openLink sampleWorld sampleSession with
          | Some ws =>
              [TtsSend ws
                 (textFrame (replyText (JObj [("text", JStr "Hi")])
                               (JStr (trim "hello there"))))]
          | None => []
          end) sampleWorld.
Proof.
  apply (audio_input_answered None None sampleBuffer sampleWorld 0%nat
           (mkListener 7 0 "s-voice-1000") sampleSession
           [("type", JStr "audio_input"); ("audio", JStr "AAAA")]
           (sampleMessage (JObj [("text", JStr "Hi")])) "AAAA" "hello there" JUndefined
           (JObj [("text", JStr "Hi")])); vm_compute; reflexivity.
Defined.

Lemma reply_before_link_opens_is_dropped_witness :
  clientMessages
    (newEvents emptyWorld
       (step None None sampleBuffer emptyWorld
          (Initialize 7 "s" "c" "Savantist" (sampleInit 1000)))) = [voiceReadyMsg] ∧
  readyStateOf
    (step None None sampleBuffer emptyWorld
       (Initialize 7 "s" "c" "Savantist" (sampleInit 1000))) (nextSocket emptyWorld)
  = CONNECTING ∧
  newEvents
    (step None None sampleBuffer emptyWorld
       (Initialize 7 "s" "c" "Savantist" (sampleInit 1000)))
    (step None None sampleBuffer
       (step None None sampleBuffer emptyWorld
          (Initialize 7 "s" "c" "Savantist" (sampleInit 1000)))
       (ClientMessage (length (listeners emptyWorld))
          (Some (JObj [("type", JStr "text_input"); ("text", JStr "Hello")]))
          (sampleMessage (JObj [("response", JStr "Hi there")]))))
  = [GetSession "s";
     AxiosPost (UNIFIED_WEBHOOK_URL None)
       (webhookPayloadOf
          (mkSession "s" "c" "Savantist" (Some (nextSocket emptyWorld)) true
             (ieNowStart (sampleInit 1000)))
          "Savantist" (JStr "Hello") JUndefined
          (reNow (meRouter (sampleMessage (JObj [("response", JStr "Hi there")])))));
     CreateWebhookLog
       (successRecordOf
          (mkSession "s" "c" "Savantist" (Some (nextSocket emptyWorld)) true
             (ieNowStart (sampleInit 1000)))
          "Savantist" (JStr "Hello") (UNIFIED_WEBHOOK_URL None))].
Proof.
  apply (reply_before_link_opens_is_dropped None None sampleBuffer emptyWorld 7%nat
           "s" "c" "Savantist" (sampleInit 1000) (JStr "Hello")
           (sampleMessage (JObj [("response", JStr "Hi there")])) JUndefined
           (JObj [("response", JStr "Hi there")])); reflexivity.
Defined.

Lemma failed_setup_leaves_no_partial_session_witness :
  activeSessions
    (step None None sampleBuffer sampleWorld
       (Initialize 8 "s" "c" "Savantist" (failingInit 2000)))
  = delete (streamSessionIdOf "s" (ieNowId (failingInit 2000))) (activeSessions sampleWorld) ∧
  sessionKeyMap
    (step None None sampleBuffer sampleWorld
       (Initialize 8 "s" "c" "Savantist" (failingInit 2000)))
  = delete "s" (sessionKeyMap sampleWorld) ∧
  sockets
    (step None None sampleBuffer sampleWorld
       (Initialize 8 "s" "c" "Savantist" (failingInit 2000))) = sockets sampleWorld ∧
  listeners
    (step None None sampleBuffer sampleWorld
       (Initialize 8 "s" "c" "Savantist" (failingInit 2000))) = listeners sampleWorld ∧
  clientMessages
    (newEvents sampleWorld
       (step None None sampleBuffer sampleWorld
          (Initialize 8 "s" "c" "Savantist" (failingInit 2000)))) = [initErrorMsg] ∧
  usageReports
    (newEvents sampleWorld
       (step None None sampleBuffer sampleWorld
          (Initialize 8 "s" "c" "Savantist" (failingInit 2000))))
  = [("s", Math_ceil_div (ceNow (ieCleanup (failingInit 2000))
                          - ieNowStart (failingInit 2000)) (60 * 1000))].
Proof.
  apply (failed_setup_leaves_no_partial_session None None sampleBuffer sampleWorld 8%nat
           "s" "c" "Savantist" (failingInit 2000) (SyntaxError "Invalid URL")).
  reflexivity.
Defined.

Lemma setup_then_close_round_trip_witness :
  activeSessions
    (step None None sampleBuffer
       (step None None sampleBuffer emptyWorld
          (Initialize 7 "s" "c" "Savantist" (sampleInit 1000)))
       (ClientClose (length (listeners emptyWorld)) (sampleCleanup 62000)))
  = delete (streamSessionIdOf "s" (ieNowId (sampleInit 1000))) (activeSessions emptyWorld) ∧
  sessionKeyMap
    (step None None sampleBuffer
       (step None None sampleBuffer emptyWorld
          (Initialize 7 "s" "c" "Savantist" (sampleInit 1000)))
       (ClientClose (length (listeners emptyWorld)) (sampleCleanup 62000)))
  = delete "s" (sessionKeyMap emptyWorld) ∧
  newEvents
    (step None None sampleBuffer emptyWorld
       (Initialize 7 "s" "c" "Savantist" (sampleInit 1000)))
    (step None None sampleBuffer
       (step None None sampleBuffer emptyWorld
          (Initialize 7 "s" "c" "Savantist" (sampleInit 1000)))
       (ClientClose (length (listeners emptyWorld)) (sampleCleanup 62000)))
  = [IncrementVoiceMinutes "s"
       (Math_ceil_div (ceNow (sampleCleanup 62000) - ieNowStart (sampleInit 1000))
          (60 * 1000));
     TtsClose (nextSocket emptyWorld)] ∧
  readyStateOf
    (step None None sampleBuffer
       (step None None sampleBuffer emptyWorld
          (Initialize 7 "s" "c" "Savantist" (sampleInit 1000)))
       (ClientClose (length (listeners emptyWorld)) (sampleCleanup 62000)))
    (nextSocket emptyWorld) = CLOSING.
Proof.
  apply (setup_then_close_round_trip None None sampleBuffer emptyWorld 7%nat
           "s" "c" "Savantist" (sampleInit 1000) (sampleCleanup 62000)).
  reflexivity.
Defined.

Lemma only_lifecycle_inputs_touch_registry_witness :
  activeSessions (step None None sampleBuffer sampleWorld (ElevenLabsClosed 0))
  = activeSessions sampleWorld ∧
  sessionKeyMap (step None None sampleBuffer sampleWorld (ElevenLabsClosed 0))
  = sessionKeyMap sampleWorld ∧
  heap (step None None sampleBuffer sampleWorld (ElevenLabsClosed 0)) = heap sampleWorld ∧
  listeners (step None None sampleBuffer sampleWorld (ElevenLabsClosed 0))
  = listeners sampleWorld.
Proof.
  apply (only_lifecycle_inputs_touch_registry None None sampleBuffer sampleWorld
           (ElevenLabsClosed 0)).
  reflexivity.
Defined.

Lemma final_fragment_forwarded_and_cached_witness :
  step None None sampleBuffer sampleWorld (ElevenLabsMessage 0 (Some finalFragment) sampleCache)
  = addEvents [ClientSend (wsClient (mkSocket OPEN 7 0)) (audioOutputMsg finalFragment);
               CreateAudioCache (audioCacheRecordOf sampleSession "tok")] sampleWorld.
Proof.
  apply (final_fragment_forwarded_and_cached None None sampleBuffer sampleWorld 0%nat
           (mkSocket OPEN 7 0) sampleSession finalFragment sampleCache "tok");
    vm_compute; reflexivity.
Defined.

Lemma fragment_without_audio_or_not_final_witness :
  step None None sampleBuffer sampleWorld
    (ElevenLabsMessage 0 (Some (JObj [("isFinal", JBool true)])) sampleCache)
  = sampleWorld.
Proof.
  destruct (fragment_without_audio_or_not_final None None sampleBuffer sampleWorld 0%nat
              (mkSocket OPEN 7 0) sampleSession (JObj [("isFinal", JBool true)]) sampleCache
              ltac:(vm_compute; reflexivity) ltac:(vm_compute; reflexivity)) as [Hdrop _].
  exact (Hdrop eq_refl).
Defined.

Lemma secondary_index_points_into_registry_witness :
  ∃ vs s,
    activeSessions
      (run None None sampleBuffer emptyWorld
         [Initialize 7 "s" "c" "Savantist" (sampleInit 1000)]) !! "s-voice-1000" = Some vs ∧
    heap
      (run None None sampleBuffer emptyWorld
         [Initialize 7 "s" "c" "Savantist" (sampleInit 1000)]) !! vs = Some s ∧
    sessionId s = "s".
Proof.
  apply (secondary_index_points_into_registry None None sampleBuffer
           [Initialize 7 "s" "c" "Savantist" (sampleInit 1000)] "s" "s-voice-1000").
  vm_compute; reflexivity.
Defined.

Lemma synthesis_link_never_shared_witness : 0%nat = 0%nat.
Proof.
  apply (synthesis_link_never_shared None None sampleBuffer
           [Initialize 7 "s" "c" "Savantist" (sampleInit 1000)] 0%nat 0%nat
           (mkSession "s" "c" "Savantist" (Some 0%nat) true 1000)
           (mkSession "s" "c" "Savantist" (Some 0%nat) true 1000) 0%nat);
    vm_compute; reflexivity.
Defined.

Lemma registry_and_listeners_refer_to_sessions_witness :
  is_Some
    (heap (run None None sampleBuffer emptyWorld
             [Initialize 7 "s" "c" "Savantist" (sampleInit 1000)])
       !! lSession (mkListener 7 0 "s-voice-1000")).
Proof.
  destruct (registry_and_listeners_refer_to_sessions None None sampleBuffer
              [Initialize 7 "s" "c" "Savantist" (sampleInit 1000)]) as [_ Hlisteners].
  exact (Hlisteners 0%nat (mkListener 7 0 "s-voice-1000") ltac:(vm_compute; reflexivity)).
Defined.

Lemma personality_fixed_at_setup_witness :
  Forall (routedAs "s" "c" "Savantist")
    (newEvents
       (run None None sampleBuffer
          (step None None sampleBuffer emptyWorld
             (Initialize 7 "s" "c" "Savantist" (sampleInit 1000)))
          [Initialize 8 "t" "d" "Level 1 ASD" (sampleInit 1500); ElevenLabsOpen 0])
       (step None None sampleBuffer
          (run None None sampleBuffer
             (step None None sampleBuffer emptyWorld
                (Initialize 7 "s" "c" "Savantist" (sampleInit 1000)))
             [Initialize 8 "t" "d" "Level 1 ASD" (sampleInit 1500); ElevenLabsOpen 0])
          (ClientMessage 0 (textInput "Hello")
             (sampleMessage (JObj [("response", JStr "Hi there")]))))).
Proof.
  apply (personality_fixed_at_setup None None sampleBuffer emptyWorld 7%nat "s" "c"
           "Savantist" (sampleInit 1000)
           [Initialize 8 "t" "d" "Level 1 ASD" (sampleInit 1500); ElevenLabsOpen 0]
           0%nat (mkListener 7 0 "s-voice-1000")); vm_compute; reflexivity.
Defined.

Lemma usage_counted_from_setup_witness :
  usageReports
    (newEvents
       (run None None sampleBuffer
          (step None None sampleBuffer emptyWorld
             (Initialize 7 "s" "c" "Savantist" (sampleInit 1000)))
          [Initialize 8 "t" "d" "Level 1 ASD" (sampleInit 1500); ElevenLabsOpen 0])
       (step None None sampleBuffer
          (run None None sampleBuffer
             (step None None sampleBuffer emptyWorld
                (Initialize 7 "s" "c" "Savantist" (sampleInit 1000)))
             [Initialize 8 "t" "d" "Level 1 ASD" (sampleInit 1500); ElevenLabsOpen 0])
          (ClientClose 0 (sampleCleanup 62000))))
  = [("s", Math_ceil_div (ceNow (sampleCleanup 62000) - ieNowStart (sampleInit 1000))
             (60 * 1000))].
Proof.
  apply (usage_counted_from_setup None None sampleBuffer emptyWorld 7%nat "s" "c"
           "Savantist" (sampleInit 1000)
           [Initialize 8 "t" "d" "Level 1 ASD" (sampleInit 1500); ElevenLabsOpen 0]
           0%nat (mkListener 7 0 "s-voice-1000")); vm_compute; reflexivity.
Defined.

(** * The personality tables *)

Lemma env_or_nonempty (v : option string) (fallback : string) :
  fallback ≠ EmptyString → env_or v fallback ≠ EmptyString.
Proof.
  intros Hf. unfold env_or. destruct v as [x|]; [|exact Hf].
  destruct (String.eqb x EmptyString) eqn:Hx; [exact Hf|].
  now apply String.eqb_neq in Hx.
Qed.

Lemma memberOr_own (v : string) (b : Member) :
  v ≠ EmptyString → memberOr (Own v) b = Own v.
Proof.
  intros Hv. unfold memberOr.
  destruct (String.eqb v EmptyString) eqn:Hx; [|reflexivity].
  now apply String.eqb_eq in Hx.
Qed.

Lemma readMember_absent (fields : list (string * string)) (key : string) :
  ownProperty key fields = None → key ∉ objectPrototypeMembers →
  readMember fields key = Absent.
Proof.
  intros Hown Hnot. unfold readMember. rewrite Hown.
  destruct (existsb (String.eqb key) objectPrototypeMembers) eqn:Hex; [|reflexivity].
  apply existsb_exists in Hex as (x & Hin & Hx).
  apply String.eqb_eq in Hx. subst x.
  exfalso. apply Hnot. now apply list_elem_of_In.
Qed.

Lemma readMember_inherited (fields : list (string * string)) (key : string) :
  ownProperty key fields = None → key ∈ objectPrototypeMembers →
  readMember fields key = Inherited key.
Proof.
  intros Hown Hin. unfold readMember. rewrite Hown.
  destruct (existsb (String.eqb key) objectPrototypeMembers) eqn:Hex; [reflexivity|].
  assert (existsb (String.eqb key) objectPrototypeMembers = true) as Hex'.
  { apply existsb_exists. exists key. split; [now apply list_elem_of_In|].
    apply String.eqb_refl. }
  congruence.
Qed.

Lemma inherited_not_known (p : string) :
  p ∈ objectPrototypeMembers → knownPersonality p = false.
Proof.
  intros Hin. unfold objectPrototypeMembers in Hin.
  repeat (apply elem_of_cons in Hin as [->|Hin]; [reflexivity|]).
  now apply elem_of_nil in Hin.
Qed.

Lemma ownProperty_unknown (p : string) (a b c : string) :
  knownPersonality p = false →
  ownProperty p [("AUtistic AI", a); ("Level 1 ASD", b); ("Savantist", c)] = None.
Proof.
  unfold knownPersonality. intros Hk.
  apply orb_false_iff in Hk as [Hk H3]. apply orb_false_iff in Hk as [H1 H2].
  cbn [ownProperty].
  rewrite (String.eqb_sym "AUtistic AI" p), H1.
  rewrite (String.eqb_sym "Level 1 ASD" p), H2.
  rewrite (String.eqb_sym "Savantist" p), H3. reflexivity.
Qed.

(** X18. A personality that is not the name of a member of
    [Object.prototype] always resolves to a voice and to a prompt, both
    non-empty strings; one that is none of the three known ones gets the
    voice and the prompt of 'AUtistic AI'. *)
Theorem personality_resolves_with_default (env : VoiceEnv) (personality : string) :
  personality ∉ objectPrototypeMembers →
  (∃ voice, getVoiceIdForPersonality env personality = Own voice ∧ voice ≠ EmptyString)
  ∧ (∃ prompt, getPersonalitySystemPrompt personality = Own prompt ∧ prompt ≠ EmptyString)
  ∧ (knownPersonality personality = false →
     getVoiceIdForPersonality env personality = getVoiceIdForPersonality env "AUtistic AI"
     ∧ getPersonalitySystemPrompt personality = getPersonalitySystemPrompt "AUtistic AI").
Proof.
  intros Hnot.
  assert (env_or (ELEVENLABS_VOICE_AUTISTIC_AI env) "BRruTxiLM2nszrcCIpz1" ≠ EmptyString) as Ha
    by (now apply env_or_nonempty).
  assert (env_or (ELEVENLABS_VOICE_LEVEL1_ASD env) "g2W4HAjKvdW93AmsjsOx" ≠ EmptyString) as Hb
    by (now apply env_or_nonempty).
  assert (env_or (ELEVENLABS_VOICE_SAVANTIST env) "WAixHs5LYSwPVDJxQgN7" ≠ EmptyString) as Hc
    by (now apply env_or_nonempty).
  assert (getVoiceIdForPersonality env "AUtistic AI"
          = Own (env_or (ELEVENLABS_VOICE_AUTISTIC_AI env) "BRruTxiLM2nszrcCIpz1")) as Hdv.
  { unfold getVoiceIdForPersonality, readMember, voiceMap. cbn [ownProperty String.eqb Ascii.eqb Bool.eqb].
    now apply memberOr_own. }
  assert (∀ p, knownPersonality p = false → p ∉ objectPrototypeMembers →
               getVoiceIdForPersonality env p = getVoiceIdForPersonality env "AUtistic AI"
               ∧ getPersonalitySystemPrompt p = getPersonalitySystemPrompt "AUtistic AI") as Hunknown.
  { intros p Hk Hp. split.
    - unfold getVoiceIdForPersonality at 1.
      rewrite (readMember_absent (voiceMap env) p); [| now apply ownProperty_unknown | exact Hp].
      cbn [memberOr]. rewrite Hdv.
      unfold readMember, voiceMap. cbn [ownProperty String.eqb Ascii.eqb Bool.eqb]. reflexivity.
    - unfold getPersonalitySystemPrompt at 1.
      rewrite (readMember_absent prompts p); [| now apply ownProperty_unknown | exact Hp].
      reflexivity. }
  destruct (knownPersonality personality) eqn:Hk.
  - unfold knownPersonality in Hk.
    apply orb_true_iff in Hk as [Hk|Hk]; [apply orb_true_iff in Hk as [Hk|Hk]|];
      apply String.eqb_eq in Hk; subst personality.
    + split; [|split; [|discriminate]].
      * eexists. split; [exact Hdv | exact Ha].
      * eexists. split; [reflexivity | discriminate].
    + split; [|split; [|discriminate]].
      * eexists. split; [|exact Hb].
        unfold getVoiceIdForPersonality, readMember, voiceMap.
        cbn [ownProperty String.eqb Ascii.eqb Bool.eqb]. now apply memberOr_own.
      * eexists. split; [reflexivity | discriminate].
    + split; [|split; [|discriminate]].
      * eexists. split; [|exact Hc].
        unfold getVoiceIdForPersonality, readMember, voiceMap.
        cbn [ownProperty String.eqb Ascii.eqb Bool.eqb]. now apply memberOr_own.
      * eexists. split; [reflexivity | discriminate].
  - destruct (Hunknown personality Hk Hnot) as [Hv Hp].
    split; [|split; [|intros _; split; assumption]].
    + rewrite Hv. eexists. split; [exact Hdv | exact Ha].
    + rewrite Hp. eexists. split; [reflexivity | discriminate].
Qed.

Lemma personality_resolves_with_default_witness :
  ("Robot" ∉ objectPrototypeMembers)
  ∧ ((∃ voice, getVoiceIdForPersonality (mkVoiceEnv None (Some "v2") None) "Robot" = Own voice
               ∧ voice ≠ EmptyString)
     ∧ (∃ prompt, getPersonalitySystemPrompt "Robot" = Own prompt ∧ prompt ≠ EmptyString)
     ∧ (knownPersonality "Robot" = false →
        getVoiceIdForPersonality (mkVoiceEnv None (Some "v2") None) "Robot"
        = getVoiceIdForPersonality (mkVoiceEnv None (Some "v2") None) "AUtistic AI"
        ∧ getPersonalitySystemPrompt "Robot" = getPersonalitySystemPrompt "AUtistic AI")).
Proof.
  assert ("Robot" ∉ objectPrototypeMembers) as H by compute_done.
  split; [exact H|].
  exact (personality_resolves_with_default (mkVoiceEnv None (Some "v2") None) "Robot" H).
Defined.

(** X19. A personality that is the name of a member of
    [Object.prototype] ('constructor', 'toString', ...) resolves to that
    inherited member, which is no string: neither a voice nor the
    default is returned, whatever the environment. *)
Theorem inherited_name_resolves_to_no_string (env : VoiceEnv) (personality : string) :
  personality ∈ objectPrototypeMembers →
  getVoiceIdForPersonality env personality = Inherited personality
  ∧ getPersonalitySystemPrompt personality = Inherited personality.
Proof.
  intros Hin. pose proof (inherited_not_known _ Hin) as Hk. split.
  - unfold getVoiceIdForPersonality.
    rewrite (readMember_inherited (voiceMap env) personality);
      [reflexivity | now apply ownProperty_unknown | exact Hin].
  - unfold getPersonalitySystemPrompt.
    rewrite (readMember_inherited prompts personality);
      [reflexivity | now apply ownProperty_unknown | exact Hin].
Qed.

Lemma inherited_name_resolves_to_no_string_witness :
  ("constructor" ∈ objectPrototypeMembers)
  ∧ getVoiceIdForPersonality (mkVoiceEnv None None None) "constructor" = Inherited "constructor"
  ∧ getPersonalitySystemPrompt "constructor" = Inherited "constructor".
Proof.
  assert ("constructor" ∈ objectPrototypeMembers) as H by compute_done.
  split; [exact H|].
  exact (inherited_name_resolves_to_no_string (mkVoiceEnv None None None) "constructor" H).
Defined.

(** * Wallet adapters *)

Lemma getWalletAdapter_cases (walletType : string) (a : WalletAdapter) :
  getWalletAdapter walletType = Ok a →
  (walletType = "phantom" ∧ a = PhantomWallet)
  ∨ (walletType = "solflare" ∧ a = SolflareWallet).
Proof.
  unfold getWalletAdapter. intros H.
  destruct (String.eqb walletType "phantom") eqn:H1.
  - apply String.eqb_eq in H1. left. split; congruence.
  - destruct (String.eqb walletType "solflare") eqn:H2; [|discriminate].
    apply String.eqb_eq in H2. right. split; congruence.
Qed.

Lemma bget_truthy (v : BValue) (name : string) :
  btruthy (bget v name) = true → btruthy v = true.
Proof. destruct v; simpl; try discriminate; reflexivity. Qed.

Lemma phantomProvider_installed (win : Browser) :
  btruthy (phantomProvider win) = btruthy (PhantomWallet_isInstalled (Some win)).
Proof.
  unfold phantomProvider, PhantomWallet_isInstalled, bor.
  destruct (btruthy (bget (solana win) "isPhantom")) eqn:H; [|reflexivity].
  rewrite H. now apply bget_truthy in H.
Qed.

(** X20. Connecting a wallet that is not installed opens the wallet's
    install page in a new tab, makes no call to any provider, and fails
    with the 'not installed' error of that wallet. *)
Theorem connect_without_wallet_opens_install_page
    (walletType : string) (a : WalletAdapter) (win : Browser) (publicKey : Outcome string) :
  getWalletAdapter walletType = Ok a →
  btruthy (isInstalled a (Some win)) = false →
  connect a (Some win) publicKey
  = (Throw (Error (walletName walletType +:+ " wallet is not installed. Please install it first.")),
     [WindowOpen (installPage walletType) "_blank"]).
Proof.
  intros Ha Hno. destruct (getWalletAdapter_cases _ _ Ha) as [[-> ->]|[-> ->]];
    cbn [connect disconnect isInstalled PhantomWallet SolflareWallet] in *.
  - unfold PhantomWallet_connect. rewrite Hno. reflexivity.
  - unfold SolflareWallet_connect. rewrite Hno. reflexivity.
Qed.

Lemma connect_without_wallet_opens_install_page_witness :
  connect SolflareWallet (Some phantomBrowser) (Returns "key")
  = (Throw (Error (walletName "solflare" +:+ " wallet is not installed. Please install it first.")),
     [WindowOpen (installPage "solflare") "_blank"]).
Proof.
  apply (connect_without_wallet_opens_install_page "solflare" SolflareWallet
           phantomBrowser (Returns "key")); reflexivity.
Defined.





(** X23. Disconnecting Phantom turns to a provider exactly when
    [isInstalled] is truthy on a page with a window.  Where it is falsy
    there, disconnect returns without any effect; where it is truthy,
    the provider's [disconnect] is called and its failure, if any, is
    the caller's, and a provider without [disconnect] makes a TypeError
    with no call.  Without a window [isInstalled] is [false] and
    disconnect throws a ReferenceError. *)
Theorem phantom_disconnect_follows_isInstalled (window : option Browser) (done : Outcome unit) :
  PhantomWallet_disconnect window done
  = match window with
    | None => (Throw (ReferenceError "window is not defined"), [])
    | Some win =>
        if btruthy (PhantomWallet_isInstalled window) then
          if callable (bget (phantomProvider win) "disconnect") then
            (match done with Returns _ => Ok tt | Throws e => Throw e end,
             [ProviderDisconnect (phantomProvider win)])
          else (Throw (TypeError "provider.disconnect is not a function"), [])
        else (Ok tt, [])
    end
  ∧ PhantomWallet_isInstalled None = BBool false.
Proof.
  split; [|reflexivity]. destruct window as [win|]; [|reflexivity].
  unfold PhantomWallet_disconnect. rewrite (phantomProvider_installed win). reflexivity.
Qed.

(** * Conversation titles, summaries and topics *)

Lemma dropSpaces_suffix (t : text) : ∃ k, t = k ++ dropSpaces t.
Proof.
  induction t as [|c t IH]; [now exists []|]. simpl.
  destruct (isSpace c); [|now exists []].
  destruct IH as [k Hk]. exists (c :: k). simpl. now rewrite <- Hk.
Qed.

Lemma dropSpaces_clean (t : text) : startsWithSpace (dropSpaces t) = false.
Proof.
  induction t as [|c t IH]; [reflexivity|]. simpl.
  destruct (isSpace c) eqn:Hc; [exact IH|]. simpl. exact Hc.
Qed.

Lemma startsWithSpace_prefix (t k : text) :
  t ≠ [] → startsWithSpace (t ++ k) = startsWithSpace t.
Proof. destruct t; [congruence|reflexivity]. Qed.

Lemma startsWithSpace_nil_or (t k : text) :
  startsWithSpace (t ++ k) = false → startsWithSpace t = false.
Proof. destruct t; [reflexivity|exact id]. Qed.

Lemma trimText_start (t : text) : startsWithSpace (trimText t) = false.
Proof.
  unfold trimText.
  destruct (dropSpaces_suffix (rev (dropSpaces t))) as [k Hk].
  apply (startsWithSpace_nil_or _ (rev k)).
  rewrite <- rev_app_distr, <- Hk, rev_involutive. apply dropSpaces_clean.
Qed.

Lemma trimText_end (t : text) : startsWithSpace (rev (trimText t)) = false.
Proof. unfold trimText. rewrite rev_involutive. apply dropSpaces_clean. Qed.

Lemma length_dropSpaces (t : text) : (length (dropSpaces t) ≤ length t)%nat.
Proof.
  destruct (dropSpaces_suffix t) as [k Hk]. rewrite Hk at 2. rewrite length_app. lia.
Qed.

Lemma length_stripFirstQuote (t : text) : (length (stripFirstQuote t) ≤ length t)%nat.
Proof. destruct t as [|c t]; simpl; [lia|]. destruct (isQuote c); simpl; lia. Qed.

Lemma length_stripQuotes (t : text) : (length (stripQuotes t) ≤ length t)%nat.
Proof.
  unfold stripQuotes. rewrite length_rev.
  etransitivity; [apply length_stripFirstQuote|]. rewrite length_rev.
  apply length_stripFirstQuote.
Qed.

Lemma textOr_usable (resultText : option text) (fallback : text) :
  textOr (trimText <$> resultText) fallback
  = if usable (Returns resultText) then default [] (trimText <$> resultText) else fallback.
Proof. destruct resultText as [t|]; simpl; [|reflexivity]. destruct (nonEmpty (trimText t)); reflexivity. Qed.

(** X24. A conversation title is never longer than 100 code units; when
    Gemini fails, or answers nothing but white space, it is cut from
    the user's message and never longer than 50. *)
Theorem title_length_bounded (firstUserMessage : text) (answer : Outcome (option text)) :
  (length (fst (generateConversationTitle firstUserMessage answer))
   ≤ if usable answer then 100 else 50)%nat.
Proof.
  destruct answer as [resultText|e]; simpl fst.
  - rewrite textOr_usable. destruct (usable (Returns resultText)).
    + rewrite length_take. lia.
    + rewrite length_take.
      pose proof (length_stripQuotes (take 50 firstUserMessage)) as H.
      rewrite length_take in H. lia.
  - simpl. rewrite length_take. lia.
Qed.

(** X25. A conversation summary is never empty and has no white space
    at either end, whatever Gemini answers and also when it fails. *)
Theorem summary_never_blank (messages : list ChatMessage) (answer : Outcome (option text)) :
  let summary := fst (generateConversationSummary messages answer) in
  nonEmpty summary = true
  ∧ startsWithSpace summary = false
  ∧ startsWithSpace (rev summary) = false.
Proof.
  destruct answer as [resultText|e]; simpl fst; [|now vm_compute].
  rewrite textOr_usable. destruct resultText as [t|]; simpl; [|now vm_compute].
  destruct (nonEmpty (trimText t)) eqn:Ht; [|now vm_compute].
  split; [exact Ht|]. split; [apply trimText_start | apply trimText_end].
Qed.

Lemma noLineFeed_existsb (t : text) : noLineFeed t → existsb (N.eqb 10) t = false.
Proof.
  induction 1 as [|c t Hc _ IH]; [reflexivity|]. cbn [existsb]. now rewrite Hc, IH.
Qed.

Lemma noLineFeed_splitLines (t : text) : Forall noLineFeed (splitLines t).
Proof.
  induction t as [|c t IH]; simpl.
  - repeat constructor.
  - destruct (N.eqb c 10) eqn:Hc.
    + constructor; [constructor | exact IH].
    + destruct (splitLines t) as [|line lines].
      * constructor; [|constructor]. constructor; [|constructor].
        rewrite N.eqb_sym. exact Hc.
      * inversion IH; subst. constructor; [|assumption].
        constructor; [rewrite N.eqb_sym; exact Hc | assumption].
Qed.

Lemma noLineFeed_dropSpaces (t : text) : noLineFeed t → noLineFeed (dropSpaces t).
Proof.
  destruct (dropSpaces_suffix t) as [k Hk]. intros H. unfold noLineFeed in *.
  rewrite Hk in H. now apply Forall_app in H as [_ H].
Qed.

Lemma noLineFeed_rev (t : text) : noLineFeed t → noLineFeed (rev t).
Proof. unfold noLineFeed. apply Forall_rev. Qed.

Lemma noLineFeed_trimText (t : text) : noLineFeed t → noLineFeed (trimText t).
Proof.
  intros H. unfold trimText.
  now apply noLineFeed_rev, noLineFeed_dropSpaces, noLineFeed_rev, noLineFeed_dropSpaces.
Qed.

(** A bullet goes from a trimmed line: what is left is trimmed as well. *)
Lemma stripBullet_trimmed (t : text) :
  startsWithSpace t = false → startsWithSpace (rev t) = false → noLineFeed t →
  nonEmpty (stripBullet t) = true → trimmedLine (stripBullet t) = true.
Proof.
  intros Hs He Hlf Hne. unfold trimmedLine. rewrite Hne.
  assert (∃ k, t = k ++ stripBullet t) as [k Hk].
  { destruct t as [|c t]; [now exists []|]. simpl.
    destruct (N.eqb c 45 || N.eqb c 8226); [|now exists []].
    destruct (dropSpaces_suffix t) as [k Hk]. exists (c :: k). simpl. now rewrite <- Hk. }
  assert (startsWithSpace (stripBullet t) = false) as ->.
  { destruct t as [|c t]; [reflexivity|]. simpl.
    destruct (N.eqb c 45 || N.eqb c 8226); [apply dropSpaces_clean | exact Hs]. }
  assert (startsWithSpace (rev (stripBullet t)) = false) as ->.
  { rewrite Hk, rev_app_distr in He.
    rewrite startsWithSpace_prefix in He; [exact He|].
    intros Hnil. apply (f_equal (@rev N)) in Hnil. rewrite rev_involutive in Hnil.
    simpl in Hnil. rewrite Hnil in Hne. discriminate. }
  rewrite noLineFeed_existsb; [reflexivity|].
  unfold noLineFeed in *. rewrite Hk in Hlf. now apply Forall_app in Hlf as [_ Hlf].
Qed.

Lemma topicLines_trimmed (topicsText : text) :
  Forall (λ topic, trimmedLine topic = true) (topicLines topicsText).
Proof.
  unfold topicLines. apply Forall_forall. intros topic Hin.
  apply list_elem_of_In, filter_In in Hin as [Hin Hne].
  apply in_map_iff in Hin as (line & <- & Hin).
  apply filter_In in Hin as [Hin _].
  apply in_map_iff in Hin as (raw & <- & Hin).
  apply stripBullet_trimmed; [apply trimText_start | apply trimText_end | | exact Hne].
  apply noLineFeed_trimText.
  pose proof (noLineFeed_splitLines topicsText) as H.
  rewrite Forall_forall in H. now apply H, list_elem_of_In.
Qed.

Lemma Forall_sublist {A : Type} (P : A → Prop) (l1 l2 : list A) :
  l1 `sublist_of` l2 → Forall P l2 → Forall P l1.
Proof. induction 1; inversion 1; subst; try constructor; auto. Qed.

Section TopicFacts.

Variable toLowerCase : text → text.

Lemma distinctTopics_spec (topics : list text) (uniqueTopics : gset text) :
  NoDup (map toLowerCase (distinctTopics toLowerCase uniqueTopics topics))
  ∧ (∀ topic, topic ∈ distinctTopics toLowerCase uniqueTopics topics →
              toLowerCase topic ∉ uniqueTopics)
  ∧ distinctTopics toLowerCase uniqueTopics topics `sublist_of` topics.
Proof.
  revert uniqueTopics. induction topics as [|topic rest IH]; intros uniqueTopics.
  - simpl. split; [constructor|]. split; [|constructor]. intros ? H. now apply elem_of_nil in H.
  - simpl. case_bool_decide as Hseen.
    + destruct (IH uniqueTopics) as (Hnd & Hnot & Hsub).
      split; [exact Hnd|]. split; [exact Hnot|]. now apply sublist_cons.
    + destruct (IH ({[toLowerCase topic]} ∪ uniqueTopics)) as (Hnd & Hnot & Hsub).
      split; [|split].
      * simpl. constructor; [|exact Hnd].
        intros Hin. apply list_elem_of_fmap in Hin as (other & Heq & Hin).
        apply Hnot in Hin. apply Hin, elem_of_union_l, elem_of_singleton. now symmetry.
      * intros other Hin. apply elem_of_cons in Hin as [->|Hin]; [exact Hseen|].
        apply Hnot in Hin. intros Hother. now apply Hin, elem_of_union_r.
      * now apply sublist_skip.
Qed.

Lemma topicsOf_distinct (resultText : option text) :
  NoDup (map toLowerCase (topicsOf toLowerCase resultText)).
Proof. unfold topicsOf. apply distinctTopics_spec. Qed.

Lemma topicsOf_trimmed (resultText : option text) :
  Forall (λ topic, trimmedLine topic = true) (topicsOf toLowerCase resultText).
Proof.
  unfold topicsOf.
  eapply Forall_sublist; [apply distinctTopics_spec | apply topicLines_trimmed].
Qed.

Lemma finalTopicsOf_cases (topics : list text) :
  (finalTopicsOf topics = [] ∧ (length (take 8 topics) < 3)%nat)
  ∨ (finalTopicsOf topics = take 8 topics ∧ (3 ≤ length (take 8 topics))%nat).
Proof.
  unfold finalTopicsOf. destruct (Nat.ltb (length (take 8 topics)) 3) eqn:H.
  - left. apply Nat.ltb_lt in H. now split.
  - right. apply Nat.ltb_ge in H. now split.
Qed.

(** The index is empty, or the first eight topics of one of the answers. *)
Lemma topicIndex_cases (messages : list ChatMessage) (answer retryAnswer : Outcome (option text)) :
  fst (generateConversationTopicIndex toLowerCase messages answer retryAnswer) = []
  ∨ ∃ resultText,
      fst (generateConversationTopicIndex toLowerCase messages answer retryAnswer)
      = take 8 (topicsOf toLowerCase resultText)
      ∧ (3 ≤ length (take 8 (topicsOf toLowerCase resultText)))%nat.
Proof.
  unfold generateConversationTopicIndex.
  destruct (Nat.eqb (length messages) 0); [now left|].
  destruct (Nat.ltb (length messages) 4); [now left|].
  destruct answer as [resultText|e]; [|now left].
  cbv zeta.
  destruct (Nat.ltb (length (topicsOf toLowerCase resultText)) 3
            && Nat.leb 4 (length messages)).
  - destruct retryAnswer as [retryText|e]; [|now left]. cbn [fst].
    destruct (Nat.leb 3 (length (topicsOf toLowerCase retryText)));
      [|destruct (Nat.ltb (length (topicsOf toLowerCase resultText))
                          (length (topicsOf toLowerCase retryText)))]; cbv iota.
    + destruct (finalTopicsOf_cases (topicsOf toLowerCase retryText)) as [[-> _]|[-> H]];
        [now left | right; now exists retryText].
    + destruct (finalTopicsOf_cases (topicsOf toLowerCase retryText)) as [[-> _]|[-> H]];
        [now left | right; now exists retryText].
    + destruct (finalTopicsOf_cases (topicsOf toLowerCase resultText)) as [[-> _]|[-> H]];
        [now left | right; now exists resultText].
  - cbn [fst].
    destruct (finalTopicsOf_cases (topicsOf toLowerCase resultText)) as [[-> _]|[-> H]];
      [now left | right; now exists resultText].
Qed.

(** X26. A topic index is empty or holds between three and eight
    topics, whatever the conversation and whatever Gemini answers. *)
Theorem topic_index_empty_or_three_to_eight
    (messages : list ChatMessage) (answer retryAnswer : Outcome (option text)) :
  let topics := fst (generateConversationTopicIndex toLowerCase messages answer retryAnswer) in
  topics = [] ∨ (3 ≤ length topics ≤ 8)%nat.
Proof.
  cbv zeta. destruct (topicIndex_cases messages answer retryAnswer) as [H|(r & -> & H)];
    [now left | right].
  split; [exact H|]. rewrite length_take. lia.
Qed.

(** X27. The topics of an index are pairwise different also when
    case is ignored, and each one is a non-empty piece of a single
    line with no white space at either end. *)
Theorem topic_index_distinct_and_trimmed
    (messages : list ChatMessage) (answer retryAnswer : Outcome (option text)) :
  let topics := fst (generateConversationTopicIndex toLowerCase messages answer retryAnswer) in
  NoDup (map toLowerCase topics) ∧ Forall (λ topic, trimmedLine topic = true) topics.
Proof.
  cbv zeta. destruct (topicIndex_cases messages answer retryAnswer) as [->|(r & -> & _)].
  - split; constructor.
  - split.
    + eapply sublist_NoDup; [apply (topicsOf_distinct r)|].
      apply (fmap_sublist toLowerCase), sublist_take.
    + apply Forall_take, topicsOf_trimmed.
Qed.

(** X28. When the first answer holds at least three distinct topics
    (and the conversation at least four messages), the index is the
    first eight of them and Gemini is asked once: no retry is made. *)
Theorem three_topics_need_no_retry
    (messages : list ChatMessage) (resultText : option text)
    (retryAnswer : Outcome (option text)) :
  (4 ≤ length messages)%nat →
  (3 ≤ length (topicsOf toLowerCase resultText))%nat →
  generateConversationTopicIndex toLowerCase messages (Returns resultText) retryAnswer
  = (take 8 (topicsOf toLowerCase resultText),
     [mkRequest "gemini-2.5-flash" (topicsPrompt (conversationTextOf messages))]).
Proof.
  intros Hm Ht. unfold generateConversationTopicIndex.
  replace (Nat.eqb (length messages) 0) with false by (symmetry; apply Nat.eqb_neq; lia).
  replace (Nat.ltb (length messages) 4) with false by (symmetry; apply Nat.ltb_ge; lia).
  cbv zeta.
  replace (Nat.ltb (length (topicsOf toLowerCase resultText)) 3) with false
    by (symmetry; apply Nat.ltb_ge; lia).
  simpl andb. cbv iota.
  destruct (finalTopicsOf_cases (topicsOf toLowerCase resultText)) as [[_ H]|[-> _]];
    [|reflexivity].
  rewrite length_take in H. lia.
Qed.

(** X29. When the first answer holds fewer than three distinct topics
    (and the conversation at least four messages), Gemini is asked a
    second time and the retry alone decides: the index is the first
    eight topics of the retry answer if it holds three or more, and
    empty otherwise; the topics of the first answer are never returned. *)
Theorem retry_answer_decides
    (messages : list ChatMessage) (resultText : option text)
    (retryAnswer : Outcome (option text)) :
  (4 ≤ length messages)%nat →
  (length (topicsOf toLowerCase resultText) < 3)%nat →
  generateConversationTopicIndex toLowerCase messages (Returns resultText) retryAnswer
  = (match retryAnswer with
     | Returns retryText => finalTopicsOf (topicsOf toLowerCase retryText)
     | Throws _ => []
     end,
     [mkRequest "gemini-2.5-flash" (topicsPrompt (conversationTextOf messages));
      mkRequest "gemini-2.5-flash" (retryPrompt (conversationTextOf messages))]).
Proof.
  intros Hm Ht. unfold generateConversationTopicIndex.
  replace (Nat.eqb (length messages) 0) with false by (symmetry; apply Nat.eqb_neq; lia).
  replace (Nat.ltb (length messages) 4) with false by (symmetry; apply Nat.ltb_ge; lia).
  cbv zeta.
  replace (Nat.ltb (length (topicsOf toLowerCase resultText)) 3) with true
    by (symmetry; apply Nat.ltb_lt; lia).
  replace (Nat.leb 4 (length messages)) with true by (symmetry; apply Nat.leb_le; lia).
  simpl andb. cbv iota.
  destruct retryAnswer as [retryText|e]; [|reflexivity].
  f_equal.
  destruct (Nat.leb 3 (length (topicsOf toLowerCase retryText))) eqn:H3; [reflexivity|].
  apply Nat.leb_gt in H3.
  destruct (Nat.ltb (length (topicsOf toLowerCase resultText))
                    (length (topicsOf toLowerCase retryText))); [reflexivity|].
  destruct (finalTopicsOf_cases (topicsOf toLowerCase resultText)) as [[-> _]|[_ H]].
  - destruct (finalTopicsOf_cases (topicsOf toLowerCase retryText)) as [[-> _]|[_ H]];
      [reflexivity|]. rewrite length_take in H. lia.
  - rewrite length_take in H. lia.
Qed.

End TopicFacts.

Lemma three_topics_need_no_retry_witness :
  generateConversationTopicIndex asciiLower sampleMessages
    (Returns (Some sampleTopicsAnswer)) (Throws (Error "unused"))
  = (take 8 (topicsOf asciiLower (Some sampleTopicsAnswer)),
     [mkRequest "gemini-2.5-flash" (topicsPrompt (conversationTextOf sampleMessages))]).
Proof.
  apply (three_topics_need_no_retry asciiLower sampleMessages (Some sampleTopicsAnswer)
           (Throws (Error "unused"))); vm_compute; lia.
Defined.

Lemma retry_answer_decides_witness :
  generateConversationTopicIndex asciiLower sampleMessages
    (Returns (Some (codes "Bitcoin"))) (Returns (Some sampleTopicsAnswer))
  = (match Returns (Some sampleTopicsAnswer) with
     | Returns retryText => finalTopicsOf (topicsOf asciiLower retryText)
     | Throws _ => []
     end,
     [mkRequest "gemini-2.5-flash" (topicsPrompt (conversationTextOf sampleMessages));
      mkRequest "gemini-2.5-flash" (retryPrompt (conversationTextOf sampleMessages))]).
Proof.
  apply (retry_answer_decides asciiLower sampleMessages (Some (codes "Bitcoin"))
           (Returns (Some sampleTopicsAnswer))); vm_compute; lia.
Defined.

(** * The first frame on a synthesis link *)

Lemma framesTo_app ws a b : framesTo ws (a ++ b) = framesTo ws a ++ framesTo ws b.
Proof. unfold framesTo. apply omap_app. Qed.

Lemma framesTo_singleton ws ws' frame :
  framesTo ws' [TtsSend ws frame] = if decide (ws = ws') then [frame] else [].
Proof.
  unfold framesTo. simpl. case_decide as Heq.
  - subst. by rewrite Nat.eqb_refl.
  - apply Nat.eqb_neq in Heq. by rewrite Heq.
Qed.

Lemma addEvents_inj evs evs' w : addEvents evs w = addEvents evs' w → evs = evs'.
Proof. intros H. apply (f_equal trace) in H. simpl in H. by apply app_inv_head in H. Qed.

Lemma readyStateOf_withReadyState ws0 r w ws :
  readyStateOf (withReadyState ws0 r w) ws
  = if decide (ws0 = ws)
    then match sockets w !! ws with Some _ => r | None => CLOSED end
    else readyStateOf w ws.
Proof.
  unfold readyStateOf. rewrite lookup_withReadyState.
  destruct (sockets w !! ws) as [so|]; simpl; by case_decide.
Qed.

(** [close()] moves no socket to CONNECTING or OPEN. *)
Lemma readyStateOf_closing ws0 w ws :
  readyStateOf (closing ws0 w) ws = readyStateOf w ws
  ∨ readyStateOf (closing ws0 w) ws = CLOSING.
Proof.
  unfold closing. destruct (readyStateOf w ws0) eqn:H0; try by left.
  all: rewrite readyStateOf_withReadyState; case_decide as Heq; [subst|by left].
  all: unfold readyStateOf in H0; destruct (sockets w !! ws); [by right | done].
Qed.

Lemma readyStateOf_closing_own ws w :
  readyStateOf (closing ws w) ws
  = match readyStateOf w ws with
    | CONNECTING | OPEN => CLOSING
    | CLOSING => CLOSING
    | CLOSED => CLOSED
    end.
Proof.
  unfold closing. destruct (readyStateOf w ws) eqn:Hstate; try by rewrite Hstate.
  all: rewrite readyStateOf_withReadyState; case_decide; [|done].
  all: unfold readyStateOf in Hstate; by destruct (sockets w !! ws).
Qed.

(** X5. Teardown does not depend on the quota module.  Whatever
    [incrementVoiceMinutes] does, return or throw, [cleanupSession] on a
    registered stream returns normally, marks the session inactive,
    removes both entries, reports usage once and closes the link once,
    which leaves CONNECTING and OPEN for CLOSING: a failed usage report
    neither blocks nor undoes the release of the session. *)
Theorem teardown_ignores_quota_outcome w k vs s now quota :
  activeSessions w !! k = Some vs →
  heap w !! vs = Some s →
  result (cleanupSession k (mkCleanupEnv now quota)) w = Ok tt ∧
  activeSessions (exec (cleanupSession k (mkCleanupEnv now quota)) w)
  = delete k (activeSessions w) ∧
  sessionKeyMap (exec (cleanupSession k (mkCleanupEnv now quota)) w)
  = delete (sessionId s) (sessionKeyMap w) ∧
  heap (exec (cleanupSession k (mkCleanupEnv now quota)) w) !! vs
  = Some (withIsActive false s) ∧
  newEvents w (exec (cleanupSession k (mkCleanupEnv now quota)) w)
  = IncrementVoiceMinutes (sessionId s) (Math_ceil_div (now - startTime s) (60 * 1000))
    :: match elevenLabsWs s with Some ws => [TtsClose ws] | None => [] end ∧
  match elevenLabsWs s with
  | Some ws =>
      readyStateOf (exec (cleanupSession k (mkCleanupEnv now quota)) w) ws
      = match readyStateOf w ws with
        | CONNECTING | OPEN => CLOSING
        | CLOSING => CLOSING
        | CLOSED => CLOSED
        end
  | None => True
  end.
Proof.
  intros Hk Hvs.
  destruct (cleanupSession_state w k vs s (mkCleanupEnv now quota) Hk Hvs)
    as (Ha & Hm & Hh & _ & _ & _ & Hs).
  split; [unfold result; by rewrite (cleanupSession_registered _ _ _ _ _ Hk Hvs)|].
  split; [exact Ha|]. split; [exact Hm|].
  split; [rewrite Hh; apply lookup_insert_eq|].
  split; [exact (cleanupSession_events w k vs s (mkCleanupEnv now quota) Hk Hvs)|].
  destruct (elevenLabsWs s) as [ws|]; [|done].
  unfold readyStateOf at 1. rewrite Hs.
  exact (readyStateOf_closing_own ws w).
Qed.

Lemma unborn_closed w ws : consistent w → (nextSocket w ≤ ws)%nat → readyStateOf w ws = CLOSED.
Proof.
  intros Hw Hws. unfold readyStateOf. destruct (sockets w !! ws) as [so|] eqn:Hso; [|done].
  apply (socket_bound w Hw) in Hso. lia.
Qed.

(** A step that sends frames only to open links, and opens none, keeps
    the start frame first. *)
Lemma framed_extend bos w w' evs :
  consistent w → framed bos w →
  trace w' = trace w ++ evs →
  (nextSocket w ≤ nextSocket w')%nat →
  (∀ ws, readyStateOf w' ws = CONNECTING →
         readyStateOf w ws = CONNECTING ∨ (nextSocket w ≤ ws)%nat) →
  (∀ ws, readyStateOf w' ws = OPEN → readyStateOf w ws = OPEN) →
  (∀ ws, readyStateOf w ws ≠ OPEN → framesTo ws evs = []) →
  framed bos w'.
Proof.
  intros Hw [J1 J2 J3] Htrace Hnext Hconn Hopen Hsilent.
  assert (Hunopened : ∀ ws, readyStateOf w ws = CONNECTING ∨ (nextSocket w ≤ ws)%nat →
                            framesTo ws (trace w ++ evs) = []).
  { intros ws Hws. rewrite framesTo_app, (J1 ws Hws), Hsilent; [done|].
    destruct Hws as [Hws|Hws]; [by rewrite Hws|]. by rewrite (unborn_closed w ws Hw Hws). }
  split; rewrite Htrace.
  - intros ws [Hws|Hws]; apply Hunopened; [by apply Hconn | right; lia].
  - intros ws Hws. apply Hopen, J2 in Hws. rewrite framesTo_app.
    by destruct (framesTo ws (trace w)).
  - intros ws frame. rewrite framesTo_app.
    destruct (framesTo ws (trace w)) as [|first rest] eqn:Hold.
    + rewrite Hsilent; [done|]. intros Hws. by apply J2 in Hws.
    + intros Hhead. apply (J3 ws). by rewrite Hold.
Qed.

Section SilentOn.

Variable ws0 : nat.

Lemma silentOn_ret {A} (a : A) : silentOn ws0 (ret a).
Proof. intros w _. exists []. by rewrite addEvents_nil. Qed.

Lemma silentOn_throw {A} e : silentOn ws0 (@throw A e).
Proof. intros w _. exists []. by rewrite addEvents_nil. Qed.

Lemma silentOn_gets {A} (f : World → A) : silentOn ws0 (gets f).
Proof. intros w _. exists []. by rewrite addEvents_nil. Qed.

Lemma silentOn_await {A} (o : Outcome A) : silentOn ws0 (await o).
Proof. destruct o; [apply silentOn_ret | apply silentOn_throw]. Qed.

Lemma silentOn_emit e : notFrameTo ws0 e → silentOn ws0 (emit e).
Proof.
  intros He w _. exists [e]. split; [done|]. destruct e; try done.
  rewrite framesTo_singleton. by case_decide.
Qed.

Lemma silentOn_field {A} (f : VoiceStreamingSession → A) vs : silentOn ws0 (field f vs).
Proof.
  intros w _. exists []. rewrite addEvents_nil. unfold exec, field.
  by destruct (heap w !! vs).
Qed.

Lemma silentOn_bind {A B} (m : M A) (f : A → M B) :
  silentOn ws0 m → (∀ a, silentOn ws0 (f a)) → silentOn ws0 (bind m f).
Proof.
  intros Hm Hf w Hw. destruct (Hm w Hw) as (evs1 & H1 & HE1). unfold exec, bind in *.
  destruct (m w) as [[a|e] w1]; simpl in *; [|eauto]. subst w1.
  destruct (Hf a (addEvents evs1 w) Hw) as (evs2 & H2 & HE2). unfold exec in H2.
  exists (evs1 ++ evs2). rewrite H2, addEvents_app. split; [done|].
  by rewrite framesTo_app, HE1, HE2.
Qed.

Lemma silentOn_try_catch {A} (m : M A) (h : Exn → M A) :
  silentOn ws0 m → (∀ e, silentOn ws0 (h e)) → silentOn ws0 (try_catch m h).
Proof.
  intros Hm Hh w Hw. destruct (Hm w Hw) as (evs1 & H1 & HE1). unfold exec, try_catch in *.
  destruct (m w) as [[a|e] w1]; simpl in *; [eauto|]. subst w1.
  destruct (Hh e (addEvents evs1 w) Hw) as (evs2 & H2 & HE2). unfold exec in H2.
  exists (evs1 ++ evs2). rewrite H2, addEvents_app. split; [done|].
  by rewrite framesTo_app, HE1, HE2.
Qed.

(** The state read from the link [ws0] is not OPEN. *)
Lemma silentOn_readyState {B} ws (k : ReadyState → M B) :
  (∀ state, (ws = ws0 → state ≠ OPEN) → silentOn ws0 (k state)) →
  silentOn ws0 (bind (gets (λ w, readyStateOf w ws)) k).
Proof.
  intros Hk w Hw.
  assert (Hstate : ws = ws0 → readyStateOf w ws ≠ OPEN) by (by intros ->).
  exact (Hk (readyStateOf w ws) Hstate w Hw).
Qed.

End SilentOn.

Ltac silent_step :=
  cbv beta zeta;
  lazymatch goal with
  | |- silentOn _ (bind (gets (λ w, readyStateOf w _)) _) =>
      apply silentOn_readyState; intros [] ?; simpl
  | |- silentOn _ (bind _ _) => apply silentOn_bind; [| intros ?]
  | |- silentOn _ (try_catch _ _) => apply silentOn_try_catch; [| intros ?]
  | |- silentOn _ (ret _) => apply silentOn_ret
  | |- silentOn _ (throw _) => apply silentOn_throw
  | |- silentOn _ (gets _) => apply silentOn_gets
  | |- silentOn _ (await _) => apply silentOn_await
  | |- silentOn _ (emit (TtsSend _ _)) =>
      apply silentOn_emit; simpl; intros Heq;
      match goal with H : _ = _ → OPEN ≠ OPEN |- _ => exact (H Heq eq_refl) end
  | |- silentOn _ (emit _) => apply silentOn_emit; exact I
  | |- silentOn _ (clientSend _ _) => apply silentOn_emit; exact I
  | |- silentOn _ (field _ _) => apply silentOn_field
  | |- silentOn _ (JSON_parse _) => unfold JSON_parse
  | |- silentOn _ (get _ _) => unfold get
  | |- silentOn _ (match ?x with _ => _ end) => destruct x
  end.

Section StartFrame.

Variable N8N_WEBHOOK_URL : option string.
Variable ELEVENLABS_API_KEY : option string.
Variable Buffer_from_base64 : JValue → Outcome string.

Local Abbreviation deliver := (step N8N_WEBHOOK_URL ELEVENLABS_API_KEY Buffer_from_base64).
Local Abbreviation deliverAll := (run N8N_WEBHOOK_URL ELEVENLABS_API_KEY Buffer_from_base64).
Local Abbreviation bos := (bosMessage ELEVENLABS_API_KEY).

Lemma silentOn_onClientMessage ws c vs k data me :
  silentOn ws (onClientMessage N8N_WEBHOOK_URL Buffer_from_base64 c vs k data me).
Proof.
  unfold onClientMessage, processAudioInput, transcribeAudio, routeToN8NWebhook,
    processTextInput, handleStopSpeaking.
  repeat silent_step.
Qed.

Lemma silentOn_onElevenLabsMessage ws c vs data ae :
  silentOn ws (onElevenLabsMessage c vs data ae).
Proof. unfold onElevenLabsMessage, cacheAudioOutput. repeat silent_step. Qed.

(** Events appended with no frame but to open links. *)
Lemma framed_addEvents {A} (m : M A) w :
  consistent w → framed bos w →
  quiet m → (∀ ws, silentOn ws m) →
  framed bos (exec m w).
Proof.
  intros Hw HJ Hq Hs. destruct (Hq w) as [evs Hevs]. rewrite Hevs.
  apply (framed_extend bos w _ evs Hw HJ); try done.
  - intros ws Hws. by left.
  - intros ws Hws. destruct (Hs ws w Hws) as (evs' & Hevs' & Hf).
    rewrite Hevs in Hevs'. by apply addEvents_inj in Hevs' as ->.
Qed.

Lemma cleanupSession_trace w k vs s ce :
  activeSessions w !! k = Some vs →
  heap w !! vs = Some s →
  trace (exec (cleanupSession k ce) w)
  = trace w
    ++ IncrementVoiceMinutes (sessionId s)
         (Math_ceil_div (ceNow ce - startTime s) (60 * 1000))
       :: match elevenLabsWs s with Some ws => [TtsClose ws] | None => [] end.
Proof.
  intros Hk Hvs. unfold exec.
  rewrite (cleanupSession_registered _ _ _ _ _ Hk Hvs). simpl.
  destruct (closeLink_fields (elevenLabsWs s)
    (addEvent (IncrementVoiceMinutes (sessionId s)
       (Math_ceil_div (ceNow ce - startTime s) (60 * 1000)))
       (setHeap <[vs:=withIsActive false s]> w))) as (_ & _ & _ & ->).
  simpl. by rewrite <- app_assoc.
Qed.

Lemma framed_cleanupSession k ce w :
  consistent w → framed bos w → framed bos (exec (cleanupSession k ce) w).
Proof.
  intros Hw HJ. destruct (activeSessions w !! k) as [vs|] eqn:Hk;
    [|unfold exec; by rewrite cleanupSession_unregistered].
  destruct (registered_live w Hw k vs Hk) as (s & t & Hvs & _).
  destruct (cleanupSession_state w k vs s ce Hk Hvs) as (_ & _ & _ & _ & _ & Hns & Hs).
  assert (Hstate : ∀ ws, readyStateOf (exec (cleanupSession k ce) w) ws = readyStateOf w ws
                         ∨ readyStateOf (exec (cleanupSession k ce) w) ws = CLOSING).
  { intros ws. unfold readyStateOf at 1 3. rewrite Hs.
    destruct (elevenLabsWs s) as [ws0|]; [apply readyStateOf_closing | by left]. }
  eapply (framed_extend bos w _ _ Hw HJ (cleanupSession_trace w k vs s ce Hk Hvs)).
  - by rewrite Hns.
  - intros ws Hws. destruct (Hstate ws) as [H|H]; rewrite H in Hws; [by left | done].
  - intros ws Hws. destruct (Hstate ws) as [H|H]; rewrite H in Hws; done.
  - intros ws _. unfold framesTo. simpl. by destruct (elevenLabsWs s).
Qed.

Lemma framed_initializeVoiceSession c sid cid p ie w :
  consistent w → framed bos w → framed bos (exec (initializeVoiceSession c sid cid p ie) w).
Proof.
  intros Hw HJ. unfold exec. rewrite initializeVoiceSession_run. simpl.
  destruct (ieNewWebSocket ie) as [[]|e].
  - eapply (framed_extend bos w _ _ Hw HJ); simpl; [reflexivity | lia | | | done].
    + intros ws. unfold readyStateOf. simpl. rewrite lookup_insert.
      case_decide as Heq; [right; lia | by left].
    + intros ws. unfold readyStateOf. simpl. rewrite lookup_insert.
      by case_decide as Heq.
  - eapply (framed_extend bos w _ _ Hw HJ); simpl; [reflexivity | lia | | | done].
    + intros ws Hws. by left.
    + done.
Qed.

Lemma framed_open w ws :
  consistent w → framed bos w → readyStateOf w ws = CONNECTING →
  framed bos (addEvent (TtsSend ws bos) (withReadyState ws OPEN w)).
Proof.
  intros Hw [J1 J2 J3] Hstate.
  assert (Hso : is_Some (sockets w !! ws)).
  { unfold readyStateOf in Hstate. by destruct (sockets w !! ws). }
  assert (Hready : ∀ ws', readyStateOf (addEvent (TtsSend ws bos) (withReadyState ws OPEN w)) ws'
                          = if decide (ws = ws') then OPEN else readyStateOf w ws').
  { intros ws'. change (readyStateOf (addEvent (TtsSend ws bos) (withReadyState ws OPEN w)) ws')
      with (readyStateOf (withReadyState ws OPEN w) ws').
    rewrite readyStateOf_withReadyState. case_decide as Heq; [subst|done].
    by destruct Hso as [so ->]. }
  assert (Hframes : ∀ ws', framesTo ws' (trace w ++ [TtsSend ws bos])
                           = framesTo ws' (trace w) ++ if decide (ws = ws') then [bos] else []).
  { intros ws'. by rewrite framesTo_app, framesTo_singleton. }
  split.
  - intros ws' Hws'. rewrite Hready in Hws'.
    change (trace (addEvent (TtsSend ws bos) (withReadyState ws OPEN w)))
      with (trace w ++ [TtsSend ws bos]).
    change (nextSocket (addEvent (TtsSend ws bos) (withReadyState ws OPEN w)))
      with (nextSocket w) in Hws'.
    rewrite Hframes. case_decide as Heq.
    + subst ws'. destruct Hws' as [Hws'|Hws']; [done|].
      destruct Hso as [so Hso]. apply (socket_bound w Hw) in Hso. lia.
    + rewrite app_nil_r. by apply J1.
  - intros ws' Hws'. rewrite Hready in Hws'.
    change (trace (addEvent (TtsSend ws bos) (withReadyState ws OPEN w)))
      with (trace w ++ [TtsSend ws bos]).
    rewrite Hframes. case_decide as Heq.
    + by destruct (framesTo ws' (trace w)).
    + rewrite app_nil_r. by apply J2.
  - intros ws' frame.
    change (trace (addEvent (TtsSend ws bos) (withReadyState ws OPEN w)))
      with (trace w ++ [TtsSend ws bos]).
    rewrite Hframes. case_decide as Heq.
    + subst ws'. rewrite (J1 ws (or_introl Hstate)). simpl. congruence.
    + rewrite app_nil_r. apply J3.
Qed.

Lemma framed_step w i : consistent w → framed bos w → framed bos (deliver w i).
Proof.
  intros Hw HJ. destruct i as [c sid cid p ie|l data me|l ce|ws|ws data ae|ws|ws].
  - by apply framed_initializeVoiceSession.
  - unfold step, dispatch, exec, bind, gets. simpl.
    destruct (listeners w !! l) as [h|]; [|done].
    apply (framed_addEvents
             (onClientMessage N8N_WEBHOOK_URL Buffer_from_base64
                (lClient h) (lSession h) (lStream h) data me) w Hw HJ).
    + apply quiet_onClientMessage.
    + intros ws. apply silentOn_onClientMessage.
  - unfold step, dispatch, onClientClose, exec, bind, gets. simpl.
    destruct (listeners w !! l) as [h|]; [|done].
    by apply framed_cleanupSession.
  - unfold step, dispatch, exec, bind, gets, onElevenLabsOpen, setReadyState, emit, modify.
    simpl. destruct (readyStateOf w ws) eqn:Hstate; try done.
    by apply framed_open.
  - unfold step, dispatch, exec, bind, gets. simpl.
    destruct (sockets w !! ws) as [so|]; [|done].
    apply (framed_addEvents (onElevenLabsMessage (wsClient so) (wsSession so) data ae) w Hw HJ).
    + apply quiet_onElevenLabsMessage.
    + intros ws'. apply silentOn_onElevenLabsMessage.
  - unfold step, dispatch, exec, bind, gets. simpl.
    destruct (sockets w !! ws) as [so|]; [|done].
    apply (framed_addEvents (onElevenLabsError (wsClient so)) w Hw HJ).
    + unfold onElevenLabsError. apply quiet_emit.
    + intros ws'. unfold onElevenLabsError. by apply silentOn_emit.
  - unfold step, dispatch, exec, setReadyState, modify. simpl.
    eapply (framed_extend bos w _ [] Hw HJ).
    + by rewrite app_nil_r.
    + done.
    + intros ws'. rewrite readyStateOf_withReadyState.
      case_decide as Heq; [|by left]. by destruct (sockets w !! ws').
    + intros ws'. rewrite readyStateOf_withReadyState.
      case_decide as Heq; [|done]. by destruct (sockets w !! ws').
    + done.
Qed.

Lemma framed_run w inputs :
  consistent w → framed bos w → framed bos (deliverAll w inputs).
Proof.
  revert w. induction inputs as [|i inputs IH]; intros w Hw HJ; [done|].
  simpl. apply IH; [by apply consistent_step | by apply framed_step].
Qed.

Lemma framed_empty : framed bos emptyWorld.
Proof. split; intros; done. Qed.

(** X9. In every state the service reaches from its start, the first
    frame a synthesis link was sent is the start-of-stream frame, the one
    with the single-space text, the voice settings and the API key: no
    reply text and no flush reaches a link before it. *)
Theorem start_frame_is_first inputs ws frame :
  head (framesTo ws (trace (deliverAll emptyWorld inputs))) = Some frame →
  frame = bos.
Proof.
  apply (start_first bos (deliverAll emptyWorld inputs)).
  apply framed_run; [apply consistent_empty | apply framed_empty].
Qed.

End StartFrame.

Lemma start_frame_is_first_witness :
  head (framesTo 0
          (trace (run None None sampleBuffer emptyWorld
                    [Initialize 7 "s" "c" "Savantist" (sampleInit 1000);
                     ElevenLabsOpen 0;
                     ClientMessage 0 (textInput "Hello") (sampleMessage (JObj []))])))
  = Some (bosMessage None)
  ∧ bosMessage None = bosMessage None.
Proof.
  assert (head (framesTo 0
            (trace (run None None sampleBuffer emptyWorld
                      [Initialize 7 "s" "c" "Savantist" (sampleInit 1000);
                       ElevenLabsOpen 0;
                       ClientMessage 0 (textInput "Hello") (sampleMessage (JObj []))])))
          = Some (bosMessage None)) as H by (vm_compute; reflexivity).
  split; [exact H|].
  exact (start_frame_is_first None None sampleBuffer _ 0%nat (bosMessage None) H).
Defined.

Lemma teardown_ignores_quota_outcome_witness :
  result (cleanupSession "s-voice-1000"
            (mkCleanupEnv 62000 (Throws (Error "quota store unreachable")))) sampleWorld
  = Ok tt ∧
  activeSessions
    (exec (cleanupSession "s-voice-1000"
             (mkCleanupEnv 62000 (Throws (Error "quota store unreachable")))) sampleWorld)
  = delete "s-voice-1000" (activeSessions sampleWorld) ∧
  sessionKeyMap
    (exec (cleanupSession "s-voice-1000"
             (mkCleanupEnv 62000 (Throws (Error "quota store unreachable")))) sampleWorld)
  = delete (sessionId sampleSession) (sessionKeyMap sampleWorld) ∧
  heap
    (exec (cleanupSession "s-voice-1000"
             (mkCleanupEnv 62000 (Throws (Error "quota store unreachable")))) sampleWorld)
    !! 0%nat
  = Some (withIsActive false sampleSession) ∧
  newEvents sampleWorld
    (exec (cleanupSession "s-voice-1000"
             (mkCleanupEnv 62000 (Throws (Error "quota store unreachable")))) sampleWorld)
  = IncrementVoiceMinutes (sessionId sampleSession)
      (Math_ceil_div (62000 - startTime sampleSession) (60 * 1000))
    :: match elevenLabsWs sampleSession with Some ws => [TtsClose ws] | None => [] end ∧
  match elevenLabsWs sampleSession with
  | Some ws =>
      readyStateOf
        (exec (cleanupSession "s-voice-1000"
                 (mkCleanupEnv 62000 (Throws (Error "quota store unreachable")))) sampleWorld)
        ws
      = match readyStateOf sampleWorld ws with
        | CONNECTING | OPEN => CLOSING
        | CLOSING => CLOSING
        | CLOSED => CLOSED
        end
  | None => True
  end.
Proof.
  apply (teardown_ignores_quota_outcome sampleWorld "s-voice-1000" 0%nat sampleSession 62000
           (Throws (Error "quota store unreachable"))); vm_compute; reflexivity.
Defined.
